(** * ShareFilesCF: the access-control and lifecycle engine

    A shallow embedding of the backend of ShareFilesCF (a Cloudflare Workers
    service on D1 and R2): the crypto and validation utilities, the
    [DatabaseService] and [StorageService] classes, the upload, download and
    text handlers and the scheduled clean-up job, followed by the properties
    of the engine that are proved about them.

    Conventions of the embedding.
    - JavaScript numbers that the code only compares, increments or
      multiplies by a constant (sizes, counters, hours) are integers [Z];
      fractional values are outside the model.
    - Instants are the milliseconds since the epoch that [Date.getTime]
      yields.  The ISO-8601 text that [toISOString] produces has a fixed
      width, so comparing two such texts (as the SQL of the clean-up does)
      agrees with comparing the instants.
    - [new Date()] and [crypto.getRandomValues] are inputs of the function
      that calls them: a [now] argument, and the random array as the
      function from an index to the byte written there.
    - Identifiers, storage keys, file names and mime types are [string]s,
      one character for each code unit, all below 256.  Password
      plaintexts are sequences of UTF-16 code units, because
      [TextEncoder] is sensitive to their surrogate structure.
    - An [async] function that may throw returns a [Result].  The D1
      database is taken to answer: of its errors only the primary-key
      conflict of an INSERT is modelled.  The R2 bucket may be
      unavailable, and then every operation on it throws.
    - A request reaches a handler as the values that the framework reads
      from it: the parsed form or JSON body, the client address, the
      origin of the URL.  A number field of a form is missing, blank, the
      numeral of an integer or a text that is no number.
    - A response is what the handler built it from.  Of its headers only
      those that hold data of a record are modelled, because the
      constructor of a response throws on a value that is no header
      value. *)

From Stdlib Require Import ZArith String Ascii List Bool Lia DecimalString.
From stdpp Require Import base strings list.
Import ListNotations.

Local Open Scope string_scope.
Local Open Scope Z_scope.
Local Open Scope list_scope.

(** ** JavaScript strings and truthiness *)

(** A JavaScript string seen as its UTF-16 code units. *)
Abbreviation jsstring := (list Z).

(** The code units of a literal whose characters are all below 256. *)
Definition js (s : string) : jsstring :=
  map (fun c => Z.of_N (N_of_ascii c)) (list_ascii_of_string s).

(** [!!x] for an optional string: [undefined], [null] and the empty string
    are falsy. *)
Definition truthy_string (o : option string) : bool :=
  match o with
  | Some s => negb (String.eqb s "")
  | None => false
  end.

Definition truthy_jsstring (o : option jsstring) : bool :=
  match o with
  | Some (_ :: _) => true
  | _ => false
  end.

(** [!!x] for an optional number: [undefined], [null] and [0] are falsy. *)
Definition truthy_number (o : option Z) : bool :=
  match o with
  | Some n => negb (n =? 0)
  | None => false
  end.

(** A number inside a template literal. *)
Definition show (n : Z) : string := NilEmpty.string_of_int (Z.to_int n).

(** [x || null] as bound to an SQL parameter, for numbers and strings. *)
Definition number_or_null (o : option Z) : option Z :=
  if truthy_number o then o else None.

Definition string_or_null (o : option string) : option string :=
  if truthy_string o then o else None.

(** [s.split(c)] for a one-character separator: never empty. *)
Fixpoint split (c : ascii) (s : string) : list string :=
  match s with
  | EmptyString => [EmptyString]
  | String a rest =>
      if Ascii.eqb a c then EmptyString :: split c rest
      else match split c rest with
           | [] => [String a EmptyString]
           | piece :: pieces => String a piece :: pieces
           end
  end.

(** [arr[0]] and [arr.pop()] on the result of a split. *)
Definition first_piece (l : list string) : string := List.hd "" l.
Definition pop (l : list string) : string := List.last l "".

(** ** The platform's digest: SHA-256 (FIPS 180-4) on bytes *)

Module SHA256.

Definition mask32 : Z := 4294967295.
Definition add32 (x y : Z) : Z := (x + y) mod 4294967296.
Definition rotr (n x : Z) : Z :=
  Z.lor (Z.shiftr x n) (Z.land (Z.shiftl x (32 - n)) mask32).
Definition xor3 (x y z : Z) : Z := Z.lxor (Z.lxor x y) z.

Definition Ch (x y z : Z) : Z :=
  Z.lxor (Z.land x y) (Z.land (Z.lxor x mask32) z).
Definition Maj (x y z : Z) : Z :=
  xor3 (Z.land x y) (Z.land x z) (Z.land y z).
Definition bsig0 (x : Z) : Z := xor3 (rotr 2 x) (rotr 13 x) (rotr 22 x).
Definition bsig1 (x : Z) : Z := xor3 (rotr 6 x) (rotr 11 x) (rotr 25 x).
Definition ssig0 (x : Z) : Z := xor3 (rotr 7 x) (rotr 18 x) (Z.shiftr x 3).
Definition ssig1 (x : Z) : Z := xor3 (rotr 17 x) (rotr 19 x) (Z.shiftr x 10).

(** The round constants, in decimal. *)
Definition round_constants : list Z :=
  [ 1116352408; 1899447441; 3049323471; 3921009573;
    961987163; 1508970993; 2453635748; 2870763221;
    3624381080; 310598401; 607225278; 1426881987;
    1925078388; 2162078206; 2614888103; 3248222580;
    3835390401; 4022224774; 264347078; 604807628;
    770255983; 1249150122; 1555081692; 1996064986;
    2554220882; 2821834349; 2952996808; 3210313671;
    3336571891; 3584528711; 113926993; 338241895;
    666307205; 773529912; 1294757372; 1396182291;
    1695183700; 1986661051; 2177026350; 2456956037;
    2730485921; 2820302411; 3259730800; 3345764771;
    3516065817; 3600352804; 4094571909; 275423344;
    430227734; 506948616; 659060556; 883997877;
    958139571; 1322822218; 1537002063; 1747873779;
    1955562222; 2024104815; 2227730452; 2361852424;
    2428436474; 2756734187; 3204031479; 3329325298 ].

Definition initial_state : list Z :=
  [ 1779033703; 3144134277; 1013904242; 2773480762;
    1359893119; 2600822924; 528734635; 1541459225 ].

(** Big-endian packing of bytes into 32-bit words and back. *)
Fixpoint words_of_bytes (bs : list Z) : list Z :=
  match bs with
  | b0 :: b1 :: b2 :: b3 :: rest =>
      (((b0 * 256 + b1) * 256 + b2) * 256 + b3) :: words_of_bytes rest
  | _ => []
  end.

Definition bytes_of_word (w : Z) : list Z :=
  [ Z.shiftr w 24 mod 256; Z.shiftr w 16 mod 256;
    Z.shiftr w 8 mod 256; w mod 256 ].

(** The message followed by 0x80, zeros up to 56 modulo 64, and the bit
    length on eight bytes. *)
Definition pad (msg : list Z) : list Z :=
  let len := Z.of_nat (List.length msg) in
  let bits := len * 8 in
  msg ++ [128] ++ List.repeat 0 (Z.to_nat ((55 - len) mod 64))
      ++ bytes_of_word (Z.shiftr bits 32 mod 4294967296)
      ++ bytes_of_word (bits mod 4294967296).

(** One round: the working variables, and the sliding window of the
    sixteen most recent schedule words, whose head is the current one. *)
Definition round (st : list Z * list Z) (k : Z) : list Z * list Z :=
  match st with
  | ([a; b; c; d; e; f; g; h], w) =>
      let wt := List.nth 0 w 0 in
      let t1 := add32 (add32 (add32 (add32 h (bsig1 e)) (Ch e f g)) k) wt in
      let t2 := add32 (bsig0 a) (Maj a b c) in
      let next :=
        add32 (add32 (add32 (ssig1 (List.nth 14 w 0)) (List.nth 9 w 0))
                     (ssig0 (List.nth 1 w 0))) wt in
      ([add32 t1 t2; a; b; c; add32 d t1; e; f; g], List.tl w ++ [next])
  | _ => st
  end.

Definition compress (hash : list Z) (block : list Z) : list Z :=
  let out := fst (List.fold_left round round_constants (hash, block)) in
  List.map (fun p => add32 (fst p) (snd p)) (List.combine hash out).

(** The padded message, sixteen words at a time. *)
Fixpoint blocks (n : nat) (ws : list Z) : list (list Z) :=
  match n with
  | O => []
  | S n' => List.firstn 16 ws :: blocks n' (List.skipn 16 ws)
  end.

Definition digest (msg : list Z) : list Z :=
  let ws := words_of_bytes (pad msg) in
  let hash :=
    List.fold_left compress (blocks (Nat.div (List.length ws) 16) ws)
                   initial_state in
  List.concat (List.map bytes_of_word hash).

End SHA256.

(** ** utils/crypto.ts *)

Definition is_high_surrogate (u : Z) : bool := (55296 <=? u) && (u <=? 56319).
Definition is_low_surrogate (u : Z) : bool := (56320 <=? u) && (u <=? 57343).

(** The scalar values of a UTF-16 string as [TextEncoder] reads it: a
    surrogate pair is one scalar, an unpaired surrogate becomes U+FFFD. *)
Fixpoint scalar_values (s : jsstring) : list Z :=
  match s with
  | [] => []
  | u :: rest =>
      if is_high_surrogate u then
        match rest with
        | v :: rest' =>
            if is_low_surrogate v
            then (65536 + (u - 55296) * 1024 + (v - 56320)) :: scalar_values rest'
            else 65533 :: scalar_values rest
        | [] => [65533]
        end
      else if is_low_surrogate u then 65533 :: scalar_values rest
      else u :: scalar_values rest
  end.

Definition utf8 (c : Z) : list Z :=
  if c <? 128 then [c]
  else if c <? 2048 then [192 + c / 64; 128 + c mod 64]
  else if c <? 65536 then [224 + c / 4096; 128 + (c / 64) mod 64; 128 + c mod 64]
  else [240 + c / 262144; 128 + (c / 4096) mod 64;
        128 + (c / 64) mod 64; 128 + c mod 64].

(** [new TextEncoder().encode(s)] *)
Definition encode (s : jsstring) : list Z :=
  List.concat (List.map utf8 (scalar_values s)).

Definition hex_digit (n : Z) : ascii :=
  List.nth (Z.to_nat n) (list_ascii_of_string "0123456789abcdef") "0"%char.

(** [b.toString(16).padStart(2, '0')] for a byte. *)
Definition hex_byte (b : Z) : string :=
  String (hex_digit (b / 16)) (String (hex_digit (b mod 16)) EmptyString).

(** [hashArray.map(...).join('')] *)
Definition hex (bs : list Z) : string :=
  List.fold_right (fun b acc => hex_byte b +:+ acc) "" bs.

Definition hashPassword (password : jsstring) : string :=
  let data := encode password in
  let hashArray := SHA256.digest data in
  hex hashArray.

Definition verifyPassword (password : jsstring) (hash : string) : bool :=
  let passwordHash := hashPassword password in
  String.eqb passwordHash hash.

Definition chars : string :=
  "ABCDEFGHIJKLMNOPQRSTUVWXYZabcdefghijklmnopqrstuvwxyz0123456789".

(** [chars[b % chars.length]] for a byte [b] of the random array. *)
Definition pick_char (b : Z) : ascii :=
  List.nth (Z.to_nat (b mod 62)) (list_ascii_of_string chars) "A"%char.

(** [generateId(length)], where [randomArray i] is the byte that
    [crypto.getRandomValues] wrote at index [i]. *)
Definition generateId (length : nat) (randomArray : nat -> Z) : string :=
  string_of_list_ascii
    (List.map (fun i => pick_char (randomArray i)) (List.seq 0 length)).


(** [generateSecureFilename]: the extension is whatever follows the last
    dot of the name, the whole name when it has no dot. *)
Definition generateSecureFilename (originalFilename : string)
    (randomArray : nat -> Z) : string :=
  let extension := pop (split "." originalFilename) in
  let id := generateId 16 randomArray in
  if truthy_string (Some extension) then id +:+ "." +:+ extension else id.

(** The characters that the first [replace] of [sanitizeFilename] turns
    into underscores; 034 is the double quote. *)
Definition unsafe_char (c : ascii) : bool :=
  existsb (Ascii.eqb c)
    [ "<"; ">"; ":"; "034"; "/"; "\"; "|"; "?"; "*" ]%char.

(** The class [\s], for code units below 256. *)
Definition space_char (c : ascii) : bool :=
  existsb (Ascii.eqb c) [ "009"; "010"; "011"; "012"; "013"; " "; "160" ]%char.

(** [s.replace(/\s+/g, '_')]: each maximal run of spaces becomes one
    underscore.  [in_run] tells whether the previous character was a space. *)
Fixpoint collapse_spaces (in_run : bool) (s : string) : string :=
  match s with
  | EmptyString => EmptyString
  | String c rest =>
      if space_char c
      then if in_run then collapse_spaces true rest
           else String "_" (collapse_spaces true rest)
      else String c (collapse_spaces false rest)
  end.

Definition map_string (f : ascii -> ascii) (s : string) : string :=
  string_of_list_ascii (List.map f (list_ascii_of_string s)).

Definition sanitizeFilename (filename : string) : string :=
  let step1 := map_string (fun c => if unsafe_char c then "_"%char else c) filename in
  let step2 := collapse_spaces false step1 in
  String.substring 0 255 step2.

(** ** utils/validation.ts *)

Definition allowedTypes : list string :=
  [ "image/jpeg"; "image/png"; "image/gif"; "image/webp"; "image/svg+xml";
    "application/pdf"; "text/plain"; "text/markdown"; "application/msword";
    "application/vnd.openxmlformats-officedocument.wordprocessingml.document";
    "application/vnd.ms-excel";
    "application/vnd.openxmlformats-officedocument.spreadsheetml.sheet";
    "application/vnd.ms-powerpoint";
    "application/vnd.openxmlformats-officedocument.presentationml.presentation";
    "application/zip"; "application/x-rar-compressed";
    "application/x-7z-compressed"; "application/x-tar"; "application/gzip";
    "text/html"; "text/css"; "text/javascript"; "application/javascript";
    "text/x-javascript"; "application/json"; "application/xml"; "text/xml";
    "text/x-python"; "application/x-python-code"; "text/x-java-source";
    "text/x-c"; "text/x-c++"; "text/x-csharp"; "text/x-php"; "text/x-ruby";
    "text/x-go"; "text/x-rust"; "text/x-typescript"; "application/typescript";
    "text/x-sql"; "application/sql"; "text/x-sh"; "application/x-sh";
    "text/x-yaml"; "application/x-yaml"; "text/yaml"; "application/yaml";
    "audio/mpeg"; "audio/wav"; "audio/ogg"; "audio/mp4";
    "video/mp4"; "video/webm"; "video/ogg"; "video/quicktime";
    "application/octet-stream" ].

(** [arr.includes(x)] on an array of strings. *)
Definition includes (arr : list string) (x : string) : bool :=
  existsb (String.eqb x) arr.

Definition isAllowedFileType (mimeType : string) : bool :=
  includes allowedTypes mimeType.

Definition isValidFileSize (size maxSize : Z) : bool :=
  (0 <? size) && (size <=? maxSize).

Definition isValidExpiryHours (hours maxHours : Z) : bool :=
  (0 <? hours) && (hours <=? maxHours).

Definition calculateExpiryDate (hours : Z) (now : Z) : Z :=
  now + hours * 60 * 60 * 1000.

Definition isExpired (expiresAt : Z) (now : Z) : bool :=
  now >? expiresAt.

(** [s.trim()], for code units below 256: the white space and the line
    terminators that it strips are those of the class [\s]. *)
Fixpoint trim_start (s : string) : string :=
  match s with
  | EmptyString => EmptyString
  | String c rest => if space_char c then trim_start rest else s
  end.

Fixpoint trim_end (s : string) : string :=
  match s with
  | EmptyString => EmptyString
  | String c rest =>
      match trim_end rest with
      | EmptyString => if space_char c then EmptyString else String c EmptyString
      | kept => String c kept
      end
  end.

Definition trim (s : string) : string := trim_end (trim_start s).

(** The loop of [getClientIP] over the names of the headers; [get] is
    [request.headers.get]. *)
Fixpoint first_address (get : string -> option string) (headers : list string)
    : string :=
  match headers with
  | [] => "unknown"
  | header :: rest =>
      let ip := get header in
      if truthy_string ip
      then trim (first_piece (split "," (default "" ip)))
      else first_address get rest
  end.

Definition getClientIP (request : string -> option string) : string :=
  first_address request
    [ "CF-Connecting-IP"; "X-Forwarded-For"; "X-Real-IP"; "X-Client-IP" ].

(** ** types/database.ts and the tables of the migration *)

Module FileRecord.
Record t := mk {
  id : string;
  filename : string;
  original_filename : string;
  mime_type : string;
  size : Z;
  upload_ip : option string;
  created_at : Z;
  expires_at : Z;
  download_count : Z;
  max_downloads : option Z;
  password_hash : option string;
  is_deleted : bool
}.

Definition with_download_count (n : Z) (f : t) : t :=
  mk (id f) (filename f) (original_filename f) (mime_type f) (size f)
     (upload_ip f) (created_at f) (expires_at f) n (max_downloads f)
     (password_hash f) (is_deleted f).

Definition with_is_deleted (b : bool) (f : t) : t :=
  mk (id f) (filename f) (original_filename f) (mime_type f) (size f)
     (upload_ip f) (created_at f) (expires_at f) (download_count f)
     (max_downloads f) (password_hash f) b.
End FileRecord.

Module TextShareRecord.
Record t := mk {
  id : string;
  title : option string;
  content : string;
  language : string;
  upload_ip : option string;
  created_at : Z;
  expires_at : Z;
  view_count : Z;
  max_views : option Z;
  password_hash : option string;
  is_deleted : bool
}.

Definition with_view_count (n : Z) (s : t) : t :=
  mk (id s) (title s) (content s) (language s) (upload_ip s) (created_at s)
     (expires_at s) n (max_views s) (password_hash s) (is_deleted s).

Definition with_is_deleted (b : bool) (s : t) : t :=
  mk (id s) (title s) (content s) (language s) (upload_ip s) (created_at s)
     (expires_at s) (view_count s) (max_views s) (password_hash s) b.
End TextShareRecord.

Module CreateFileInput.
Record t := mk {
  filename : string;
  original_filename : string;
  mime_type : string;
  size : Z;
  upload_ip : option string;
  expires_at : Z;
  max_downloads : option Z;
  password : option string
}.
End CreateFileInput.

Module CreateTextShareInput.
Record t := mk {
  title : option string;
  content : string;
  language : option string;
  upload_ip : option string;
  expires_at : Z;
  max_views : option Z;
  password : option string
}.
End CreateTextShareInput.

(** The D1 database: the rows of the two tables.  [id] is the primary key
    of both. *)
Record D1Database := {
  files : list FileRecord.t;
  text_shares : list TextShareRecord.t
}.

(** The outcome of an [async] call: a value, or a thrown error. *)
Inductive Result (A : Type) : Type :=
| Ok (a : A)
| Throw.
Arguments Ok {A} a.
Arguments Throw {A}.

(** ** services/database.ts *)

Module DatabaseService.

Definition file_row_matches (id : string) (f : FileRecord.t) : bool :=
  String.eqb (FileRecord.id f) id.

Definition text_row_matches (id : string) (s : TextShareRecord.t) : bool :=
  String.eqb (TextShareRecord.id s) id.

Definition update_files (db : D1Database) (rows : list FileRecord.t) :=
  {| files := rows; text_shares := text_shares db |}.

Definition update_text_shares (db : D1Database)
    (rows : list TextShareRecord.t) :=
  {| files := files db; text_shares := rows |}.

(** The INSERT throws when the fresh id is already a primary key. *)
Definition createFile (input : CreateFileInput.t) (randomArray : nat -> Z)
    (now : Z) (db : D1Database) : Result FileRecord.t * D1Database :=
  let id := generateId 12 randomArray in
  if existsb (file_row_matches id) (files db) then (Throw, db)
  else
    let row :=
      FileRecord.mk id
        (CreateFileInput.filename input)
        (CreateFileInput.original_filename input)
        (CreateFileInput.mime_type input)
        (CreateFileInput.size input)
        (string_or_null (CreateFileInput.upload_ip input))
        now
        (CreateFileInput.expires_at input)
        0
        (number_or_null (CreateFileInput.max_downloads input))
        (string_or_null (CreateFileInput.password input))
        false in
    let returned :=
      FileRecord.mk id
        (CreateFileInput.filename input)
        (CreateFileInput.original_filename input)
        (CreateFileInput.mime_type input)
        (CreateFileInput.size input)
        (CreateFileInput.upload_ip input)
        now
        (CreateFileInput.expires_at input)
        0
        (CreateFileInput.max_downloads input)
        (CreateFileInput.password input)
        false in
    (Ok returned, update_files db (files db ++ [row])).

Definition getFile (id : string) (db : D1Database) : option FileRecord.t :=
  List.find (fun f => file_row_matches id f && negb (FileRecord.is_deleted f))
            (files db).

Definition incrementDownloadCount (id : string) (db : D1Database)
    : D1Database :=
  update_files db
    (List.map (fun f =>
        if file_row_matches id f
        then FileRecord.with_download_count (FileRecord.download_count f + 1) f
        else f) (files db)).

Definition deleteFile (id : string) (db : D1Database) : D1Database :=
  update_files db
    (List.map (fun f =>
        if file_row_matches id f then FileRecord.with_is_deleted true f
        else f) (files db)).

Definition createTextShare (input : CreateTextShareInput.t)
    (randomArray : nat -> Z) (now : Z) (db : D1Database)
    : Result TextShareRecord.t * D1Database :=
  let id := generateId 12 randomArray in
  if existsb (text_row_matches id) (text_shares db) then (Throw, db)
  else
    let language :=
      if truthy_string (CreateTextShareInput.language input)
      then default "text" (CreateTextShareInput.language input)
      else "text" in
    let row :=
      TextShareRecord.mk id
        (string_or_null (CreateTextShareInput.title input))
        (CreateTextShareInput.content input)
        language
        (string_or_null (CreateTextShareInput.upload_ip input))
        now
        (CreateTextShareInput.expires_at input)
        0
        (number_or_null (CreateTextShareInput.max_views input))
        (string_or_null (CreateTextShareInput.password input))
        false in
    let returned :=
      TextShareRecord.mk id
        (CreateTextShareInput.title input)
        (CreateTextShareInput.content input)
        language
        (CreateTextShareInput.upload_ip input)
        now
        (CreateTextShareInput.expires_at input)
        0
        (CreateTextShareInput.max_views input)
        (CreateTextShareInput.password input)
        false in
    (Ok returned, update_text_shares db (text_shares db ++ [row])).

Definition getTextShare (id : string) (db : D1Database)
    : option TextShareRecord.t :=
  List.find
    (fun s => text_row_matches id s && negb (TextShareRecord.is_deleted s))
    (text_shares db).

Definition incrementViewCount (id : string) (db : D1Database)
    : D1Database :=
  update_text_shares db
    (List.map (fun s =>
        if text_row_matches id s
        then TextShareRecord.with_view_count (TextShareRecord.view_count s + 1) s
        else s) (text_shares db)).

Definition deleteTextShare (id : string) (db : D1Database) : D1Database :=
  update_text_shares db
    (List.map (fun s =>
        if text_row_matches id s then TextShareRecord.with_is_deleted true s
        else s) (text_shares db)).

(** The rows that the WHERE clause of the clean-up selects. *)
Definition file_expired_live (now : Z) (f : FileRecord.t) : bool :=
  (FileRecord.expires_at f <? now) && negb (FileRecord.is_deleted f).

Definition text_expired_live (now : Z) (s : TextShareRecord.t) : bool :=
  (TextShareRecord.expires_at s <? now) && negb (TextShareRecord.is_deleted s).

(** Returns [result.meta.changes], the number of rows updated. *)
Definition cleanupExpiredFiles (now : Z) (db : D1Database)
    : Z * D1Database :=
  let changes :=
    Z.of_nat (List.length (List.filter (file_expired_live now) (files db))) in
  (changes,
   update_files db
     (List.map (fun f =>
         if file_expired_live now f then FileRecord.with_is_deleted true f
         else f) (files db))).

Definition cleanupExpiredTextShares (now : Z) (db : D1Database)
    : Z * D1Database :=
  let changes :=
    Z.of_nat (List.length
                (List.filter (text_expired_live now) (text_shares db))) in
  (changes,
   update_text_shares db
     (List.map (fun s =>
         if text_expired_live now s then TextShareRecord.with_is_deleted true s
         else s) (text_shares db))).

Inductive Accessibility :=
| accessible
| inaccessible (reason : string).

Definition isFileAccessible (file : FileRecord.t) (now : Z) : Accessibility :=
  if isExpired (FileRecord.expires_at file) now then inaccessible "expired"
  else if truthy_number (FileRecord.max_downloads file)
          && (default 0 (FileRecord.max_downloads file)
                <=? FileRecord.download_count file)
  then inaccessible "download_limit_reached"
  else accessible.

Definition isTextShareAccessible (textShare : TextShareRecord.t) (now : Z)
    : Accessibility :=
  if isExpired (TextShareRecord.expires_at textShare) now
  then inaccessible "expired"
  else if truthy_number (TextShareRecord.max_views textShare)
          && (default 0 (TextShareRecord.max_views textShare)
                <=? TextShareRecord.view_count textShare)
  then inaccessible "view_limit_reached"
  else accessible.

End DatabaseService.

(** ** services/storage.ts *)

(** An object of the bucket.  Its [size] is the length of its body. *)
Record R2Object := {
  key : string;
  body : list Z;
  customMetadata : list (string * string)
}.

(** The R2 bucket: its objects in the order in which [list] enumerates
    them, and whether the binding answers.  When it does not, every
    operation throws. *)
Record R2Bucket := {
  objects : list R2Object;
  available : bool
}.

Module StorageService.

Definition with_objects (bucket : R2Bucket) (objs : list R2Object) :=
  {| objects := objs; available := available bucket |}.

(** [bucket.put]: the object takes the place of one with the same key,
    or its place in the order of the keys. *)
Fixpoint put (o : R2Object) (objs : list R2Object) : list R2Object :=
  match objs with
  | [] => [o]
  | x :: rest =>
      match String.compare (key o) (key x) with
      | Lt => o :: objs
      | Eq => o :: rest
      | Gt => x :: put o rest
      end
  end.

Definition uploadFile (k : string) (data : list Z)
    (metadata : option (list (string * string))) (bucket : R2Bucket)
    : Result unit * R2Bucket :=
  if available bucket then
    let o := {| key := k; body := data;
                customMetadata := default [] metadata |} in
    (Ok tt, with_objects bucket (put o (objects bucket)))
  else (Throw, bucket).

Definition downloadFile (k : string) (bucket : R2Bucket)
    : Result (option R2Object) :=
  if available bucket
  then Ok (List.find (fun o => String.eqb (key o) k) (objects bucket))
  else Throw.

Definition deleteFile (k : string) (bucket : R2Bucket)
    : Result unit * R2Bucket :=
  if available bucket then
    (Ok tt,
     with_objects bucket
       (List.filter (fun o => negb (String.eqb (key o) k)) (objects bucket)))
  else (Throw, bucket).

(** [listFiles(prefix, limit)]: one page of at most [limit] objects.  R2
    takes a limit from 1 to 1000 and throws for any other. *)
Definition listFiles (prefix : option string) (limit : nat)
    (bucket : R2Bucket) : Result (list R2Object) :=
  if available bucket && Nat.leb 1 limit && Nat.leb limit 1000 then
    let selected :=
      if truthy_string prefix
      then List.filter (fun o => String.prefix (default "" prefix) (key o))
                       (objects bucket)
      else objects bucket in
    Ok (List.firstn limit selected)
  else Throw.

(** The body of the loop of [cleanupOrphanedFiles], for one listed
    object.  The state is the bucket and [deletedCount], or [Throw] once
    a deletion has thrown, which ends the loop. *)
Definition cleanup_step (validFileIds : list string)
    (st : R2Bucket * Result Z) (object : R2Object) : R2Bucket * Result Z :=
  match st with
  | (bucket, Throw) => (bucket, Throw)
  | (bucket, Ok deletedCount) =>
      let fileId := first_piece (split "." (key object)) in
      if negb (includes validFileIds fileId) then
        match deleteFile (key object) bucket with
        | (Ok _, bucket') => (bucket', Ok (deletedCount + 1))
        | (Throw, bucket') => (bucket', Throw)
        end
      else (bucket, Ok deletedCount)
  end.

Definition cleanupOrphanedFiles (validFileIds : list string)
    (bucket : R2Bucket) : Result Z * R2Bucket :=
  match listFiles None 1000 bucket with
  | Throw => (Throw, bucket)
  | Ok listed =>
      let (bucket', deletedCount) :=
        List.fold_left (cleanup_step validFileIds) listed (bucket, Ok 0) in
      (deletedCount, bucket')
  end.

(** [bucket.head]: the object without its body, or [null]. *)
Definition head (k : string) (bucket : R2Bucket) : Result (option R2Object) :=
  if available bucket
  then Ok (List.find (fun o => String.eqb (key o) k) (objects bucket))
  else Throw.

Definition fileExists (k : string) (bucket : R2Bucket) : Result bool :=
  match head k bucket with
  | Ok (Some _) => Ok true
  | Ok None => Ok false
  | Throw => Throw
  end.

Definition getFileMetadata (k : string) (bucket : R2Bucket)
    : Result (option R2Object) :=
  head k bucket.

(** Not implemented in the source: it throws whatever its arguments. *)
Definition generateUploadUrl (k : string) (expiresIn : Z) : Result string :=
  Throw.

(** [object.size] *)
Definition size (object : R2Object) : Z := Z.of_nat (List.length (body object)).

(** [getStorageStats]: the number and the total size of the objects of
    one page of the listing. *)
Definition getStorageStats (bucket : R2Bucket) : Result (Z * Z) :=
  match listFiles None 1000 bucket with
  | Throw => Throw
  | Ok listed =>
      Ok (List.fold_left
            (fun totals object =>
               (fst totals + 1, snd totals + size object))
            listed (0, 0))
  end.

End StorageService.

(** ** types/api.ts, types/env.ts and utils/response.ts *)

(** The environment, with [MAX_FILE_SIZE] and [MAX_EXPIRY_HOURS] as the
    integers that [parseInt] reads from them. *)
Record Env := {
  CORS_ORIGIN : string;
  MAX_FILE_SIZE : Z;
  MAX_EXPIRY_HOURS : Z
}.

Inductive ErrorCode :=
| VALIDATION_ERROR | FILE_NOT_FOUND | FILE_EXPIRED | DOWNLOAD_LIMIT_REACHED
| VIEW_LIMIT_REACHED | INVALID_PASSWORD | FILE_TOO_LARGE
| UNSUPPORTED_FILE_TYPE | RATE_LIMIT_EXCEEDED | INTERNAL_ERROR.

Module UploadResponse.
Record t := mk {
  id : string; filename : string; size : Z; expires_at : Z;
  download_url : string; has_password : bool
}.
End UploadResponse.

Module TextShareCreateResponse.
Record t := mk {
  id : string; title : option string; expires_at : Z;
  view_url : string; has_password : bool
}.
End TextShareCreateResponse.

Module FileInfoResponse.
Record t := mk {
  id : string; filename : string; original_filename : string;
  mime_type : string; size : Z; created_at : Z; expires_at : Z;
  download_count : Z; max_downloads : option Z; has_password : bool;
  is_expired : bool; is_download_limit_reached : bool
}.
End FileInfoResponse.

Module TextShareInfoResponse.
Record t := mk {
  id : string; title : option string; content : string; language : string;
  created_at : Z; expires_at : Z; view_count : Z; max_views : option Z;
  has_password : bool; is_expired : bool; is_view_limit_reached : bool
}.
End TextShareInfoResponse.

Inductive Payload :=
| UploadData (r : UploadResponse.t)
| TextShareCreateData (r : TextShareCreateResponse.t)
| FileInfoData (r : FileInfoResponse.t)
| TextShareInfoData (r : TextShareInfoResponse.t).

(** What a handler answers: a JSON envelope with its status, a file, a
    plain text, or a redirection. *)
Inductive Response :=
| JsonSuccess (status : Z) (data : Payload)
| JsonFailure (status : Z) (error : string)
| FileBody (data : list Z) (filename mimeType : string) (size : Z)
| TextBody (content : string) (mimeType : string)
| Redirect (location : string) (status : Z).

Definition successResponse (data : Payload) (status : Z) : Response :=
  JsonSuccess status data.

(** The envelope carries the message only: the code is not serialised. *)
Definition errorResponse (code : ErrorCode) (message : string) (status : Z)
    : Response :=
  JsonFailure status message.

(** A header value as [Headers] takes it.  The white space of HTTP (tab,
    line feed, carriage return, space) is stripped at both ends; a NUL, a
    line feed or a carriage return in what is left makes the constructor
    of the response throw a TypeError. *)
Definition http_whitespace (c : ascii) : bool :=
  existsb (Ascii.eqb c) [ "009"; "010"; "013"; " " ]%char.

Definition forbidden_in_header (c : ascii) : bool :=
  existsb (Ascii.eqb c) [ "000"; "010"; "013" ]%char.

Fixpoint strip_start (s : string) : string :=
  match s with
  | EmptyString => EmptyString
  | String c rest => if http_whitespace c then strip_start rest else s
  end.

Fixpoint strip_end (s : string) : string :=
  match s with
  | EmptyString => EmptyString
  | String c rest =>
      match strip_end rest with
      | EmptyString =>
          if http_whitespace c then EmptyString else String c EmptyString
      | kept => String c kept
      end
  end.

Definition valid_header_value (value : string) : bool :=
  forallb (fun c => negb (forbidden_in_header c))
          (list_ascii_of_string (strip_end (strip_start value))).

(** The value of the Content-Disposition header of a file response;
    034 is the double quote. *)
Definition content_disposition (filename : string) : string :=
  "attachment; filename="
  +:+ String "034" (filename +:+ String "034" EmptyString).

(** [fileResponse] builds a [Response] whose headers hold the type and
    the name of the file: [new Response] throws when one of them is not a
    valid header value.  The other headers are constants and the decimal
    text of the size.  [FileBody] keeps the arguments of the call. *)
Definition fileResponse (data : list Z) (filename mimeType : string)
    (size : Z) : Result Response :=
  if valid_header_value mimeType
     && valid_header_value (content_disposition filename)
  then Ok (FileBody data filename mimeType size)
  else Throw.

Definition textResponse (content : string) (mimeType : string) : Response :=
  TextBody content mimeType.

Definition status_of (r : Response) : Z :=
  match r with
  | JsonSuccess status _ => status
  | JsonFailure status _ => status
  | FileBody _ _ _ _ => 200
  | TextBody _ _ => 200
  | Redirect _ status => status
  end.

(** The two stores that the handlers and the scheduled job work on. *)
Record World := {
  db : D1Database;
  bucket : R2Bucket
}.

Definition with_db (w : World) (d : D1Database) : World :=
  {| db := d; bucket := bucket w |}.

Definition with_bucket (w : World) (b : R2Bucket) : World :=
  {| db := db w; bucket := b |}.

(** ** handlers/download.ts *)

(** The JSON body of a download or view request as the handler sees it:
    [c.req.json()] failed, or gave an object that the schema accepts, with
    or without a [password] string, or gave a value that the schema
    rejects. *)
Inductive RedeemBody :=
| BadJson
| Accepted (password : option jsstring)
| Rejected.

(** [c.req.json().catch(() => ({}))] followed by [safeParse]. *)
Definition parse_redeem_body (b : RedeemBody) : option (option jsstring) :=
  match b with
  | BadJson => Some None
  | Accepted password => Some password
  | Rejected => None
  end.

Definition frontendUrl (env : Env) : string :=
  if String.eqb (CORS_ORIGIN env) "*" then "http://localhost:3001"
  else CORS_ORIGIN env.

Module download.

Import DatabaseService.

(** GET /info/:id.  The clock is read by [isFileAccessible] ([now]) and
    again for [is_expired] ([now']). *)
Definition get_info (fileId : string) (now now' : Z) (w : World)
    : Response * World :=
  match getFile fileId (db w) with
  | None => (errorResponse FILE_NOT_FOUND "File not found" 404, w)
  | Some file =>
      let accessibility := isFileAccessible file now in
      let response :=
        FileInfoResponse.mk
          (FileRecord.id file)
          (FileRecord.filename file)
          (FileRecord.original_filename file)
          (FileRecord.mime_type file)
          (FileRecord.size file)
          (FileRecord.created_at file)
          (FileRecord.expires_at file)
          (FileRecord.download_count file)
          (FileRecord.max_downloads file)
          (truthy_string (FileRecord.password_hash file))
          (isExpired (FileRecord.expires_at file) now')
          (match accessibility with
           | accessible => false
           | inaccessible reason => String.eqb reason "download_limit_reached"
           end) in
      (successResponse (FileInfoData response) 200, w)
  end.

(** What both download routes do once the file is accessible and the
    password accepted: the blob is fetched, the counter is incremented,
    and then the response is built.  An exception at any of these steps
    is caught by the handler and answered 500; the increment, once made,
    stays. *)
Definition fetch_and_count (fileId : string) (file : FileRecord.t)
    (w : World) : Response * World :=
  let failed := errorResponse INTERNAL_ERROR "Failed to download file" 500 in
  match StorageService.downloadFile (FileRecord.filename file) (bucket w) with
  | Throw => (failed, w)
  | Ok None =>
      (errorResponse FILE_NOT_FOUND "File not found in storage" 404, w)
  | Ok (Some fileObject) =>
      let w' := with_db w (incrementDownloadCount fileId (db w)) in
      match fileResponse (body fileObject) (FileRecord.original_filename file)
                         (FileRecord.mime_type file) (FileRecord.size file) with
      | Ok response => (response, w')
      | Throw => (failed, w')
      end
  end.

(** POST /download/:id *)
Definition post_download (fileId : string) (reqBody : RedeemBody) (now : Z)
    (w : World) : Response * World :=
  match parse_redeem_body reqBody with
  | None =>
      (errorResponse VALIDATION_ERROR "Invalid request parameters" 400, w)
  | Some password =>
      match getFile fileId (db w) with
      | None => (errorResponse FILE_NOT_FOUND "File not found" 404, w)
      | Some file =>
          let check_password :=
            if truthy_string (FileRecord.password_hash file) then
              if negb (truthy_jsstring password) then
                (errorResponse INVALID_PASSWORD "Password required" 401, w)
              else if negb (verifyPassword (default [] password)
                              (default "" (FileRecord.password_hash file)))
              then (errorResponse INVALID_PASSWORD "Invalid password" 401, w)
              else fetch_and_count fileId file w
            else fetch_and_count fileId file w in
          match isFileAccessible file now with
          | inaccessible reason =>
              if String.eqb reason "expired" then
                (errorResponse FILE_EXPIRED "File has expired" 410, w)
              else if String.eqb reason "download_limit_reached" then
                (errorResponse DOWNLOAD_LIMIT_REACHED
                               "Download limit reached" 403, w)
              else check_password
          | accessible => check_password
          end
      end
  end.

(** GET /download/:id, with the password in the query string. *)
Definition get_download (env : Env) (fileId : string)
    (password : option jsstring) (now : Z) (w : World) : Response * World :=
  match getFile fileId (db w) with
  | None => (errorResponse FILE_NOT_FOUND "File not found" 404, w)
  | Some file =>
      let page := frontendUrl env +:+ "/download/" +:+ fileId in
      let check_password :=
        if truthy_string (FileRecord.password_hash file) then
          if negb (truthy_jsstring password) then (Redirect page 302, w)
          else if negb (verifyPassword (default [] password)
                          (default "" (FileRecord.password_hash file)))
          then (Redirect (page +:+ "?error=invalid_password") 302, w)
          else fetch_and_count fileId file w
        else fetch_and_count fileId file w in
      match isFileAccessible file now with
      | inaccessible reason =>
          if String.eqb reason "expired" then
            (Redirect (page +:+ "?error=expired") 302, w)
          else if String.eqb reason "download_limit_reached" then
            (Redirect (page +:+ "?error=download_limit_reached") 302, w)
          else check_password
      | accessible => check_password
      end
  end.

End download.

(** ** handlers/text.ts *)

(** The JSON body of a create request, with each field of the JSON type
    that the schema expects; numbers are integers. *)
Module CreateTextShareRequest.
Record t := mk {
  title : option string;
  content : string;
  language : option string;
  expiry_hours : option Z;
  max_views : option Z;
  password : option jsstring
}.
End CreateTextShareRequest.

Definition str_len (s : string) : Z := Z.of_nat (String.length s).

(** An optional field passes when it is absent or meets the bound. *)
Definition optional {A} (check : A -> bool) (o : option A) : bool :=
  match o with
  | Some a => check a
  | None => true
  end.

(** [createTextShareSchema.safeParse(body).success] *)
Definition createTextShareSchema (b : CreateTextShareRequest.t) : bool :=
  optional (fun t => str_len t <=? 200) (CreateTextShareRequest.title b)
  && (1 <=? str_len (CreateTextShareRequest.content b))
  && (str_len (CreateTextShareRequest.content b) <=? 1000000)
  && optional (fun l => str_len l <=? 50) (CreateTextShareRequest.language b)
  && optional (fun h => (1 <=? h) && (h <=? 168))
              (CreateTextShareRequest.expiry_hours b)
  && optional (fun m => 1 <=? m) (CreateTextShareRequest.max_views b)
  && optional (fun p => 1 <=? Z.of_nat (List.length p))
              (CreateTextShareRequest.password b).

Module text.

Import DatabaseService.

(** POST /create.  [reqBody] is [Throw] when the body is not JSON;
    [client_ip] is what [getClientIP] reads from the headers and
    [origin] the origin of the request's URL.  The clock is read for
    the expiry ([now]) and for [created_at] ([now']). *)
Definition post_create (env : Env)
    (reqBody : Result CreateTextShareRequest.t) (client_ip origin : string)
    (randomArray : nat -> Z) (now now' : Z) (w : World) : Response * World :=
  let failed :=
    errorResponse INTERNAL_ERROR "Failed to create text share" 500 in
  match reqBody with
  | Throw => (failed, w)
  | Ok b =>
      if negb (createTextShareSchema b) then
        (errorResponse VALIDATION_ERROR "Invalid request parameters" 400, w)
      else
        let language := default "text" (CreateTextShareRequest.language b) in
        let expiry_hours := default 24 (CreateTextShareRequest.expiry_hours b) in
        let password := CreateTextShareRequest.password b in
        let maxExpiryHours := MAX_EXPIRY_HOURS env in
        if negb (isValidExpiryHours expiry_hours maxExpiryHours) then
          (errorResponse VALIDATION_ERROR
             ("Expiry hours must be between 1 and " +:+ show maxExpiryHours)
             400, w)
        else
          let expiresAt := calculateExpiryDate expiry_hours now in
          let passwordHash :=
            if truthy_jsstring password
            then Some (hashPassword (default [] password))
            else None in
          let input :=
            CreateTextShareInput.mk
              (CreateTextShareRequest.title b)
              (CreateTextShareRequest.content b)
              (Some language)
              (Some client_ip)
              expiresAt
              (CreateTextShareRequest.max_views b)
              passwordHash in
          match createTextShare input randomArray now' (db w) with
          | (Throw, d) => (failed, with_db w d)
          | (Ok textShare, d) =>
              let response :=
                TextShareCreateResponse.mk
                  (TextShareRecord.id textShare)
                  (TextShareRecord.title textShare)
                  expiresAt
                  (origin +:+ "/api/text/view/" +:+ TextShareRecord.id textShare)
                  (truthy_jsstring password) in
              (successResponse (TextShareCreateData response) 201, with_db w d)
          end
  end.

(** GET /info/:id *)
Definition get_info (textShareId : string) (now now' : Z) (w : World)
    : Response * World :=
  match getTextShare textShareId (db w) with
  | None => (errorResponse FILE_NOT_FOUND "Text share not found" 404, w)
  | Some textShare =>
      let accessibility := isTextShareAccessible textShare now in
      let response :=
        TextShareInfoResponse.mk
          (TextShareRecord.id textShare)
          (TextShareRecord.title textShare)
          (TextShareRecord.content textShare)
          (TextShareRecord.language textShare)
          (TextShareRecord.created_at textShare)
          (TextShareRecord.expires_at textShare)
          (TextShareRecord.view_count textShare)
          (TextShareRecord.max_views textShare)
          (truthy_string (TextShareRecord.password_hash textShare))
          (isExpired (TextShareRecord.expires_at textShare) now')
          (match accessibility with
           | accessible => false
           | inaccessible reason => String.eqb reason "view_limit_reached"
           end) in
      (successResponse (TextShareInfoData response) 200, w)
  end.

(** What POST /view/:id does once the text share is accessible and the
    password accepted. *)
Definition count_and_show (textShareId : string)
    (textShare : TextShareRecord.t) (w : World) : Response * World :=
  let w' := with_db w (incrementViewCount textShareId (db w)) in
  let response :=
    TextShareInfoResponse.mk
      (TextShareRecord.id textShare)
      (TextShareRecord.title textShare)
      (TextShareRecord.content textShare)
      (TextShareRecord.language textShare)
      (TextShareRecord.created_at textShare)
      (TextShareRecord.expires_at textShare)
      (TextShareRecord.view_count textShare + 1)
      (TextShareRecord.max_views textShare)
      (truthy_string (TextShareRecord.password_hash textShare))
      false
      (if truthy_number (TextShareRecord.max_views textShare)
       then default 0 (TextShareRecord.max_views textShare)
              <=? TextShareRecord.view_count textShare + 1
       else false) in
  (successResponse (TextShareInfoData response) 200, w').

(** POST /view/:id *)
Definition post_view (textShareId : string) (reqBody : RedeemBody) (now : Z)
    (w : World) : Response * World :=
  match parse_redeem_body reqBody with
  | None =>
      (errorResponse VALIDATION_ERROR "Invalid request parameters" 400, w)
  | Some password =>
      match getTextShare textShareId (db w) with
      | None => (errorResponse FILE_NOT_FOUND "Text share not found" 404, w)
      | Some textShare =>
          let check_password :=
            if truthy_string (TextShareRecord.password_hash textShare) then
              if negb (truthy_jsstring password) then
                (errorResponse INVALID_PASSWORD "Password required" 401, w)
              else if negb (verifyPassword (default [] password)
                              (default "" (TextShareRecord.password_hash textShare)))
              then (errorResponse INVALID_PASSWORD "Invalid password" 401, w)
              else count_and_show textShareId textShare w
            else count_and_show textShareId textShare w in
          match isTextShareAccessible textShare now with
          | inaccessible reason =>
              if String.eqb reason "expired" then
                (errorResponse FILE_EXPIRED "Text share has expired" 410, w)
              else if String.eqb reason "view_limit_reached" then
                (errorResponse VIEW_LIMIT_REACHED "View limit reached" 403, w)
              else check_password
          | accessible => check_password
          end
      end
  end.

(** GET /view/:id, with the password in the query string. *)
Definition get_view (env : Env) (textShareId : string)
    (password : option jsstring) (now : Z) (w : World) : Response * World :=
  match getTextShare textShareId (db w) with
  | None => (errorResponse FILE_NOT_FOUND "Text share not found" 404, w)
  | Some textShare =>
      let page := frontendUrl env +:+ "/text/" +:+ textShareId in
      let grant :=
        (textResponse (TextShareRecord.content textShare) "text/plain",
         with_db w (incrementViewCount textShareId (db w))) in
      let check_password :=
        if truthy_string (TextShareRecord.password_hash textShare) then
          if negb (truthy_jsstring password) then (Redirect page 302, w)
          else if negb (verifyPassword (default [] password)
                          (default "" (TextShareRecord.password_hash textShare)))
          then (Redirect (page +:+ "?error=invalid_password") 302, w)
          else grant
        else grant in
      match isTextShareAccessible textShare now with
      | inaccessible reason =>
          if String.eqb reason "expired" then
            (Redirect (page +:+ "?error=expired") 302, w)
          else if String.eqb reason "view_limit_reached" then
            (Redirect (page +:+ "?error=view_limit_reached") 302, w)
          else check_password
      | accessible => check_password
      end
  end.

End text.

(** ** handlers/upload.ts *)

(** The [File] of the form: its [size] is the length of its bytes. *)
Module File.
Record t := mk {
  name : string;
  type : string;
  bytes : list Z
}.
Definition size (f : t) : Z := Z.of_nat (List.length (bytes f)).
End File.

(** A text field of the form, by what [Number] and [trim] make of it:
    missing, blank (empty once trimmed), a numeral of an integer, or a
    text that [Number] reads as NaN.  A text that [Number] reads as a
    fraction or as an infinity has no value here: forms with such a field
    are outside the model. *)
Inductive FormValue :=
| Missing
| Blank
| Numeral (n : Z)
| Other.

(** A JavaScript number: an integer or NaN. *)
Inductive number :=
| NaN
| Num (n : Z).

(** [Number(formData.get(...))]: 0 for [null] and for blank text, NaN for
    the texts of [Other]. *)
Definition Number (v : FormValue) : number :=
  match v with
  | Missing => Num 0
  | Blank => Num 0
  | Numeral n => Num n
  | Other => NaN
  end.

(** [x || d] for a number: NaN and 0 are falsy. *)
Definition number_or (x : number) (d : Z) : Z :=
  match x with
  | NaN => d
  | Num n => if n =? 0 then d else n
  end.

(** The white space and line terminators that [trim] removes. *)
Definition trimmed_unit (u : Z) : bool :=
  existsb (Z.eqb u)
    [9; 10; 11; 12; 13; 32; 160; 5760; 8232; 8233; 8239; 8287; 12288; 65279]
  || ((8192 <=? u) && (u <=? 8202)).

(** [s.trim() !== ''] *)
Definition not_blank (s : jsstring) : bool := negb (forallb trimmed_unit s).

Module UploadForm.
Record t := mk {
  file : option File.t;
  expiry_hours : FormValue;
  max_downloads : FormValue;
  password : option jsstring
}.
End UploadForm.

(** [uploadFileSchema.safeParse(requestData).success]: a number field
    rejects NaN. *)
Definition uploadFileSchema (expiry_hours : Z) (max_downloads : option number)
    (password : option jsstring) : bool :=
  (1 <=? expiry_hours) && (expiry_hours <=? 168)
  && optional (fun m => match m with NaN => false | Num n => 1 <=? n end)
              max_downloads
  && optional (fun p => 1 <=? Z.of_nat (List.length p)) password.

Module upload.

Import DatabaseService.

(** The parameters that the handler reads from the form. *)
Definition expiryHours (form : UploadForm.t) : Z :=
  number_or (Number (UploadForm.expiry_hours form)) 24.

Definition maxDownloads (form : UploadForm.t) : option number :=
  match UploadForm.max_downloads form with
  | Missing | Blank => None
  | v => Some (Number v)
  end.

Definition password (form : UploadForm.t) : option jsstring :=
  match UploadForm.password form with
  | Some p => if truthy_jsstring (Some p) && not_blank p then Some p else None
  | None => None
  end.

(** POST /upload.  [formData] is [Throw] when the body is not a form;
    [client_ip] and [origin] are as for the text handler; [nameRandom]
    and [idRandom] are the random bytes drawn for the storage name and
    for the record id.  The clock is read for the expiry ([now]) and for
    [created_at] ([now']).  The issues of the schema, which the handler
    appends to the message of a rejected form, are left out of the
    message. *)
Definition post_upload (env : Env) (formData : Result UploadForm.t)
    (client_ip origin : string) (nameRandom idRandom : nat -> Z)
    (now now' : Z) (w : World) : Response * World :=
  let failed := errorResponse INTERNAL_ERROR "Failed to upload file" 500 in
  match formData with
  | Throw => (failed, w)
  | Ok form =>
      match UploadForm.file form with
      | None => (errorResponse VALIDATION_ERROR "No file provided" 400, w)
      | Some file =>
          let expiryHours := expiryHours form in
          let maxDownloads := maxDownloads form in
          let password := password form in
          if negb (uploadFileSchema expiryHours maxDownloads password) then
            (errorResponse VALIDATION_ERROR "Invalid request parameters" 400, w)
          else
            let maxFileSize := MAX_FILE_SIZE env in
            let maxExpiryHours := MAX_EXPIRY_HOURS env in
            if negb (isValidFileSize (File.size file) maxFileSize) then
              (errorResponse FILE_TOO_LARGE
                 ("File size exceeds maximum allowed size of "
                    +:+ show maxFileSize +:+ " bytes") 400, w)
            else if negb (isAllowedFileType (File.type file)) then
              (errorResponse UNSUPPORTED_FILE_TYPE
                 ("File type " +:+ File.type file +:+ " is not supported")
                 400, w)
            else if negb (isValidExpiryHours expiryHours maxExpiryHours) then
              (errorResponse VALIDATION_ERROR
                 ("Expiry hours must be between 1 and " +:+ show maxExpiryHours)
                 400, w)
            else
              let originalFilename := sanitizeFilename (File.name file) in
              let secureFilename :=
                generateSecureFilename originalFilename nameRandom in
              let fileBuffer := File.bytes file in
              let expiresAt := calculateExpiryDate expiryHours now in
              let passwordHash :=
                match password with
                | Some p => Some (hashPassword p)
                | None => None
                end in
              let input :=
                CreateFileInput.mk secureFilename originalFilename
                  (File.type file) (File.size file) (Some client_ip)
                  expiresAt
                  (match maxDownloads with
                   | Some (Num n) => Some n
                   | _ => None
                   end)
                  passwordHash in
              match createFile input idRandom now' (db w) with
              | (Throw, d) => (failed, with_db w d)
              | (Ok fileRecord, d) =>
                  let w1 := with_db w d in
                  let metadata :=
                    [ ("original-filename", originalFilename);
                      ("mime-type", File.type file);
                      ("upload-ip", client_ip);
                      ("file-id", FileRecord.id fileRecord) ] in
                  match StorageService.uploadFile secureFilename fileBuffer
                          (Some metadata) (bucket w1) with
                  | (Throw, b) => (failed, with_bucket w1 b)
                  | (Ok _, b) =>
                      let response :=
                        UploadResponse.mk
                          (FileRecord.id fileRecord)
                          originalFilename
                          (File.size file)
                          expiresAt
                          (origin +:+ "/api/download/" +:+ FileRecord.id fileRecord)
                          (truthy_jsstring password) in
                      (successResponse (UploadData response) 201,
                       with_bucket w1 b)
                  end
              end
      end
  end.

End upload.

(** ** index.ts: the scheduled job *)

(** [SELECT id FROM files WHERE is_deleted = FALSE], then [map(f => f.id)]. *)
Definition select_valid_file_ids (d : D1Database) : list string :=
  List.map FileRecord.id
    (List.filter (fun f => negb (FileRecord.is_deleted f)) (files d)).

(** [scheduled(event, env, ctx)]: [cron] is [event.cron]; the clock is read
    by each of the two clean-ups.  An error is caught and logged: what was
    done before it stays done. *)
Definition scheduled (cron : string) (now now' : Z) (w : World) : World :=
  let (expiredFiles, d1) := DatabaseService.cleanupExpiredFiles now (db w) in
  let (expiredTextShares, d2) :=
    DatabaseService.cleanupExpiredTextShares now' d1 in
  let w2 := with_db w d2 in
  if String.eqb cron "0 2 * * *" then
    let validFileIds := select_valid_file_ids d2 in
    let (orphanedFiles, b) :=
      StorageService.cleanupOrphanedFiles validFileIds (bucket w2) in
    with_bucket w2 b
  else w2.

(** * The vocabulary of the properties *)

(** ** Bytes and hexadecimal digits *)

Definition is_byte (b : Z) : Prop := 0 <= b < 256.

(** The value of a hexadecimal digit, the inverse of [hex_digit]. *)
Definition hex_value (c : ascii) : Z :=
  let n := Z.of_N (N_of_ascii c) in
  if n <? 58 then n - 48 else n - 87.

(** ** Histories of the database *)

(** The operations of [DatabaseService] that write to the database. *)
Inductive db_op :=
| CreateFile (input : CreateFileInput.t) (randomArray : nat -> Z) (now : Z)
| IncrementDownloadCount (id : string)
| DeleteFile (id : string)
| CleanupExpiredFiles (now : Z)
| CreateTextShare (input : CreateTextShareInput.t) (randomArray : nat -> Z)
    (now : Z)
| IncrementViewCount (id : string)
| DeleteTextShare (id : string)
| CleanupExpiredTextShares (now : Z).

(** The database after one operation; a thrown INSERT leaves it as it
    was. *)
Definition run_op (d : D1Database) (op : db_op) : D1Database :=
  match op with
  | CreateFile input randomArray now =>
      snd (DatabaseService.createFile input randomArray now d)
  | IncrementDownloadCount id => DatabaseService.incrementDownloadCount id d
  | DeleteFile id => DatabaseService.deleteFile id d
  | CleanupExpiredFiles now => snd (DatabaseService.cleanupExpiredFiles now d)
  | CreateTextShare input randomArray now =>
      snd (DatabaseService.createTextShare input randomArray now d)
  | IncrementViewCount id => DatabaseService.incrementViewCount id d
  | DeleteTextShare id => DatabaseService.deleteTextShare id d
  | CleanupExpiredTextShares now =>
      snd (DatabaseService.cleanupExpiredTextShares now d)
  end.

Definition run_ops (ops : list db_op) (d : D1Database) : D1Database :=
  List.fold_left run_op ops d.

(** Some row has the id, and every row that has it is deleted. *)
Definition file_hidden (id : string) (d : D1Database) : Prop :=
  existsb (DatabaseService.file_row_matches id) (files d) = true
  /\ Forall (fun f => DatabaseService.file_row_matches id f = true
                      -> FileRecord.is_deleted f = true) (files d).

Definition text_hidden (id : string) (d : D1Database) : Prop :=
  existsb (DatabaseService.text_row_matches id) (text_shares d) = true
  /\ Forall (fun s => DatabaseService.text_row_matches id s = true
                      -> TextShareRecord.is_deleted s = true) (text_shares d).

(** ** The accessibility policy *)

(** The decision of the accessibility policy, in the words of the
    specification: the checks are tried in order and the first that
    matches gives the reason of the denial. *)
Module Policy.

Inductive Reason :=
| EXPIRED | USAGE_LIMIT_REACHED | PASSWORD_REQUIRED | PASSWORD_INVALID.

Inductive Decision :=
| ALLOW
| DENY (reason : Reason).

Fixpoint first_match (checks : list (bool * Reason)) : Decision :=
  match checks with
  | [] => ALLOW
  | (matches, reason) :: rest =>
      if matches then DENY reason else first_match rest
  end.

(** Expiry, then usage limit, then password required, then password
    invalid, with the conditions that the code tests. *)
Definition file_checks (file : FileRecord.t) (now : Z)
    (password : option jsstring) : list (bool * Reason) :=
  [ (isExpired (FileRecord.expires_at file) now, EXPIRED);
    (truthy_number (FileRecord.max_downloads file)
     && (default 0 (FileRecord.max_downloads file)
           <=? FileRecord.download_count file), USAGE_LIMIT_REACHED);
    (truthy_string (FileRecord.password_hash file)
     && negb (truthy_jsstring password), PASSWORD_REQUIRED);
    (truthy_string (FileRecord.password_hash file)
     && negb (verifyPassword (default [] password)
                (default "" (FileRecord.password_hash file))),
     PASSWORD_INVALID) ].

Definition text_checks (textShare : TextShareRecord.t) (now : Z)
    (password : option jsstring) : list (bool * Reason) :=
  [ (isExpired (TextShareRecord.expires_at textShare) now, EXPIRED);
    (truthy_number (TextShareRecord.max_views textShare)
     && (default 0 (TextShareRecord.max_views textShare)
           <=? TextShareRecord.view_count textShare), USAGE_LIMIT_REACHED);
    (truthy_string (TextShareRecord.password_hash textShare)
     && negb (truthy_jsstring password), PASSWORD_REQUIRED);
    (truthy_string (TextShareRecord.password_hash textShare)
     && negb (verifyPassword (default [] password)
                (default "" (TextShareRecord.password_hash textShare))),
     PASSWORD_INVALID) ].

(** How POST /download/:id and POST /view/:id answer each denial. *)
Definition download_denial (reason : Reason) : Response :=
  match reason with
  | EXPIRED => errorResponse FILE_EXPIRED "File has expired" 410
  | USAGE_LIMIT_REACHED =>
      errorResponse DOWNLOAD_LIMIT_REACHED "Download limit reached" 403
  | PASSWORD_REQUIRED => errorResponse INVALID_PASSWORD "Password required" 401
  | PASSWORD_INVALID => errorResponse INVALID_PASSWORD "Invalid password" 401
  end.

Definition view_denial (reason : Reason) : Response :=
  match reason with
  | EXPIRED => errorResponse FILE_EXPIRED "Text share has expired" 410
  | USAGE_LIMIT_REACHED =>
      errorResponse VIEW_LIMIT_REACHED "View limit reached" 403
  | PASSWORD_REQUIRED => errorResponse INVALID_PASSWORD "Password required" 401
  | PASSWORD_INVALID => errorResponse INVALID_PASSWORD "Invalid password" 401
  end.

End Policy.

(** ** Counters and grants *)

(** The counter that readers of an id see, if the id is found. *)
Definition download_count_of (id : string) (d : D1Database) : option Z :=
  option_map FileRecord.download_count (DatabaseService.getFile id d).

Definition view_count_of (id : string) (d : D1Database) : option Z :=
  option_map TextShareRecord.view_count (DatabaseService.getTextShare id d).

(** The responses that carry the content. *)
Definition is_file (r : Response) : bool :=
  match r with
  | FileBody _ _ _ _ => true
  | _ => false
  end.

Definition is_text_share (r : Response) : bool :=
  match r with
  | JsonSuccess _ (TextShareInfoData _) => true
  | _ => false
  end.

(** The direct links (GET /download/:id and GET /view/:id) decide by the
    same first match and answer a denial by redirecting to the page of
    the front end. *)
Definition download_redirect (env : Env) (fileId : string)
    (reason : Policy.Reason) : Response :=
  let page := frontendUrl env +:+ "/download/" +:+ fileId in
  match reason with
  | Policy.EXPIRED => Redirect (page +:+ "?error=expired") 302
  | Policy.USAGE_LIMIT_REACHED =>
      Redirect (page +:+ "?error=download_limit_reached") 302
  | Policy.PASSWORD_REQUIRED => Redirect page 302
  | Policy.PASSWORD_INVALID => Redirect (page +:+ "?error=invalid_password") 302
  end.

Definition view_redirect (env : Env) (textShareId : string)
    (reason : Policy.Reason) : Response :=
  let page := frontendUrl env +:+ "/text/" +:+ textShareId in
  match reason with
  | Policy.EXPIRED => Redirect (page +:+ "?error=expired") 302
  | Policy.USAGE_LIMIT_REACHED =>
      Redirect (page +:+ "?error=view_limit_reached") 302
  | Policy.PASSWORD_REQUIRED => Redirect page 302
  | Policy.PASSWORD_INVALID => Redirect (page +:+ "?error=invalid_password") 302
  end.

Definition is_text (r : Response) : bool :=
  match r with
  | TextBody _ _ => true
  | _ => false
  end.

(** A sequence of POST /download/:id requests for one id, each with its
    body and the instant at which it is served. *)
Fixpoint run_downloads (fileId : string) (attempts : list (RedeemBody * Z))
    (w : World) : list Response * World :=
  match attempts with
  | [] => ([], w)
  | (reqBody, now) :: rest =>
      let (r, w1) := download.post_download fileId reqBody now w in
      let (rs, w2) := run_downloads fileId rest w1 in
      (r :: rs, w2)
  end.

(** The password check of the handlers, as one condition. *)
Definition password_accepted (hash : option string)
    (password : option jsstring) : bool :=
  negb (truthy_string hash)
  || (truthy_jsstring password
      && verifyPassword (default [] password) (default "" hash)).

(** An attempt that is made before the expiry with a body that the
    schema accepts and a password that the file accepts: of the checks
    of the policy only the usage limit can deny it. *)
Definition would_pass (file : FileRecord.t) (attempt : RedeemBody * Z) : bool :=
  match parse_redeem_body (fst attempt) with
  | None => false
  | Some password =>
      negb (isExpired (FileRecord.expires_at file) (snd attempt))
      && password_accepted (FileRecord.password_hash file) password
  end.

(** The state of a run of downloads of [fileId]: the record is found
    with [count] downloads and the fields of [file] otherwise, and the
    bucket is [blobs]. *)
Definition at_count (fileId : string) (file : FileRecord.t) (blobs : R2Bucket)
    (count : Z) (w : World) : Prop :=
  DatabaseService.getFile fileId (db w)
  = Some (FileRecord.with_download_count count file)
  /\ bucket w = blobs.

(** The number of attempts that would pass, in a list. *)
Definition passing (file : FileRecord.t) (attempts : list (RedeemBody * Z))
    : Z :=
  Z.of_nat (List.length (List.filter (would_pass file) attempts)).

(** The same for a sequence of POST /view/:id requests. *)
Fixpoint run_views (textShareId : string) (attempts : list (RedeemBody * Z))
    (w : World) : list Response * World :=
  match attempts with
  | [] => ([], w)
  | (reqBody, now) :: rest =>
      let (r, w1) := text.post_view textShareId reqBody now w in
      let (rs, w2) := run_views textShareId rest w1 in
      (r :: rs, w2)
  end.

Definition would_pass_view (textShare : TextShareRecord.t)
    (attempt : RedeemBody * Z) : bool :=
  match parse_redeem_body (fst attempt) with
  | None => false
  | Some password =>
      negb (isExpired (TextShareRecord.expires_at textShare) (snd attempt))
      && password_accepted (TextShareRecord.password_hash textShare) password
  end.

Definition at_views (textShareId : string) (textShare : TextShareRecord.t)
    (count : Z) (w : World) : Prop :=
  DatabaseService.getTextShare textShareId (db w)
  = Some (TextShareRecord.with_view_count count textShare).

Definition passing_views (textShare : TextShareRecord.t)
    (attempts : list (RedeemBody * Z)) : Z :=
  Z.of_nat (List.length (List.filter (would_pass_view textShare) attempts)).

(** ** Storage keys *)

(** What [cleanupOrphanedFiles] takes for the id of a stored object. *)
Definition stem (k : string) : string := first_piece (split "." k).

(** A listed object that the sweep deletes. *)
Definition swept (validFileIds : list string) (object : R2Object) : bool :=
  negb (includes validFileIds (stem (key object))).

(** No character of [s] is a dot. *)
Definition no_dot (s : string) : bool :=
  forallb (fun c => negb (Ascii.eqb c ".")) (list_ascii_of_string s).

(** ** The worlds of the scenarios *)

Definition example_env : Env :=
  {| CORS_ORIGIN := "*"; MAX_FILE_SIZE := 10485760; MAX_EXPIRY_HOURS := 168 |}.

Definition empty_world : World :=
  {| db := {| files := []; text_shares := [] |};
     bucket := {| objects := []; available := true |} |}.

(** A two-byte text file, and the random bytes that make the storage name
    [ABCDEFGHIJKLMNOP] and the record id [abcdefghijkl]. *)
Definition example_file : File.t := File.mk "notes.txt" "text/plain" [104; 105].
Definition name_bytes (i : nat) : Z := Z.of_nat i.
Definition id_bytes (i : nat) : Z := Z.of_nat i + 26.

(** The world after an upload at instant 0 of [example_file] for 24 hours
    with at most two downloads and no password. *)
Definition uploaded_world : World :=
  snd (upload.post_upload example_env
         (Ok (UploadForm.mk (Some example_file) (Numeral 24) (Numeral 2) None))
         "203.0.113.9" "https://share.example" name_bytes id_bytes 0 0
         empty_world).

(** The record and the blob of that upload. *)
Definition uploaded_record : FileRecord.t :=
  FileRecord.mk "abcdefghijkl" "ABCDEFGHIJKLMNOP.txt" "notes.txt" "text/plain"
    2 (Some "203.0.113.9") 0 86400000 0 (Some 2) None false.

Definition uploaded_object : R2Object :=
  {| key := "ABCDEFGHIJKLMNOP.txt"; body := [104; 105];
     customMetadata :=
       [ ("original-filename", "notes.txt"); ("mime-type", "text/plain");
         ("upload-ip", "203.0.113.9"); ("file-id", "abcdefghijkl") ] |}.

(** The same world with one more blob that no record refers to. *)
Definition world_with_orphan : World :=
  with_bucket uploaded_world
    (snd (StorageService.uploadFile "ZZZZZZZZZZZZZZZZ.bin" [1; 2; 3] None
            (bucket uploaded_world))).

(** The world after the creation at instant 0 of a text share protected
    by the password [secret123]. *)
Definition example_text : CreateTextShareRequest.t :=
  CreateTextShareRequest.mk (Some "plan") "the launch code" None (Some 24)
    None (Some (js "secret123")).

Definition text_world : World :=
  snd (text.post_create example_env (Ok example_text) "203.0.113.9"
         "https://share.example" id_bytes 0 0 empty_world).

(** The world after an upload for one hour with the password
    [secret123], and after the creation of a text share with at most two
    views. *)
Definition protected_world : World :=
  snd (upload.post_upload example_env
         (Ok (UploadForm.mk (Some example_file) (Numeral 1) Missing
                (Some (js "secret123"))))
         "203.0.113.9" "https://share.example" name_bytes id_bytes 0 0
         empty_world).

Definition limited_text_world : World :=
  snd (text.post_create example_env
         (Ok (CreateTextShareRequest.mk None "hello" None (Some 24) (Some 2)
                None))
         "203.0.113.9" "https://share.example" id_bytes 0 0 empty_world).

(** ** Characters *)

Definition code (c : ascii) : Z := Z.of_N (N_of_ascii c).

(** A letter or a digit. *)
Definition alphanumeric (c : ascii) : bool :=
  ((65 <=? code c) && (code c <=? 90))
  || ((97 <=? code c) && (code c <=? 122))
  || ((48 <=? code c) && (code c <=? 57)).

(** A digit or a letter from a to f. *)
Definition hex_char (c : ascii) : bool :=
  ((48 <=? code c) && (code c <=? 57)) || ((97 <=? code c) && (code c <=? 102)).

(** A character that [sanitizeFilename] leaves in place. *)
Definition safe_char (c : ascii) : bool :=
  negb (unsafe_char c) && negb (space_char c).

Definition all_chars (p : ascii -> bool) (s : string) : bool :=
  forallb p (list_ascii_of_string s).

(** The values that a byte of the random array can take. *)
Definition byte_values : list Z := List.map Z.of_nat (List.seq 0 256).

(** How many byte values [generateId] turns into the character [c]. *)
Definition byte_values_for (c : ascii) : nat :=
  List.length (List.filter (fun b => Ascii.eqb (pick_char b) c) byte_values).

(** The total size of a list of objects. *)
Definition total_size (objs : list R2Object) : Z :=
  List.fold_right Z.add 0 (List.map StorageService.size objs).

(** The objects whose stem is one of the valid ids. *)
Definition with_valid_stem (validFileIds : list string)
    (objs : list R2Object) : list R2Object :=
  List.filter (fun o => includes validFileIds (stem (key o))) objs.

(** ** Rows over time *)

(** A later state [f'] of the row [f]: the same in every column but the
    counter, which has not gone down, and the deletion flag, which has
    not been cleared. *)
Definition file_evolves (f f' : FileRecord.t) : Prop :=
  FileRecord.id f' = FileRecord.id f
  /\ FileRecord.filename f' = FileRecord.filename f
  /\ FileRecord.original_filename f' = FileRecord.original_filename f
  /\ FileRecord.mime_type f' = FileRecord.mime_type f
  /\ FileRecord.size f' = FileRecord.size f
  /\ FileRecord.upload_ip f' = FileRecord.upload_ip f
  /\ FileRecord.created_at f' = FileRecord.created_at f
  /\ FileRecord.expires_at f' = FileRecord.expires_at f
  /\ FileRecord.max_downloads f' = FileRecord.max_downloads f
  /\ FileRecord.password_hash f' = FileRecord.password_hash f
  /\ FileRecord.download_count f <= FileRecord.download_count f'
  /\ (FileRecord.is_deleted f = true -> FileRecord.is_deleted f' = true).

Definition text_evolves (s s' : TextShareRecord.t) : Prop :=
  TextShareRecord.id s' = TextShareRecord.id s
  /\ TextShareRecord.title s' = TextShareRecord.title s
  /\ TextShareRecord.content s' = TextShareRecord.content s
  /\ TextShareRecord.language s' = TextShareRecord.language s
  /\ TextShareRecord.upload_ip s' = TextShareRecord.upload_ip s
  /\ TextShareRecord.created_at s' = TextShareRecord.created_at s
  /\ TextShareRecord.expires_at s' = TextShareRecord.expires_at s
  /\ TextShareRecord.max_views s' = TextShareRecord.max_views s
  /\ TextShareRecord.password_hash s' = TextShareRecord.password_hash s
  /\ TextShareRecord.view_count s <= TextShareRecord.view_count s'
  /\ (TextShareRecord.is_deleted s = true -> TextShareRecord.is_deleted s' = true).

(** The row that [createFile] inserts for an input, an id and an
    instant. *)
Definition inserted_file (input : CreateFileInput.t) (id : string) (now : Z)
    : FileRecord.t :=
  FileRecord.mk id
    (CreateFileInput.filename input)
    (CreateFileInput.original_filename input)
    (CreateFileInput.mime_type input)
    (CreateFileInput.size input)
    (string_or_null (CreateFileInput.upload_ip input))
    now
    (CreateFileInput.expires_at input)
    0
    (number_or_null (CreateFileInput.max_downloads input))
    (string_or_null (CreateFileInput.password input))
    false.

(** The primary keys of the two tables. *)
Definition file_ids (d : D1Database) : list string :=
  List.map FileRecord.id (files d).

Definition text_ids (d : D1Database) : list string :=
  List.map TextShareRecord.id (text_shares d).

(** The rows after some writes: the rows before, each in a later state,
    followed by the rows inserted since. *)
Definition files_extend (before after : list FileRecord.t) : Prop :=
  exists later added,
    after = later ++ added /\ Forall2 file_evolves before later.

Definition texts_extend (before after : list TextShareRecord.t) : Prop :=
  exists later added,
    after = later ++ added /\ Forall2 text_evolves before later.

(** The rows that are not marked as deleted. *)
Definition live_files (d : D1Database) : list FileRecord.t :=
  List.filter (fun f => negb (FileRecord.is_deleted f)) (files d).

Definition live_text_shares (d : D1Database) : list TextShareRecord.t :=
  List.filter (fun s => negb (TextShareRecord.is_deleted s)) (text_shares d).

(** ** Uploads *)

(** What the upload handler passes to [createFile] and to [uploadFile]
    for a form that it accepts. *)
Definition upload_input (form : UploadForm.t) (file : File.t)
    (client_ip : string) (nameRandom : nat -> Z) (now : Z)
    : CreateFileInput.t :=
  CreateFileInput.mk
    (generateSecureFilename (sanitizeFilename (File.name file)) nameRandom)
    (sanitizeFilename (File.name file))
    (File.type file) (File.size file) (Some client_ip)
    (calculateExpiryDate (upload.expiryHours form) now)
    (match upload.maxDownloads form with
     | Some (Num n) => Some n
     | _ => None
     end)
    (match upload.password form with
     | Some p => Some (hashPassword p)
     | None => None
     end).

Definition upload_object (file : File.t) (client_ip : string)
    (nameRandom idRandom : nat -> Z) : R2Object :=
  {| key := generateSecureFilename (sanitizeFilename (File.name file))
              nameRandom;
     body := File.bytes file;
     customMetadata :=
       [ ("original-filename", sanitizeFilename (File.name file));
         ("mime-type", File.type file);
         ("upload-ip", client_ip);
         ("file-id", generateId 12 idRandom) ] |}.

(** The four validations of the upload handler, in one condition. *)
Definition upload_accepted (env : Env) (form : UploadForm.t) (file : File.t)
    : bool :=
  uploadFileSchema (upload.expiryHours form) (upload.maxDownloads form)
                   (upload.password form)
  && isValidFileSize (File.size file) (MAX_FILE_SIZE env)
  && isAllowedFileType (File.type file)
  && isValidExpiryHours (upload.expiryHours form) (MAX_EXPIRY_HOURS env).

(** The form of the upload of [uploaded_world], and a world whose bucket
    does not answer. *)
Definition example_form : UploadForm.t :=
  UploadForm.mk (Some example_file) (Numeral 24) (Numeral 2) None.

Definition offline_world : World :=
  with_bucket empty_world {| objects := []; available := false |}.

(** ** Text shares *)

(** What the text handler passes to [createTextShare] for a body that it
    accepts, and the row that [createTextShare] inserts for an input, an
    id and an instant. *)
Definition create_input (b : CreateTextShareRequest.t) (client_ip : string)
    (now : Z) : CreateTextShareInput.t :=
  CreateTextShareInput.mk
    (CreateTextShareRequest.title b)
    (CreateTextShareRequest.content b)
    (Some (default "text" (CreateTextShareRequest.language b)))
    (Some client_ip)
    (calculateExpiryDate
       (default 24 (CreateTextShareRequest.expiry_hours b)) now)
    (CreateTextShareRequest.max_views b)
    (if truthy_jsstring (CreateTextShareRequest.password b)
     then Some (hashPassword (default [] (CreateTextShareRequest.password b)))
     else None).

Definition inserted_text (input : CreateTextShareInput.t) (id : string)
    (now : Z) : TextShareRecord.t :=
  TextShareRecord.mk id
    (string_or_null (CreateTextShareInput.title input))
    (CreateTextShareInput.content input)
    (if truthy_string (CreateTextShareInput.language input)
     then default "text" (CreateTextShareInput.language input)
     else "text")
    (string_or_null (CreateTextShareInput.upload_ip input))
    now
    (CreateTextShareInput.expires_at input)
    0
    (number_or_null (CreateTextShareInput.max_views input))
    (string_or_null (CreateTextShareInput.password input))
    false.

(** The two validations of the text handler, in one condition. *)
Definition create_accepted (env : Env) (b : CreateTextShareRequest.t) : bool :=
  createTextShareSchema b
  && isValidExpiryHours (default 24 (CreateTextShareRequest.expiry_hours b))
       (MAX_EXPIRY_HOURS env).

(** ** Requests by either route *)

(** A request for a file: a POST with a body, or the direct link with
    the password of its query string. *)
Inductive DownloadRequest :=
| ByPost (reqBody : RedeemBody)
| ByLink (password : option jsstring).

(** The body that carries the password of a request. *)
Definition as_post (request : DownloadRequest) : RedeemBody :=
  match request with
  | ByPost reqBody => reqBody
  | ByLink password => Accepted password
  end.

Definition as_posts (requests : list (DownloadRequest * Z))
    : list (RedeemBody * Z) :=
  List.map (fun request => (as_post (fst request), snd request)) requests.

Definition serve_download (env : Env) (fileId : string)
    (request : DownloadRequest) (now : Z) (w : World) : Response * World :=
  match request with
  | ByPost reqBody => download.post_download fileId reqBody now w
  | ByLink password => download.get_download env fileId password now w
  end.

(** A sequence of requests for one id, each with the instant at which it
    is served. *)
Fixpoint run_requests (env : Env) (fileId : string)
    (requests : list (DownloadRequest * Z)) (w : World)
    : list Response * World :=
  match requests with
  | [] => ([], w)
  | (request, now) :: rest =>
      let (r, w1) := serve_download env fileId request now w in
      let (rs, w2) := run_requests env fileId rest w1 in
      (r :: rs, w2)
  end.

(** No character of [s] is [c]. *)
Definition without (c : ascii) (s : string) : bool :=
  forallb (fun a => negb (Ascii.eqb a c)) (list_ascii_of_string s).

(** ** Records that cannot be served *)

(** The type and the name of the record are valid header values, so that
    [fileResponse] can be built for it. *)
Definition servable (file : FileRecord.t) : bool :=
  valid_header_value (FileRecord.mime_type file)
  && valid_header_value
       (content_disposition (FileRecord.original_filename file)).





(** The upload of a file whose expiry field is the numeral 0. *)
Definition zero_hours_form : UploadForm.t :=
  UploadForm.mk (Some example_file) (Numeral 0) Missing None.

(** * Properties *)

(** ** The digest on the standard test vectors, and the unit tests of
    utils.test.ts that do not depend on the clock *)

Example sha256_empty :
  hex (SHA256.digest []) =
  "e3b0c44298fc1c149afbf4c8996fb92427ae41e4649b934ca495991b7852b855".
Proof. vm_compute. reflexivity. Qed.

Example sha256_abc :
  hashPassword (js "abc") =
  "ba7816bf8f01cfea414140de5dae2223b00361a396177a9cb410ff61f20015ad".
Proof. vm_compute. reflexivity. Qed.

Example sha256_two_blocks :
  hex (SHA256.digest (js "abcdbcdecdefdefgefghfghighijhijkijkljklmklmnlmnomnopnopq")) =
  "248d6a61d20638b8e5c026930c3e6039a33ce45964ff2167f6ecedd419db06c1".
Proof. vm_compute. reflexivity. Qed.

Example test_hash_and_verify :
  String.length (hashPassword (js "testpassword123")) = 64%nat
  /\ verifyPassword (js "testpassword123") (hashPassword (js "testpassword123"))
     = true
  /\ verifyPassword (js "wrongpassword") (hashPassword (js "testpassword123"))
     = false.
Proof. vm_compute. repeat split. Qed.

Example test_secure_filename_with_extension (randomArray : nat -> Z) :
  generateSecureFilename "test.txt" randomArray
  = generateId 16 randomArray +:+ ".txt".
Proof. reflexivity. Qed.

Example test_secure_filename_empty (randomArray : nat -> Z) :
  generateSecureFilename "" randomArray = generateId 16 randomArray.
Proof. reflexivity. Qed.

Example test_sanitize :
  sanitizeFilename "test<>file.txt" = "test__file.txt"
  /\ sanitizeFilename "test file.txt" = "test_file.txt"
  /\ sanitizeFilename "normal-file.txt" = "normal-file.txt"
  /\ sanitizeFilename "" = "".
Proof. vm_compute. repeat split. Qed.

Example test_allowed_types :
  isAllowedFileType "image/jpeg" = true
  /\ isAllowedFileType "application/pdf" = true
  /\ isAllowedFileType "text/plain" = true
  /\ isAllowedFileType "application/x-executable" = false.
Proof. vm_compute. repeat split. Qed.

Example test_file_sizes :
  isValidFileSize 1000 10000 = true
  /\ isValidFileSize 15000 10000 = false
  /\ isValidFileSize 0 10000 = false
  /\ isValidFileSize (-100) 10000 = false.
Proof. repeat split. Qed.

Example test_expiry_hours :
  isValidExpiryHours 24 168 = true
  /\ isValidExpiryHours 1 168 = true
  /\ isValidExpiryHours 168 168 = true
  /\ isValidExpiryHours 0 168 = false
  /\ isValidExpiryHours 200 168 = false.
Proof. repeat split. Qed.

(** ** Identifiers and storage names *)

Lemma length_append (s t : string) :
  String.length (s +:+ t) = (String.length s + String.length t)%nat.
Proof. induction s as [|a s IH]; simpl; [reflexivity | now rewrite IH]. Qed.

Lemma generateId_length (n : nat) (randomArray : nat -> Z) :
  String.length (generateId n randomArray) = n.
Proof.
  unfold generateId.
  assert (H : forall l, String.length (string_of_list_ascii l) = List.length l).
  { induction l as [|a l IH]; simpl; [reflexivity | now rewrite IH]. }
  rewrite H, List.length_map, List.length_seq. reflexivity.
Qed.

Lemma split_without_dot (s : string) : no_dot s = true -> split "." s = [s].
Proof.
  unfold no_dot. induction s as [|c s IH]; intros Hs; [reflexivity |].
  simpl in Hs. apply andb_prop in Hs as [Hc Hs]. apply negb_true_iff in Hc.
  simpl. now rewrite Hc, (IH Hs).
Qed.

(** For every name without a dot that is not empty, the storage name is
    the id, a dot and the whole name. *)
Lemma generateSecureFilename_without_dot (name : string)
    (randomArray : nat -> Z) :
  no_dot name = true -> name <> "" ->
  generateSecureFilename name randomArray
  = generateId 16 randomArray +:+ "." +:+ name.
Proof.
  intros Hdot Hname. unfold generateSecureFilename.
  rewrite (split_without_dot name Hdot). cbn [pop List.last truthy_string].
  destruct (String.eqb_spec name ""); [contradiction | reflexivity].
Qed.

(** C6, as the code has it: for the dotless name [test] the storage name
    is the 16-character id followed by [.test], 21 characters in all,
    although the unit test of [generateSecureFilename] expects the bare
    id.  [split] returns the whole name as its only piece, and [pop] takes
    it for the extension. *)
Theorem generateSecureFilename_dotless_name (randomArray : nat -> Z) :
  generateSecureFilename "test" randomArray
    = generateId 16 randomArray +:+ ".test"
  /\ String.length (generateSecureFilename "test" randomArray) = 21%nat
  /\ generateSecureFilename "test" randomArray <> generateId 16 randomArray.
Proof.
  assert (E : generateSecureFilename "test" randomArray
              = generateId 16 randomArray +:+ ".test") by reflexivity.
  assert (L : String.length (generateSecureFilename "test" randomArray) = 21%nat).
  { rewrite E, length_append, generateId_length. reflexivity. }
  split; [exact E | split; [exact L |]].
  intros Habs. rewrite Habs, generateId_length in L. discriminate.
Qed.

(** ** Password hashing *)

Lemma hex_value_digit (x : Z) : 0 <= x < 16 -> hex_value (hex_digit x) = x.
Proof.
  intros Hx. rewrite <- (Z2Nat.id x) by lia.
  assert (Hn : (Z.to_nat x < 16)%nat) by lia.
  generalize dependent (Z.to_nat x). clear x Hx. intros n Hn.
  unfold hex_digit. rewrite Nat2Z.id.
  do 16 (destruct n as [|n]; [reflexivity |]). lia.
Qed.

Lemma hex_byte_inj (b b' : Z) :
  is_byte b -> is_byte b' -> hex_byte b = hex_byte b' -> b = b'.
Proof.
  unfold is_byte, hex_byte. intros Hb Hb' E.
  injection E as Ehi Elo.
  apply (f_equal hex_value) in Ehi, Elo.
  assert (R : forall x, 0 <= x < 256 -> 0 <= x / 16 < 16 /\ 0 <= x mod 16 < 16).
  { intros x Hx. split; [| apply Z.mod_pos_bound; lia].
    split; [apply Z.div_pos | apply Z.div_lt_upper_bound]; lia. }
  destruct (R b Hb) as [? ?], (R b' Hb') as [? ?].
  rewrite !hex_value_digit in Ehi, Elo by assumption.
  rewrite (Z.div_mod b 16), (Z.div_mod b' 16) by lia. congruence.
Qed.

Lemma hex_inj (l l' : list Z) :
  Forall is_byte l -> Forall is_byte l' -> hex l = hex l' -> l = l'.
Proof.
  intros Hl. revert l'.
  induction Hl as [|b l Hb Hl IH]; intros l' Hl' E.
  - destruct l'; [reflexivity | discriminate].
  - destruct Hl' as [|b' l' Hb' Hl']; [discriminate |].
    change (hex_byte b +:+ hex l = hex_byte b' +:+ hex l') in E.
    unfold hex_byte in E. simpl in E.
    injection E as Ehi Elo Erest.
    f_equal.
    + apply hex_byte_inj; [assumption .. |]. unfold hex_byte. congruence.
    + apply IH; assumption.
Qed.

Lemma digest_bytes (msg : list Z) : Forall is_byte (SHA256.digest msg).
Proof.
  unfold SHA256.digest. apply Forall_concat, List.Forall_map, Forall_forall.
  intros w _. unfold SHA256.bytes_of_word, is_byte.
  repeat constructor; apply Z.mod_pos_bound; lia.
Qed.

(** Verification succeeds exactly when the two plaintexts have the same
    digest. *)
Lemma verifyPassword_hashPassword (p p2 : jsstring) :
  verifyPassword p2 (hashPassword p) = true
  <-> SHA256.digest (encode p2) = SHA256.digest (encode p).
Proof.
  unfold verifyPassword, hashPassword. rewrite String.eqb_eq. split.
  - apply hex_inj; apply digest_bytes.
  - intros ->. reflexivity.
Qed.

(** C8, as the code has it: a password always verifies against its own
    hash, and another plaintext verifies against that hash exactly when
    the SHA-256 digests of the two UTF-8 encodings coincide; so it is
    rejected whenever the digests differ, and accepted whenever the
    encodings are the same. *)
Theorem password_round_trip :
  (forall p : jsstring, verifyPassword p (hashPassword p) = true)
  /\ (forall p p2 : jsstring,
        verifyPassword p2 (hashPassword p) = false
        <-> SHA256.digest (encode p2) <> SHA256.digest (encode p))
  /\ (forall p p2 : jsstring,
        encode p2 = encode p -> verifyPassword p2 (hashPassword p) = true).
Proof.
  split; [| split].
  - intros p. apply verifyPassword_hashPassword. reflexivity.
  - intros p p2. rewrite <- verifyPassword_hashPassword.
    destruct (verifyPassword p2 (hashPassword p)); split; congruence.
  - intros p p2 E. apply verifyPassword_hashPassword. now rewrite E.
Qed.

(** C8, as stated, fails: an unpaired high surrogate and an unpaired low
    surrogate are different strings, yet [TextEncoder] writes U+FFFD for
    both, so each verifies against the hash of the other. *)
Lemma password_round_trip_counterexample :
  [55296] <> [56320] :> jsstring
  /\ verifyPassword [56320] (hashPassword [55296]) = true.
Proof.
  split; [discriminate |].
  apply verifyPassword_hashPassword. reflexivity.
Qed.

(** ** Soft deletion and the expiry sweep *)

Section SoftDelete.

Import DatabaseService.

Lemma getFile_None (id : string) (d : D1Database) :
  Forall (fun f => file_row_matches id f = true
                   -> FileRecord.is_deleted f = true) (files d)
  -> getFile id d = None.
Proof.
  unfold getFile. induction 1 as [|f l Hf _ IH]; simpl; [reflexivity |].
  destruct (file_row_matches id f); simpl; [| exact IH].
  rewrite Hf by reflexivity. exact IH.
Qed.

Lemma getTextShare_None (id : string) (d : D1Database) :
  Forall (fun s => text_row_matches id s = true
                   -> TextShareRecord.is_deleted s = true) (text_shares d)
  -> getTextShare id d = None.
Proof.
  unfold getTextShare. induction 1 as [|s l Hs _ IH]; simpl; [reflexivity |].
  destruct (text_row_matches id s); simpl; [| exact IH].
  rewrite Hs by reflexivity. exact IH.
Qed.

Lemma deleteFile_marks (id : string) (d : D1Database) :
  Forall (fun f => file_row_matches id f = true
                   -> FileRecord.is_deleted f = true) (files (deleteFile id d)).
Proof.
  unfold deleteFile. simpl. apply List.Forall_map, Forall_forall.
  intros f _. destruct (file_row_matches id f) eqn:E; [reflexivity | congruence].
Qed.

Lemma deleteTextShare_marks (id : string) (d : D1Database) :
  Forall (fun s => text_row_matches id s = true
                   -> TextShareRecord.is_deleted s = true)
         (text_shares (deleteTextShare id d)).
Proof.
  unfold deleteTextShare. simpl. apply List.Forall_map, Forall_forall.
  intros s _. destruct (text_row_matches id s) eqn:E; [reflexivity | congruence].
Qed.

(** An UPDATE that keeps the ids and never clears [is_deleted] keeps a
    hidden id hidden. *)
Lemma file_hidden_update (id : string) (d : D1Database)
    (g : FileRecord.t -> FileRecord.t) :
  (forall f, FileRecord.id (g f) = FileRecord.id f) ->
  (forall f, FileRecord.is_deleted f = true -> FileRecord.is_deleted (g f) = true) ->
  file_hidden id d -> file_hidden id (update_files d (List.map g (files d))).
Proof.
  intros Hid Hdel [Hex Hall]. unfold file_hidden, file_row_matches in *. simpl.
  split.
  - rewrite existsb_exists in *. destruct Hex as (f & Hin & Hf).
    exists (g f). split; [now apply List.in_map | now rewrite Hid].
  - apply List.Forall_map. eapply List.Forall_impl; [| exact Hall].
    intros f Hf. simpl. rewrite Hid. auto.
Qed.

Lemma text_hidden_update (id : string) (d : D1Database)
    (g : TextShareRecord.t -> TextShareRecord.t) :
  (forall s, TextShareRecord.id (g s) = TextShareRecord.id s) ->
  (forall s, TextShareRecord.is_deleted s = true
             -> TextShareRecord.is_deleted (g s) = true) ->
  text_hidden id d ->
  text_hidden id (update_text_shares d (List.map g (text_shares d))).
Proof.
  intros Hid Hdel [Hex Hall]. unfold text_hidden, text_row_matches in *. simpl.
  split.
  - rewrite existsb_exists in *. destruct Hex as (s & Hin & Hs).
    exists (g s). split; [now apply List.in_map | now rewrite Hid].
  - apply List.Forall_map. eapply List.Forall_impl; [| exact Hall].
    intros s Hs. simpl. rewrite Hid. auto.
Qed.

Ltac row_cases :=
  let r := fresh "r" in
  intros r; intros;
  repeat match goal with
         | |- context [if ?b then _ else _] => destruct b
         end; simpl; solve [reflexivity | assumption].

Lemma file_hidden_step (id : string) (d : D1Database) (op : db_op) :
  file_hidden id d -> file_hidden id (run_op d op).
Proof.
  intros H. destruct op; simpl;
    try (apply file_hidden_update; [row_cases | row_cases | exact H]);
    try exact H.
  - unfold createFile. generalize (generateId 12 randomArray). intros id'.
    destruct (existsb _ (files d)) eqn:E; simpl; [exact H |].
    destruct H as [Hex Hall]. unfold file_hidden. simpl.
    rewrite existsb_app, Hex. split; [reflexivity |].
    apply Forall_app. split; [exact Hall |].
    constructor; [| constructor]. unfold file_row_matches at 1. simpl.
    intros Hnew. apply String.eqb_eq in Hnew. rewrite Hnew in E. congruence.
  - unfold createTextShare.
    destruct (existsb _ (text_shares d)); exact H.
Qed.

Lemma text_hidden_step (id : string) (d : D1Database) (op : db_op) :
  text_hidden id d -> text_hidden id (run_op d op).
Proof.
  intros H. destruct op; simpl;
    try (apply text_hidden_update; [row_cases | row_cases | exact H]);
    try exact H.
  - unfold createFile.
    destruct (existsb _ (files d)); exact H.
  - unfold createTextShare. generalize (generateId 12 randomArray).
    intros id'.
    destruct (existsb _ (text_shares d)) eqn:E; simpl; [exact H |].
    destruct H as [Hex Hall]. unfold text_hidden. simpl.
    rewrite existsb_app, Hex. split; [reflexivity |].
    apply Forall_app. split; [exact Hall |].
    constructor; [| constructor]. unfold text_row_matches at 1. simpl.
    intros Hnew. apply String.eqb_eq in Hnew. rewrite Hnew in E. congruence.
Qed.

Lemma file_hidden_run (id : string) (ops : list db_op) (d : D1Database) :
  file_hidden id d -> file_hidden id (run_ops ops d).
Proof.
  revert d. induction ops as [|op ops IH]; intros d H; [exact H |].
  apply IH, file_hidden_step, H.
Qed.

Lemma text_hidden_run (id : string) (ops : list db_op) (d : D1Database) :
  text_hidden id d -> text_hidden id (run_ops ops d).
Proof.
  revert d. induction ops as [|op ops IH]; intros d H; [exact H |].
  apply IH, text_hidden_step, H.
Qed.

Lemma existsb_map_same {A} (p : A -> bool) (g : A -> A) (l : list A) :
  (forall a, p (g a) = p a) -> existsb p (List.map g l) = existsb p l.
Proof.
  intros Hp. induction l as [|a l IH]; simpl; [reflexivity |].
  now rewrite Hp, IH.
Qed.

(** After a sweep, no row is selected by a sweep at the same instant. *)
Lemma sweep_files_again (now : Z) (l : list FileRecord.t) :
  let g := fun f => if file_expired_live now f
                    then FileRecord.with_is_deleted true f else f in
  List.filter (file_expired_live now) (List.map g l) = []
  /\ List.map g (List.map g l) = List.map g l.
Proof.
  intros g.
  assert (Hg : forall f, file_expired_live now (g f) = false).
  { intros f. unfold g. destruct (file_expired_live now f) eqn:E; [| exact E].
    unfold file_expired_live. simpl. apply andb_false_r. }
  split.
  - induction l as [|f l IH]; simpl; [reflexivity |]. now rewrite Hg.
  - rewrite List.map_map. apply List.map_ext. intros f.
    unfold g at 1. now rewrite Hg.
Qed.

Lemma sweep_texts_again (now : Z) (l : list TextShareRecord.t) :
  let g := fun s => if text_expired_live now s
                    then TextShareRecord.with_is_deleted true s else s in
  List.filter (text_expired_live now) (List.map g l) = []
  /\ List.map g (List.map g l) = List.map g l.
Proof.
  intros g.
  assert (Hg : forall s, text_expired_live now (g s) = false).
  { intros s. unfold g. destruct (text_expired_live now s) eqn:E; [| exact E].
    unfold text_expired_live. simpl. apply andb_false_r. }
  split.
  - induction l as [|s l IH]; simpl; [reflexivity |]. now rewrite Hg.
  - rewrite List.map_map. apply List.map_ext. intros s.
    unfold g at 1. now rewrite Hg.
Qed.

End SoftDelete.

(** C7: a soft-deleted id is not found, at once and after any further
    writes of the service when the id names a stored row; and a second
    sweep at the same instant changes no row and reports 0.  Both hold for
    files and for text shares. *)
Theorem soft_delete_hides_and_sweep_is_idempotent :
  (forall (d : D1Database) (id : string),
     DatabaseService.getFile id (DatabaseService.deleteFile id d) = None)
  /\ (forall (d : D1Database) (id : string) (ops : list db_op),
        existsb (DatabaseService.file_row_matches id) (files d) = true ->
        DatabaseService.getFile id
          (run_ops ops (DatabaseService.deleteFile id d)) = None)
  /\ (forall (d : D1Database) (id : string),
        DatabaseService.getTextShare id (DatabaseService.deleteTextShare id d)
          = None)
  /\ (forall (d : D1Database) (id : string) (ops : list db_op),
        existsb (DatabaseService.text_row_matches id) (text_shares d) = true ->
        DatabaseService.getTextShare id
          (run_ops ops (DatabaseService.deleteTextShare id d)) = None)
  /\ (forall (now : Z) (d : D1Database),
        let d1 := snd (DatabaseService.cleanupExpiredFiles now d) in
        DatabaseService.cleanupExpiredFiles now d1 = (0, d1))
  /\ (forall (now : Z) (d : D1Database),
        let d1 := snd (DatabaseService.cleanupExpiredTextShares now d) in
        DatabaseService.cleanupExpiredTextShares now d1 = (0, d1)).
Proof.
  repeat apply conj.
  - intros d id. apply getFile_None, deleteFile_marks.
  - intros d id ops Hex. apply getFile_None.
    apply (file_hidden_run id ops). split; [| apply deleteFile_marks].
    unfold DatabaseService.deleteFile. simpl.
    rewrite existsb_map_same; [exact Hex |].
    intros f. unfold DatabaseService.file_row_matches.
    destruct (String.eqb (FileRecord.id f) id) eqn:E; simpl; exact E.
  - intros d id. apply getTextShare_None, deleteTextShare_marks.
  - intros d id ops Hex. apply getTextShare_None.
    apply (text_hidden_run id ops). split; [| apply deleteTextShare_marks].
    unfold DatabaseService.deleteTextShare. simpl.
    rewrite existsb_map_same; [exact Hex |].
    intros s. unfold DatabaseService.text_row_matches.
    destruct (String.eqb (TextShareRecord.id s) id) eqn:E; simpl; exact E.
  - intros now d. unfold DatabaseService.cleanupExpiredFiles. simpl.
    destruct (sweep_files_again now (files d)) as [-> ->]. reflexivity.
  - intros now d. unfold DatabaseService.cleanupExpiredTextShares. simpl.
    destruct (sweep_texts_again now (text_shares d)) as [-> ->]. reflexivity.
Qed.

(** ** The access decision *)

(** The download handler decides by first match over [file_checks]. *)
Lemma post_download_first_match (fileId : string) (reqBody : RedeemBody)
    (password : option jsstring) (now : Z) (w : World) (file : FileRecord.t) :
  parse_redeem_body reqBody = Some password ->
  DatabaseService.getFile fileId (db w) = Some file ->
  download.post_download fileId reqBody now w
  = match Policy.first_match (Policy.file_checks file now password) with
    | Policy.DENY reason => (Policy.download_denial reason, w)
    | Policy.ALLOW => download.fetch_and_count fileId file w
    end.
Proof.
  intros Hbody Hget. unfold download.post_download.
  rewrite Hbody, Hget. unfold DatabaseService.isFileAccessible. simpl.
  destruct (isExpired _ now); [reflexivity |].
  destruct (truthy_number _ && _); [reflexivity |].
  destruct (truthy_string _); [| reflexivity].
  destruct (truthy_jsstring password); [| reflexivity].
  destruct (verifyPassword _ _); reflexivity.
Qed.

Lemma post_view_first_match (textShareId : string) (reqBody : RedeemBody)
    (password : option jsstring) (now : Z) (w : World)
    (textShare : TextShareRecord.t) :
  parse_redeem_body reqBody = Some password ->
  DatabaseService.getTextShare textShareId (db w) = Some textShare ->
  text.post_view textShareId reqBody now w
  = match Policy.first_match (Policy.text_checks textShare now password) with
    | Policy.DENY reason => (Policy.view_denial reason, w)
    | Policy.ALLOW => text.count_and_show textShareId textShare w
    end.
Proof.
  intros Hbody Hget. unfold text.post_view.
  rewrite Hbody, Hget. unfold DatabaseService.isTextShareAccessible. simpl.
  destruct (isExpired _ now); [reflexivity |].
  destruct (truthy_number _ && _); [reflexivity |].
  destruct (truthy_string _); [| reflexivity].
  destruct (truthy_jsstring password); [| reflexivity].
  destruct (verifyPassword _ _); reflexivity.
Qed.

(** The two denials that do not look at the password. *)
Lemma post_download_expired (fileId : string) (reqBody : RedeemBody)
    (password : option jsstring) (now : Z) (w : World) (file : FileRecord.t) :
  parse_redeem_body reqBody = Some password ->
  DatabaseService.getFile fileId (db w) = Some file ->
  FileRecord.expires_at file < now ->
  download.post_download fileId reqBody now w
  = (errorResponse FILE_EXPIRED "File has expired" 410, w).
Proof.
  intros Hbody Hget Hexp.
  rewrite (post_download_first_match _ _ _ _ _ _ Hbody Hget).
  unfold Policy.file_checks, isExpired. simpl.
  destruct (Z.gtb_spec now (FileRecord.expires_at file)); [| lia].
  reflexivity.
Qed.

Lemma post_download_limit_reached (fileId : string) (reqBody : RedeemBody)
    (password : option jsstring) (now : Z) (w : World) (file : FileRecord.t)
    (limit : Z) :
  parse_redeem_body reqBody = Some password ->
  DatabaseService.getFile fileId (db w) = Some file ->
  now <= FileRecord.expires_at file ->
  FileRecord.max_downloads file = Some limit ->
  limit <> 0 ->
  limit <= FileRecord.download_count file ->
  download.post_download fileId reqBody now w
  = (errorResponse DOWNLOAD_LIMIT_REACHED "Download limit reached" 403, w).
Proof.
  intros Hbody Hget Hlive Hmax Hnz Hreached.
  rewrite (post_download_first_match _ _ _ _ _ _ Hbody Hget).
  unfold Policy.file_checks, isExpired. simpl.
  destruct (Z.gtb_spec now (FileRecord.expires_at file)); [lia |].
  rewrite Hmax. simpl.
  destruct (Z.eqb_spec limit 0); [contradiction |].
  destruct (Z.leb_spec limit (FileRecord.download_count file)); [| lia].
  reflexivity.
Qed.

(** A limit of 0 is never stored: [createFile] binds it as NULL. *)
Lemma number_or_null_nonzero (o : option Z) : number_or_null o <> Some 0.
Proof.
  unfold number_or_null, truthy_number. destruct o as [n|]; [| discriminate].
  destruct (Z.eqb_spec n 0); simpl; [discriminate | intros [= ?]; contradiction].
Qed.


(** ** The usage counters *)

Section Counters.

Import DatabaseService.

Lemma find_map {A} (p : A -> bool) (g : A -> A) (l : list A) :
  (forall a, p (g a) = p a) ->
  List.find p (List.map g l) = option_map g (List.find p l).
Proof.
  intros Hp. induction l as [|a l IH]; simpl; [reflexivity |].
  rewrite Hp. destruct (p a); [reflexivity | exact IH].
Qed.

Lemma getFile_found (id : string) (d : D1Database) (f : FileRecord.t) :
  getFile id d = Some f ->
  FileRecord.id f = id /\ FileRecord.is_deleted f = false.
Proof.
  unfold getFile. intros H. apply List.find_some in H as [_ H].
  apply andb_prop in H as [Hid Hdel]. apply String.eqb_eq in Hid.
  split; [exact Hid |]. now destruct (FileRecord.is_deleted f).
Qed.

Lemma getTextShare_found (id : string) (d : D1Database)
    (s : TextShareRecord.t) :
  getTextShare id d = Some s ->
  TextShareRecord.id s = id /\ TextShareRecord.is_deleted s = false.
Proof.
  unfold getTextShare. intros H. apply List.find_some in H as [_ H].
  apply andb_prop in H as [Hid Hdel]. apply String.eqb_eq in Hid.
  split; [exact Hid |]. now destruct (TextShareRecord.is_deleted s).
Qed.

(** The UPDATE of [incrementDownloadCount], seen through [getFile]. *)
Lemma getFile_increment (id' id : string) (d : D1Database) :
  getFile id' (incrementDownloadCount id d)
  = option_map
      (fun f => if String.eqb id' id
                then FileRecord.with_download_count
                       (FileRecord.download_count f + 1) f
                else f)
      (getFile id' d).
Proof.
  unfold getFile, incrementDownloadCount. simpl. rewrite find_map.
  - destruct (List.find _ (files d)) as [f|] eqn:E; [| reflexivity].
    apply (getFile_found id' d f) in E as [<- _]. reflexivity.
  - intros f. destruct (file_row_matches id f); reflexivity.
Qed.

Lemma getTextShare_increment (id' id : string) (d : D1Database) :
  getTextShare id' (incrementViewCount id d)
  = option_map
      (fun s => if String.eqb id' id
                then TextShareRecord.with_view_count
                       (TextShareRecord.view_count s + 1) s
                else s)
      (getTextShare id' d).
Proof.
  unfold getTextShare, incrementViewCount. simpl. rewrite find_map.
  - destruct (List.find _ (text_shares d)) as [s|] eqn:E; [| reflexivity].
    apply (getTextShare_found id' d s) in E as [<- _]. reflexivity.
  - intros s. destruct (text_row_matches id s); reflexivity.
Qed.

Lemma download_count_increment (id' id : string) (d : D1Database) :
  download_count_of id' (incrementDownloadCount id d)
  = option_map (fun c => c + (if String.eqb id' id then 1 else 0))
               (download_count_of id' d).
Proof.
  unfold download_count_of. rewrite getFile_increment.
  destruct (getFile id' d) as [f|]; [| reflexivity]. simpl.
  destruct (String.eqb id' id); simpl; f_equal; lia.
Qed.

Lemma view_count_increment (id' id : string) (d : D1Database) :
  view_count_of id' (incrementViewCount id d)
  = option_map (fun c => c + (if String.eqb id' id then 1 else 0))
               (view_count_of id' d).
Proof.
  unfold view_count_of. rewrite getTextShare_increment.
  destruct (getTextShare id' d) as [s|]; [| reflexivity]. simpl.
  destruct (String.eqb id' id); simpl; f_equal; lia.
Qed.


(** Whether [fileResponse] can be built is whether the record is
    servable. *)
Lemma fileResponse_servable (data : list Z) (file : FileRecord.t) :
  fileResponse data (FileRecord.original_filename file)
    (FileRecord.mime_type file) (FileRecord.size file)
  = if servable file
    then Ok (FileBody data (FileRecord.original_filename file)
               (FileRecord.mime_type file) (FileRecord.size file))
    else Throw.
Proof. reflexivity. Qed.


End Counters.


Lemma get_download_first_match (env : Env) (fileId : string)
    (password : option jsstring) (now : Z) (w : World) (file : FileRecord.t) :
  DatabaseService.getFile fileId (db w) = Some file ->
  download.get_download env fileId password now w
  = match Policy.first_match (Policy.file_checks file now password) with
    | Policy.DENY reason => (download_redirect env fileId reason, w)
    | Policy.ALLOW => download.fetch_and_count fileId file w
    end.
Proof.
  intros Hget. unfold download.get_download, download_redirect.
  rewrite Hget. unfold DatabaseService.isFileAccessible. simpl.
  destruct (isExpired _ now); [reflexivity |].
  destruct (truthy_number _ && _); [reflexivity |].
  destruct (truthy_string _); [| reflexivity].
  destruct (truthy_jsstring password); [| reflexivity].
  destruct (verifyPassword _ _); reflexivity.
Qed.

Lemma get_view_first_match (env : Env) (textShareId : string)
    (password : option jsstring) (now : Z) (w : World)
    (textShare : TextShareRecord.t) :
  DatabaseService.getTextShare textShareId (db w) = Some textShare ->
  text.get_view env textShareId password now w
  = match Policy.first_match (Policy.text_checks textShare now password) with
    | Policy.DENY reason => (view_redirect env textShareId reason, w)
    | Policy.ALLOW =>
        (textResponse (TextShareRecord.content textShare) "text/plain",
         with_db w (DatabaseService.incrementViewCount textShareId (db w)))
    end.
Proof.
  intros Hget. unfold text.get_view, view_redirect.
  rewrite Hget. unfold DatabaseService.isTextShareAccessible. simpl.
  destruct (isExpired _ now); [reflexivity |].
  destruct (truthy_number _ && _); [reflexivity |].
  destruct (truthy_string _); [| reflexivity].
  destruct (truthy_jsstring password); [| reflexivity].
  destruct (verifyPassword _ _); reflexivity.
Qed.

(** ** The usage ceiling *)

Section UsageCeiling.

Variables (fileId : string) (file : FileRecord.t) (object : R2Object)
          (limit : Z) (blobs : R2Bucket).
Hypothesis limit_set : FileRecord.max_downloads file = Some limit.
Hypothesis limit_positive : 1 <= limit.
Hypothesis blob_stored :
  StorageService.downloadFile (FileRecord.filename file) blobs
  = Ok (Some object).
Hypothesis can_be_served : servable file = true.

Lemma pass_below_limit (count : Z) (w : World) (attempt : RedeemBody * Z) :
  at_count fileId file blobs count w -> count < limit -> would_pass file attempt = true ->
  let r := fst (download.post_download fileId (fst attempt) (snd attempt) w) in
  let w' := snd (download.post_download fileId (fst attempt) (snd attempt) w) in
  is_file r = true /\ at_count fileId file blobs (count + 1) w'.
Proof.
  intros [Hget Hb] Hlt Hpass. unfold would_pass in Hpass.
  destruct (parse_redeem_body (fst attempt)) as [password|] eqn:Hbody;
    [| discriminate].
  apply andb_prop in Hpass as [Hlive Hpw].
  rewrite (post_download_first_match _ _ _ _ _ _ Hbody Hget).
  unfold Policy.file_checks. simpl. rewrite limit_set. simpl.
  apply negb_true_iff in Hlive. rewrite Hlive.
  destruct (Z.eqb_spec limit 0); [lia |].
  destruct (Z.leb_spec limit count); [lia |]. simpl.
  assert (Hallow :
    (if truthy_string (FileRecord.password_hash file)
          && negb (truthy_jsstring password)
     then Policy.DENY Policy.PASSWORD_REQUIRED
     else if truthy_string (FileRecord.password_hash file)
             && negb (verifyPassword (default [] password)
                        (default "" (FileRecord.password_hash file)))
          then Policy.DENY Policy.PASSWORD_INVALID
          else Policy.ALLOW) = Policy.ALLOW).
  { unfold password_accepted in Hpw.
    destruct (truthy_string _); [| reflexivity]. simpl in *.
    apply andb_prop in Hpw as [-> ->]. reflexivity. }
  rewrite Hallow. unfold download.fetch_and_count.
  cbn [FileRecord.filename FileRecord.with_download_count].
  rewrite Hb, blob_stored. cbn zeta. rewrite fileResponse_servable.
  change (servable _) with (servable file). rewrite can_be_served.
  cbn [fst snd].
  split; [reflexivity |]. unfold at_count.
  cbn [db bucket with_db].
  split; [| exact Hb].
  rewrite getFile_increment, Hget, String.eqb_refl. reflexivity.
Qed.

Lemma fail_leaves_world (count : Z) (w : World) (attempt : RedeemBody * Z) :
  at_count fileId file blobs count w -> would_pass file attempt = false ->
  let r := fst (download.post_download fileId (fst attempt) (snd attempt) w) in
  let w' := snd (download.post_download fileId (fst attempt) (snd attempt) w) in
  is_file r = false /\ w' = w.
Proof.
  intros [Hget Hb] Hfail. unfold would_pass in Hfail.
  destruct (parse_redeem_body (fst attempt)) as [password|] eqn:Hbody.
  2:{ unfold download.post_download. rewrite Hbody. split; reflexivity. }
  rewrite (post_download_first_match _ _ _ _ _ _ Hbody Hget).
  unfold Policy.file_checks. simpl.
  destruct (isExpired _ _); [split; reflexivity |].
  destruct (truthy_number _ && _); [split; reflexivity |].
  simpl in Hfail. unfold password_accepted in Hfail.
  destruct (truthy_string _); [| discriminate]. simpl in *.
  destruct (truthy_jsstring password); [| split; reflexivity]. simpl in *.
  rewrite Hfail. split; reflexivity.
Qed.

Lemma denied_at_limit (w : World) (reqBody : RedeemBody)
    (password : option jsstring) (now : Z) :
  at_count fileId file blobs limit w ->
  parse_redeem_body reqBody = Some password ->
  now <= FileRecord.expires_at file ->
  download.post_download fileId reqBody now w
  = (errorResponse DOWNLOAD_LIMIT_REACHED "Download limit reached" 403, w).
Proof.
  intros [Hget Hb] Hbody Hlive.
  apply (post_download_limit_reached _ _ _ _ _ _ limit Hbody Hget);
    simpl; [exact Hlive | exact limit_set | lia | lia].
Qed.

Lemma run_below_limit (attempts : list (RedeemBody * Z)) :
  forall (count : Z) (w : World),
    at_count fileId file blobs count w -> count + passing file attempts <= limit ->
    let rs := fst (run_downloads fileId attempts w) in
    let w' := snd (run_downloads fileId attempts w) in
    Forall2 (fun attempt r => is_file r = would_pass file attempt) attempts rs
    /\ at_count fileId file blobs (count + passing file attempts) w'.
Proof.
  unfold passing.
  induction attempts as [|[reqBody now] rest IH]; intros count w Hw Hle.
  - simpl. split; [constructor |]. now rewrite Z.add_0_r.
  - simpl in *.
    destruct (would_pass file (reqBody, now)) eqn:Hpass.
    + simpl in Hle.
      destruct (pass_below_limit count w (reqBody, now) Hw) as [Hr Hw1];
        [lia | exact Hpass |]. simpl in Hr, Hw1.
      destruct (download.post_download fileId reqBody now w) as [r w1].
      simpl in Hr, Hw1.
      specialize (IH (count + 1) w1 Hw1 ltac:(lia)).
      destruct (run_downloads fileId rest w1) as [rs w2]. simpl in *.
      destruct IH as [Hrs Hw2]. split.
      * constructor; [congruence | exact Hrs].
      * match goal with
        | |- at_count _ _ _ ?c _ =>
            replace c
              with (count + 1
                    + Z.of_nat (List.length
                                  (List.filter (would_pass file) rest)))
              by lia
        end.
        exact Hw2.
    + destruct (fail_leaves_world count w (reqBody, now) Hw Hpass) as [Hr Hw1].
      simpl in Hr, Hw1.
      destruct (download.post_download fileId reqBody now w) as [r w1].
      simpl in Hr, Hw1. subst w1.
      specialize (IH count w Hw Hle).
      destruct (run_downloads fileId rest w) as [rs w2]. simpl in *.
      destruct IH as [Hrs Hw2]. split; [| exact Hw2].
      constructor; [congruence | exact Hrs].
Qed.

End UsageCeiling.


(** The ceiling of the views of a text share, as for the downloads of a
    file. *)
Section ViewCeiling.

Variables (textShareId : string) (textShare : TextShareRecord.t) (limit : Z).
Hypothesis limit_set : TextShareRecord.max_views textShare = Some limit.
Hypothesis limit_positive : 1 <= limit.

Lemma view_below_limit (count : Z) (w : World) (attempt : RedeemBody * Z) :
  at_views textShareId textShare count w -> count < limit ->
  would_pass_view textShare attempt = true ->
  let r := fst (text.post_view textShareId (fst attempt) (snd attempt) w) in
  let w' := snd (text.post_view textShareId (fst attempt) (snd attempt) w) in
  is_text_share r = true /\ at_views textShareId textShare (count + 1) w'.
Proof.
  intros Hget Hlt Hpass. unfold would_pass_view in Hpass.
  destruct (parse_redeem_body (fst attempt)) as [password|] eqn:Hbody;
    [| discriminate].
  apply andb_prop in Hpass as [Hlive Hpw]. apply negb_true_iff in Hlive.
  rewrite (post_view_first_match _ _ _ _ _ _ Hbody Hget).
  unfold Policy.text_checks. simpl. rewrite limit_set, Hlive. simpl.
  destruct (Z.eqb_spec limit 0); [lia |].
  destruct (Z.leb_spec limit count); [lia |]. simpl.
  unfold password_accepted in Hpw.
  destruct (truthy_string (TextShareRecord.password_hash textShare)) eqn:Hhash;
    simpl in *.
  - apply andb_prop in Hpw as [Hsome Hok]. rewrite Hsome, Hok. simpl.
    split; [reflexivity |]. unfold at_views. simpl.
    rewrite getTextShare_increment, Hget, String.eqb_refl. reflexivity.
  - split; [reflexivity |]. unfold at_views. simpl.
    rewrite getTextShare_increment, Hget, String.eqb_refl. reflexivity.
Qed.

Lemma view_fail_leaves_world (count : Z) (w : World)
    (attempt : RedeemBody * Z) :
  at_views textShareId textShare count w ->
  would_pass_view textShare attempt = false ->
  let r := fst (text.post_view textShareId (fst attempt) (snd attempt) w) in
  let w' := snd (text.post_view textShareId (fst attempt) (snd attempt) w) in
  is_text_share r = false /\ w' = w.
Proof.
  intros Hget Hfail. unfold would_pass_view in Hfail.
  destruct (parse_redeem_body (fst attempt)) as [password|] eqn:Hbody.
  2:{ unfold text.post_view. rewrite Hbody. split; reflexivity. }
  rewrite (post_view_first_match _ _ _ _ _ _ Hbody Hget).
  unfold Policy.text_checks. simpl.
  destruct (isExpired _ _); [split; reflexivity |].
  destruct (truthy_number _ && _); [split; reflexivity |].
  simpl in Hfail. unfold password_accepted in Hfail.
  destruct (truthy_string _); [| discriminate]. simpl in *.
  destruct (truthy_jsstring password); [| split; reflexivity]. simpl in *.
  rewrite Hfail. split; reflexivity.
Qed.

Lemma view_denied_at_limit (w : World) (reqBody : RedeemBody)
    (password : option jsstring) (now : Z) :
  at_views textShareId textShare limit w ->
  parse_redeem_body reqBody = Some password ->
  now <= TextShareRecord.expires_at textShare ->
  text.post_view textShareId reqBody now w
  = (errorResponse VIEW_LIMIT_REACHED "View limit reached" 403, w).
Proof.
  intros Hget Hbody Hlive.
  rewrite (post_view_first_match _ _ _ _ _ _ Hbody Hget).
  unfold Policy.text_checks, isExpired. simpl. rewrite limit_set. simpl.
  destruct (Z.gtb_spec now (TextShareRecord.expires_at textShare)); [lia |].
  destruct (Z.eqb_spec limit 0); [lia |].
  rewrite Z.leb_refl. reflexivity.
Qed.

Lemma run_views_below_limit (attempts : list (RedeemBody * Z)) :
  forall (count : Z) (w : World),
    at_views textShareId textShare count w ->
    count + passing_views textShare attempts <= limit ->
    let rs := fst (run_views textShareId attempts w) in
    let w' := snd (run_views textShareId attempts w) in
    Forall2 (fun attempt r => is_text_share r = would_pass_view textShare attempt)
            attempts rs
    /\ at_views textShareId textShare
         (count + passing_views textShare attempts) w'.
Proof.
  unfold passing_views.
  induction attempts as [|[reqBody now] rest IH]; intros count w Hw Hle.
  - simpl. split; [constructor |]. now rewrite Z.add_0_r.
  - simpl in *.
    destruct (would_pass_view textShare (reqBody, now)) eqn:Hpass.
    + simpl in Hle.
      destruct (view_below_limit count w (reqBody, now) Hw) as [Hr Hw1];
        [lia | exact Hpass |]. simpl in Hr, Hw1.
      destruct (text.post_view textShareId reqBody now w) as [r w1].
      simpl in Hr, Hw1.
      assert (Hle1 : count + 1
                     + Z.of_nat (List.length
                                   (List.filter (would_pass_view textShare) rest))
                     <= limit) by lia.
      specialize (IH (count + 1) w1 Hw1 Hle1).
      destruct (run_views textShareId rest w1) as [rs w2]. simpl in *.
      destruct IH as [Hrs Hw2]. split.
      * constructor; [congruence | exact Hrs].
      * match goal with
        | |- at_views _ _ ?c _ =>
            replace c
              with (count + 1
                    + Z.of_nat (List.length
                                  (List.filter (would_pass_view textShare) rest)))
              by lia
        end.
        exact Hw2.
    + destruct (view_fail_leaves_world count w (reqBody, now) Hw Hpass)
        as [Hr Hw1].
      simpl in Hr, Hw1.
      destruct (text.post_view textShareId reqBody now w) as [r w1].
      simpl in Hr, Hw1. subst w1.
      specialize (IH count w Hw Hle).
      destruct (run_views textShareId rest w) as [rs w2]. simpl in *.
      destruct IH as [Hrs Hw2]. split; [| exact Hw2].
      constructor; [congruence | exact Hrs].
Qed.

End ViewCeiling.

(** Scenario B in general: a text share found with no views yet and a
    limit of at least one is shown to the attempts that would pass until
    they number the limit; then the counter is the limit and the next
    request before the expiry is answered "limit reached". *)
Lemma view_ceiling (textShareId : string) (textShare : TextShareRecord.t)
    (limit : Z) (attempts : list (RedeemBody * Z)) (w : World) :
  DatabaseService.getTextShare textShareId (db w) = Some textShare ->
  TextShareRecord.view_count textShare = 0 ->
  TextShareRecord.max_views textShare = Some limit ->
  1 <= limit ->
  passing_views textShare attempts = limit ->
  let rs := fst (run_views textShareId attempts w) in
  let w' := snd (run_views textShareId attempts w) in
  Forall2 (fun attempt r => is_text_share r = would_pass_view textShare attempt)
          attempts rs
  /\ view_count_of textShareId (db w') = Some limit
  /\ (forall (reqBody : RedeemBody) (password : option jsstring) (now : Z),
        parse_redeem_body reqBody = Some password ->
        now <= TextShareRecord.expires_at textShare ->
        text.post_view textShareId reqBody now w'
        = (errorResponse VIEW_LIMIT_REACHED "View limit reached" 403, w')).
Proof.
  intros Hget Hfresh Hlimit Hpositive Hpassing.
  assert (Hstart : at_views textShareId textShare 0 w).
  { unfold at_views. rewrite Hget. f_equal.
    destruct textShare; simpl in *; subst; reflexivity. }
  assert (Hle : 0 + passing_views textShare attempts <= limit) by lia.
  destruct (run_views_below_limit textShareId textShare limit Hlimit Hpositive
              attempts 0 w Hstart Hle) as [Hrs Hend].
  rewrite Z.add_0_l, Hpassing in Hend.
  cbv zeta. split; [exact Hrs |]. split.
  - unfold view_count_of. unfold at_views in Hend. rewrite Hend. reflexivity.
  - intros reqBody password now Hbody Hlive.
    exact (view_denied_at_limit textShareId textShare limit Hlimit Hpositive _
             reqBody password now Hend Hbody Hlive).
Qed.

(** ** Validation at creation *)

(** What the handlers do refuse: an upload whose file is larger than the
    configured maximum or of a type outside the allow-list, or whose
    expiry hours as the handler reads them are outside
    1..MAX_EXPIRY_HOURS, and a text share whose [expiry_hours] are
    outside that range, are answered with status 400, and neither the
    database nor the bucket changes. *)
Lemma creation_rejected_out_of_bounds :
  (forall (env : Env) (form : UploadForm.t) (file : File.t)
          (client_ip origin : string) (nameRandom idRandom : nat -> Z)
          (now now' : Z) (w : World),
     UploadForm.file form = Some file ->
     MAX_FILE_SIZE env < File.size file
     \/ isAllowedFileType (File.type file) = false
     \/ ~ (1 <= upload.expiryHours form <= MAX_EXPIRY_HOURS env) ->
     exists message,
       upload.post_upload env (Ok form) client_ip origin nameRandom idRandom
                          now now' w
       = (JsonFailure 400 message, w))
  /\ (forall (env : Env) (reqBody : CreateTextShareRequest.t) (hours : Z)
             (client_ip origin : string) (randomArray : nat -> Z)
             (now now' : Z) (w : World),
        CreateTextShareRequest.expiry_hours reqBody = Some hours ->
        ~ (1 <= hours <= MAX_EXPIRY_HOURS env) ->
        exists message,
          text.post_create env (Ok reqBody) client_ip origin randomArray
                           now now' w
          = (JsonFailure 400 message, w)).
Proof.
  split.
  - intros env form file client_ip origin nameRandom idRandom now now' w
           Hfile Hbad.
    unfold upload.post_upload. rewrite Hfile.
    destruct (uploadFileSchema _ _ _); simpl; [| eauto].
    destruct (isValidFileSize _ _) eqn:Hsize; simpl; [| eauto].
    destruct (isAllowedFileType _) eqn:Htype; simpl; [| eauto].
    destruct (isValidExpiryHours _ _) eqn:Hhours; simpl; [| eauto].
    exfalso. unfold isValidFileSize, isValidExpiryHours in *.
    apply andb_prop in Hsize as [_ Hsize]. apply andb_prop in Hhours as [H0 H1].
    destruct Hbad as [Hbad | [Hbad | Hbad]]; [lia | congruence | lia].
  - intros env reqBody hours client_ip origin randomArray now now' w
           Hhours Hbad.
    unfold text.post_create.
    destruct (createTextShareSchema reqBody); simpl; [| eauto].
    rewrite Hhours. simpl.
    destruct (isValidExpiryHours hours _) eqn:Hvalid; simpl; [| eauto].
    exfalso. unfold isValidExpiryHours in Hvalid.
    apply andb_prop in Hvalid as [H0 H1]. lia.
Qed.

(** C9: an upload whose expiry field is the numeral 0 is accepted.  Zero
    hours are outside the range of the schema and [isValidExpiryHours]
    refuses them whatever the maximum; but the handler reads the field as
    [Number(...) || 24], which turns 0 into 24 before either check sees
    it, so that it answers a form with 0 as it answers the same form with
    24.  On the example the upload is answered 201 and creates a record
    that expires after 24 hours and a blob, while the text handler
    answers the same hours with 400 and changes nothing. *)
Theorem zero_expiry_hours_accepted :
  (forall maxHours : Z, isValidExpiryHours 0 maxHours = false)
  /\ (forall (max_downloads : option number) (password : option jsstring),
        uploadFileSchema 0 max_downloads password = false)
  /\ (forall (env : Env) (file : option File.t) (max_downloads : FormValue)
             (password : option jsstring) (client_ip origin : string)
             (nameRandom idRandom : nat -> Z) (now now' : Z) (w : World),
        upload.expiryHours (UploadForm.mk file (Numeral 0) max_downloads
                              password) = 24
        /\ upload.post_upload env
             (Ok (UploadForm.mk file (Numeral 0) max_downloads password))
             client_ip origin nameRandom idRandom now now' w
           = upload.post_upload env
               (Ok (UploadForm.mk file (Numeral 24) max_downloads password))
               client_ip origin nameRandom idRandom now now' w)
  /\ (let result :=
        upload.post_upload example_env (Ok zero_hours_form) "203.0.113.9"
          "https://share.example" name_bytes id_bytes 0 0 empty_world in
      UploadForm.expiry_hours zero_hours_form = Numeral 0
      /\ status_of (fst result) = 201
      /\ List.map FileRecord.expires_at (files (db (snd result)))
         = [86400000]
      /\ List.map key (objects (bucket (snd result)))
         = ["ABCDEFGHIJKLMNOP.txt"])
  /\ (forall (env : Env) (title : option string) (content : string)
             (language : option string) (max_views : option Z)
             (password : option jsstring) (client_ip origin : string)
             (randomArray : nat -> Z) (now now' : Z) (w : World),
        exists message,
          text.post_create env
            (Ok (CreateTextShareRequest.mk title content language (Some 0)
                   max_views password))
            client_ip origin randomArray now now' w
          = (JsonFailure 400 message, w)).
Proof.
  split; [reflexivity |]. split; [reflexivity |].
  split; [| split].
  - intros. split; reflexivity.
  - cbv zeta. split; [reflexivity |]. vm_compute. repeat split.
  - intros. unfold text.post_create, createTextShareSchema.
    cbn [CreateTextShareRequest.expiry_hours optional Z.leb Z.compare andb
         negb].
    rewrite !andb_false_r. cbn [andb negb]. eexists. reflexivity.
Qed.

(** C10: an upload of an empty file is answered with status 400 and
    changes nothing, the size check failing on 0 whatever the maximum; and
    an upload that changes the world carried a file of at least one
    byte. *)
Theorem empty_upload_rejected (env : Env) (form : UploadForm.t)
    (client_ip origin : string) (nameRandom idRandom : nat -> Z)
    (now now' : Z) (w : World) :
  (forall file : File.t,
     UploadForm.file form = Some file ->
     File.size file = 0 ->
     isValidFileSize (File.size file) (MAX_FILE_SIZE env) = false
     /\ exists message,
          upload.post_upload env (Ok form) client_ip origin nameRandom idRandom
                             now now' w
          = (JsonFailure 400 message, w))
  /\ (snd (upload.post_upload env (Ok form) client_ip origin nameRandom
             idRandom now now' w) <> w ->
      exists file, UploadForm.file form = Some file /\ 0 < File.size file).
Proof.
  split.
  - intros file Hfile Hsize. rewrite Hsize. split; [reflexivity |].
    unfold upload.post_upload. rewrite Hfile, Hsize.
    destruct (uploadFileSchema _ _ _); simpl; eauto.
  - unfold upload.post_upload.
    destruct (UploadForm.file form) as [file|]; simpl; [| congruence].
    destruct (uploadFileSchema _ _ _); simpl; [| congruence].
    destruct (isValidFileSize _ _) eqn:Hsize; simpl; [| congruence].
    intros _. exists file. split; [reflexivity |].
    unfold isValidFileSize in Hsize. apply andb_prop in Hsize as [H0 _]. lia.
Qed.

(** ** The reconciliation sweep *)

Section Reconciliation.

Import StorageService.

Lemma filter_filter {A} (p q : A -> bool) (l : list A) :
  List.filter p (List.filter q l) = List.filter (fun x => q x && p x) l.
Proof.
  induction l as [|a l IH]; simpl; [reflexivity |].
  destruct (q a); simpl; [destruct (p a) |]; now rewrite IH.
Qed.

Lemma filter_all {A} (l : list A) : List.filter (fun _ => true) l = l.
Proof. induction l as [|a l IH]; simpl; [reflexivity | now rewrite IH]. Qed.

(** The page that [listFiles()] reads with its default limit. *)
Lemma listFiles_page (b : R2Bucket) :
  listFiles None 1000 b
  = if available b then Ok (List.firstn 1000 (objects b)) else Throw.
Proof. unfold listFiles. now destruct (available b). Qed.

(** The loop of [cleanupOrphanedFiles] on an answering bucket: an object
    goes when a listed object of the same key is swept, and the count is
    the number of listed objects that are swept. *)
Lemma cleanup_loop (validFileIds : list string) (listed : list R2Object) :
  forall (b : R2Bucket) (deletedCount : Z),
    available b = true ->
    List.fold_left (cleanup_step validFileIds) listed (b, Ok deletedCount)
    = (with_objects b
         (List.filter
            (fun o => negb (existsb (fun l => swept validFileIds l
                                              && String.eqb (key o) (key l))
                                    listed))
            (objects b)),
       Ok (deletedCount
           + Z.of_nat (List.length (List.filter (swept validFileIds) listed)))).
Proof.
  induction listed as [|l listed IH]; intros b deletedCount Hup.
  - simpl. rewrite filter_all, Z.add_0_r. now destruct b.
  - cbn [List.fold_left cleanup_step]. fold (stem (key l)).
    fold (swept validFileIds l).
    cbn [List.filter existsb]. destruct (swept validFileIds l) eqn:Hl.
    + unfold deleteFile. rewrite Hup, IH by exact Hup.
      cbn [with_objects objects available]. rewrite filter_filter.
      f_equal; [f_equal | f_equal; cbn [List.length]; lia].
      apply List.filter_ext. intros o. cbn [andb].
      now destruct (String.eqb (key o) (key l)).
    + rewrite IH by exact Hup. reflexivity.
Qed.

Lemma cleanupOrphanedFiles_answering (validFileIds : list string)
    (b : R2Bucket) :
  available b = true ->
  let listed := List.firstn 1000 (objects b) in
  cleanupOrphanedFiles validFileIds b
  = (Ok (Z.of_nat (List.length (List.filter (swept validFileIds) listed))),
     with_objects b
       (List.filter
          (fun o => negb (existsb (fun l => swept validFileIds l
                                            && String.eqb (key o) (key l))
                                  listed))
          (objects b))).
Proof.
  intros Hup listed. unfold cleanupOrphanedFiles.
  rewrite listFiles_page, Hup. fold listed.
  rewrite cleanup_loop by exact Hup. reflexivity.
Qed.

(** A listed object whose stem is not among the valid ids is gone after
    the sweep, with every object of the same key. *)
Lemma sweep_deletes_foreign_stem (validFileIds : list string) (b : R2Bucket)
    (o : R2Object) :
  available b = true ->
  In o (List.firstn 1000 (objects b)) ->
  includes validFileIds (stem (key o)) = false ->
  ~ In (key o)
       (List.map key (objects (snd (cleanupOrphanedFiles validFileIds b)))).
Proof.
  intros Hup Hlisted Hstem. rewrite cleanupOrphanedFiles_answering by exact Hup.
  cbn [snd with_objects objects]. rewrite List.in_map_iff.
  intros (o' & Hkey & Hin). apply List.filter_In in Hin as [_ Hkeep].
  apply negb_true_iff in Hkeep.
  assert (Hex : existsb (fun l => swept validFileIds l
                                  && String.eqb (key o') (key l))
                        (List.firstn 1000 (objects b)) = true).
  { apply List.existsb_exists. exists o. split; [exact Hlisted |].
    unfold swept. rewrite Hstem, Hkey, String.eqb_refl. reflexivity. }
  congruence.
Qed.

(** An object stays when every listed object of its key has a valid
    stem. *)
Lemma sweep_keeps_valid_stem (validFileIds : list string) (b : R2Bucket)
    (o : R2Object) :
  available b = true ->
  In o (objects b) ->
  (forall l, In l (List.firstn 1000 (objects b)) -> key l = key o ->
             includes validFileIds (stem (key l)) = true) ->
  In o (objects (snd (cleanupOrphanedFiles validFileIds b))).
Proof.
  intros Hup Hin Hvalid. rewrite cleanupOrphanedFiles_answering by exact Hup.
  cbn [snd with_objects objects]. apply List.filter_In. split; [exact Hin |].
  apply negb_true_iff.
  destruct (existsb _ _) eqn:Hex; [| reflexivity].
  apply List.existsb_exists in Hex as (l & Hl & Hsw).
  apply andb_prop in Hsw as [Hsw Hk]. apply String.eqb_eq in Hk.
  unfold swept in Hsw. rewrite (Hvalid l Hl (eq_sym Hk)) in Hsw. discriminate.
Qed.

Lemma includes_length (ids : list string) (n : nat) (x : string) :
  Forall (fun id => String.length id = n) ids ->
  String.length x <> n -> includes ids x = false.
Proof.
  intros Hids Hx. unfold includes.
  induction Hids as [|id ids Hid _ IH]; simpl; [reflexivity |].
  rewrite IH, orb_false_r. apply String.eqb_neq. congruence.
Qed.

Lemma select_valid_file_ids_length (d : D1Database) (n : nat) :
  Forall (fun f => String.length (FileRecord.id f) = n) (files d) ->
  Forall (fun id => String.length id = n) (select_valid_file_ids d).
Proof.
  unfold select_valid_file_ids. intros H. apply List.Forall_map.
  apply List.Forall_forall. intros f Hf. apply List.filter_In in Hf as [Hf _].
  rewrite List.Forall_forall in H. apply H, Hf.
Qed.

(** The daily job on a database whose ids all have 12 characters: every
    listed object whose stem has another length is deleted. *)
Lemma daily_job_deletes_other_lengths (now now' : Z) (w : World)
    (o : R2Object) :
  available (bucket w) = true ->
  Forall (fun f => String.length (FileRecord.id f) = 12%nat) (files (db w)) ->
  In o (List.firstn 1000 (objects (bucket w))) ->
  String.length (stem (key o)) <> 12%nat ->
  ~ In (key o)
       (List.map key (objects (bucket (scheduled "0 2 * * *" now now' w)))).
Proof.
  intros Hup Hids Hlisted Hlen. unfold scheduled.
  cbn [DatabaseService.cleanupExpiredFiles
       DatabaseService.cleanupExpiredTextShares String.eqb Ascii.eqb
       Bool.eqb with_db db bucket].
  set (d2 := DatabaseService.update_text_shares _ _).
  pose proof (sweep_deletes_foreign_stem (select_valid_file_ids d2)
                (bucket w) o Hup Hlisted) as Hgone.
  destruct (cleanupOrphanedFiles (select_valid_file_ids d2) (bucket w))
    as [orphanedFiles b] eqn:E.
  cbn [with_bucket bucket snd] in *. apply Hgone.
  apply includes_length with (n := 12%nat); [| exact Hlen].
  apply select_valid_file_ids_length. subst d2. cbn [files].
  apply List.Forall_map. eapply List.Forall_impl; [| exact Hids].
  intros f Hf. cbn beta.
  destruct (DatabaseService.file_expired_live now f); exact Hf.
Qed.

End Reconciliation.

(** ** What an upload creates *)

Lemma pick_char_not_dot (b : Z) : Ascii.eqb (pick_char b) "." = false.
Proof.
  unfold pick_char.
  assert (H : (Z.to_nat (b mod 62) < 62)%nat)
    by (pose proof (Z.mod_pos_bound b 62); lia).
  generalize dependent (Z.to_nat (b mod 62)). intros n H.
  do 62 (destruct n as [|n]; [reflexivity |]). lia.
Qed.

Lemma generateId_no_dot (n : nat) (randomArray : nat -> Z) :
  no_dot (generateId n randomArray) = true.
Proof.
  unfold no_dot, generateId. rewrite list_ascii_of_string_of_list_ascii.
  apply forallb_forall. intros c Hc. apply List.in_map_iff in Hc as (i & <- & _).
  now rewrite pick_char_not_dot.
Qed.

Lemma stem_before_dot (s t : string) :
  no_dot s = true -> stem (s +:+ "." +:+ t) = s.
Proof.
  unfold stem, no_dot. induction s as [|c s IH]; intros Hs; [reflexivity |].
  simpl in Hs. apply andb_prop in Hs as [Hc Hs]. apply negb_true_iff in Hc.
  specialize (IH Hs). simpl. rewrite Hc.
  destruct (split "." (s +:+ "." +:+ t)) as [|piece pieces]; simpl in *;
    congruence.
Qed.

Lemma stem_without_dot (s : string) : no_dot s = true -> stem s = s.
Proof.
  unfold stem, no_dot. induction s as [|c s IH]; intros Hs; [reflexivity |].
  simpl in Hs. apply andb_prop in Hs as [Hc Hs]. apply negb_true_iff in Hc.
  specialize (IH Hs). simpl. rewrite Hc.
  destruct (split "." s) as [|piece pieces]; simpl in *; congruence.
Qed.

(** The stem of a storage name is its 16-character id, never the
    12-character id of the record. *)
Lemma stem_generateSecureFilename (name : string) (randomArray : nat -> Z) :
  stem (generateSecureFilename name randomArray) = generateId 16 randomArray.
Proof.
  unfold generateSecureFilename.
  destruct (truthy_string _).
  - apply stem_before_dot, generateId_no_dot.
  - apply stem_without_dot, generateId_no_dot.
Qed.

Lemma find_put (o : R2Object) (objs : list R2Object) :
  List.find (fun x => String.eqb (key x) (key o)) (StorageService.put o objs)
  = Some o.
Proof.
  induction objs as [|x objs IH]; simpl.
  - now rewrite String.eqb_refl.
  - destruct (String.compare (key o) (key x)) eqn:E; simpl.
    + now rewrite String.eqb_refl.
    + now rewrite String.eqb_refl.
    + destruct (String.eqb_spec (key x) (key o)) as [Heq|_]; [| exact IH].
      rewrite Heq in E. pose proof (String.compare_antisym (key o) (key o)) as A.
      rewrite E in A. discriminate.
Qed.

Lemma getFile_appended (id : string) (d : D1Database) (row : FileRecord.t) :
  existsb (DatabaseService.file_row_matches id) (files d) = false ->
  FileRecord.id row = id -> FileRecord.is_deleted row = false ->
  DatabaseService.getFile id
    (DatabaseService.update_files d (files d ++ [row])) = Some row.
Proof.
  intros Hnew Hid Hlive. unfold DatabaseService.getFile. simpl.
  induction (files d) as [|f l IH]; simpl in *.
  - unfold DatabaseService.file_row_matches.
    now rewrite Hid, String.eqb_refl, Hlive.
  - apply orb_false_elim in Hnew as [Hf Hl]. rewrite Hf. simpl. exact (IH Hl).
Qed.

(** A successful upload leaves a record that is found under its
    12-character id, with no downloads yet, the limit of the form and the
    expiry that the handler computed, and a blob under the storage name of
    the record, whose stem has 16 characters. *)
Lemma post_upload_created (env : Env) (form : UploadForm.t)
    (client_ip origin : string) (nameRandom idRandom : nat -> Z)
    (now now' : Z) (w w' : World) (data : Payload) :
  upload.post_upload env (Ok form) client_ip origin nameRandom idRandom
                     now now' w
  = (JsonSuccess 201 data, w') ->
  exists file record object,
    UploadForm.file form = Some file
    /\ DatabaseService.getFile (generateId 12 idRandom) (db w') = Some record
    /\ FileRecord.download_count record = 0
    /\ FileRecord.expires_at record
       = calculateExpiryDate (upload.expiryHours form) now
    /\ FileRecord.max_downloads record
       = match upload.maxDownloads form with
         | Some (Num n) => Some n
         | _ => None
         end
    /\ String.length (FileRecord.id record) = 12%nat
    /\ String.length (stem (FileRecord.filename record)) = 16%nat
    /\ StorageService.downloadFile (FileRecord.filename record) (bucket w')
       = Ok (Some object)
    /\ body object = File.bytes file
    /\ key object = FileRecord.filename record
    /\ files (db w') = files (db w) ++ [record]
    /\ objects (bucket w') = StorageService.put object (objects (bucket w))
    /\ available (bucket w') = true.
Proof.
  unfold upload.post_upload.
  destruct (UploadForm.file form) as [file|]; [| discriminate].
  destruct (uploadFileSchema _ _ _) eqn:Hschema; [| discriminate].
  destruct (isValidFileSize _ _); [| discriminate].
  destruct (isAllowedFileType _); [| discriminate].
  destruct (isValidExpiryHours _ _); [| discriminate].
  cbn [negb]. unfold DatabaseService.createFile.
  set (id := generateId 12 idRandom).
  set (name := generateSecureFilename _ nameRandom).
  destruct (existsb _ (files (db w))) eqn:Hnew; [discriminate |].
  unfold StorageService.uploadFile. cbn [with_db bucket db].
  destruct (available (bucket w)) eqn:Hup; [| discriminate].
  intros H. injection H as _ <-.
  eexists file, _, _. split; [reflexivity |].
  cbn [with_bucket db bucket FileRecord.id].
  split; [apply getFile_appended; [exact Hnew | reflexivity | reflexivity] |].
  cbn [FileRecord.download_count FileRecord.expires_at FileRecord.max_downloads
       FileRecord.id FileRecord.filename CreateFileInput.expires_at
       CreateFileInput.max_downloads CreateFileInput.filename].
  split; [reflexivity |]. split; [reflexivity |].
  split; [| split; [| split; [| split]]].
  - unfold uploadFileSchema in Hschema.
    destruct (upload.maxDownloads form) as [[|n]|]; try reflexivity.
    cbn [optional] in Hschema.
    unfold number_or_null, truthy_number.
    destruct (Z.eqb_spec n 0) as [->|_]; [| reflexivity].
    apply andb_prop in Hschema as [Hschema _].
    apply andb_prop in Hschema as [_ Hschema]. discriminate.
  - apply generateId_length.
  - subst name. rewrite stem_generateSecureFilename. apply generateId_length.
  - unfold StorageService.downloadFile, StorageService.with_objects.
    cbn [available objects]. rewrite Hup.
    f_equal. exact (find_put _ _).
  - repeat (split; [reflexivity |]).
    unfold StorageService.with_objects. cbn [available]. exact Hup.
Qed.

Lemma In_put (o : R2Object) (objs : list R2Object) :
  In o (StorageService.put o objs)
  /\ (List.length (StorageService.put o objs) <= S (List.length objs))%nat.
Proof.
  induction objs as [|x objs [IHin IHlen]]; simpl; [auto |].
  destruct (String.compare (key o) (key x)); simpl; auto with arith.
Qed.

Lemma find_absent_key (k : string) (objs : list R2Object) :
  ~ In k (List.map key objs) ->
  List.find (fun x => String.eqb (key x) k) objs = None.
Proof.
  induction objs as [|x objs IH]; simpl; [reflexivity |]. intros Hk.
  destruct (String.eqb_spec (key x) k) as [Heq|_]; [tauto | apply IH; tauto].
Qed.

Lemma scheduled_keeps_available (cron : string) (now now' : Z) (w : World) :
  available (bucket (scheduled cron now now' w)) = available (bucket w).
Proof.
  unfold scheduled. simpl. destruct (String.eqb cron _); [| reflexivity].
  unfold StorageService.cleanupOrphanedFiles. rewrite listFiles_page.
  cbn [with_db bucket].
  destruct (available (bucket w)) eqn:Hup; [| exact Hup].
  rewrite cleanup_loop by exact Hup. simpl. exact Hup.
Qed.

(** The defect behind C1 in general: after any successful upload into a
    bucket of fewer than 1000 objects, over records whose ids have 12
    characters as [createFile] draws them, the next daily job deletes the
    blob of the upload: it was fetched before the job and is [null]
    after it. *)
Lemma daily_job_deletes_the_upload (env : Env) (form : UploadForm.t)
    (client_ip origin : string) (nameRandom idRandom : nat -> Z)
    (now now' later later' : Z) (w w' : World) (data : Payload) :
  upload.post_upload env (Ok form) client_ip origin nameRandom idRandom
                     now now' w
  = (JsonSuccess 201 data, w') ->
  Forall (fun f => String.length (FileRecord.id f) = 12%nat) (files (db w)) ->
  (List.length (objects (bucket w)) < 1000)%nat ->
  exists record object,
    DatabaseService.getFile (generateId 12 idRandom) (db w') = Some record
    /\ StorageService.downloadFile (FileRecord.filename record) (bucket w')
       = Ok (Some object)
    /\ StorageService.downloadFile (FileRecord.filename record)
         (bucket (scheduled "0 2 * * *" later later' w'))
       = Ok None.
Proof.
  intros Hupload Hids Hsmall.
  destruct (post_upload_created _ _ _ _ _ _ _ _ _ _ _ Hupload)
    as (file & record & object & _ & Hget & _ & _ & _ & Hid & Hstem & Hblob
        & _ & Hkey & Hfiles & Hobjects & Hup).
  exists record, object. split; [exact Hget |]. split; [exact Hblob |].
  unfold StorageService.downloadFile.
  rewrite scheduled_keeps_available, Hup. f_equal.
  apply find_absent_key. rewrite <- Hkey.
  apply daily_job_deletes_other_lengths.
  - exact Hup.
  - rewrite Hfiles. apply Forall_app. split; [exact Hids |].
    constructor; [exact Hid | constructor].
  - rewrite Hobjects. destruct (In_put object (objects (bucket w))) as [Hin Hlen].
    rewrite List.firstn_all2 by lia. exact Hin.
  - rewrite Hkey, Hstem. discriminate.
Qed.

(** ** Scenarios *)

Example uploaded_world_contents :
  uploaded_world
  = {| db := {| files := [uploaded_record]; text_shares := [] |};
       bucket := {| objects := [uploaded_object]; available := true |} |}.
Proof. vm_compute. reflexivity. Qed.

(** C1, as the code has it: the daily job passes the ids of the live
    records (12 characters, drawn by [createFile]) where
    [cleanupOrphanedFiles] compares the first piece of each storage key
    (16 characters, drawn by [generateSecureFilename]).  After an upload
    and with one orphan in the bucket, the job deletes the orphan and the
    blob of the live record alike: the record is still found, and a
    download that was served before the job is answered 404 after it. *)
Theorem scheduled_sweep_deletes_live_blob :
  let swept := scheduled "0 2 * * *" 1000 1000 world_with_orphan in
  select_valid_file_ids (db world_with_orphan) = ["abcdefghijkl"]
  /\ List.map key (objects (bucket world_with_orphan))
     = ["ABCDEFGHIJKLMNOP.txt"; "ZZZZZZZZZZZZZZZZ.bin"]
  /\ List.map key (objects (bucket swept)) = []
  /\ DatabaseService.getFile "abcdefghijkl" (db swept) = Some uploaded_record
  /\ fst (download.post_download "abcdefghijkl" BadJson 2000 world_with_orphan)
     = FileBody [104; 105] "notes.txt" "text/plain" 2
  /\ fst (download.post_download "abcdefghijkl" BadJson 2000 swept)
     = JsonFailure 404 "File not found in storage".
Proof. vm_compute. repeat split. Qed.

(** The info route of a text share answers with the content of the
    record, whether or not the record has a password. *)
Lemma text_info_content (textShareId : string) (now now' : Z) (w : World)
    (textShare : TextShareRecord.t) :
  DatabaseService.getTextShare textShareId (db w) = Some textShare ->
  exists info,
    text.get_info textShareId now now' w
    = (JsonSuccess 200 (TextShareInfoData info), w)
    /\ TextShareInfoResponse.content info = TextShareRecord.content textShare
    /\ TextShareInfoResponse.has_password info
       = truthy_string (TextShareRecord.password_hash textShare).
Proof.
  intros Hget. unfold text.get_info. rewrite Hget.
  eexists. split; [reflexivity |]. split; reflexivity.
Qed.

(** The info route of a file answers with fields of the record only; the
    bucket is not read. *)
Lemma file_info_metadata (fileId : string) (now now' : Z) (d : D1Database)
    (b b' : R2Bucket) :
  fst (download.get_info fileId now now' {| db := d; bucket := b |})
  = fst (download.get_info fileId now now' {| db := d; bucket := b' |}).
Proof.
  unfold download.get_info. simpl.
  destruct (DatabaseService.getFile fileId d); reflexivity.
Qed.

(** C2, as the code has it: for a text share with a password, the view
    route without a password is answered "Password required", and the
    info route without a password is answered with the content. *)
Theorem text_info_reveals_protected_content :
  (exists textShare,
     DatabaseService.getTextShare "abcdefghijkl" (db text_world)
     = Some textShare
     /\ TextShareRecord.password_hash textShare
        = Some (hashPassword (js "secret123")))
  /\ fst (text.post_view "abcdefghijkl" (Accepted None) 5 text_world)
     = JsonFailure 401 "Password required"
  /\ exists info,
       fst (text.get_info "abcdefghijkl" 5 5 text_world)
       = JsonSuccess 200 (TextShareInfoData info)
       /\ TextShareInfoResponse.has_password info = true
       /\ TextShareInfoResponse.content info = "the launch code".
Proof.
  split; [| split].
  - eexists. split; vm_compute; reflexivity.
  - vm_compute. reflexivity.
  - eexists. split; [| split]; vm_compute; reflexivity.
Qed.

(** Scenarios A to D of the specification, on the handlers. *)
Example scenario_A :
  fst (download.post_download "abcdefghijkl" BadJson (61 * 60 * 1000)
         protected_world)
  = JsonFailure 410 "File has expired".
Proof. vm_compute. reflexivity. Qed.

Example scenario_B :
  let views :=
    run_views "abcdefghijkl" [(BadJson, 1); (BadJson, 2); (BadJson, 3)]
      limited_text_world in
  List.map status_of (fst views) = [200; 200; 403]
  /\ view_count_of "abcdefghijkl" (db (snd views)) = Some 2.
Proof. vm_compute. split; reflexivity. Qed.

Example scenario_C :
  let none := download.post_download "abcdefghijkl" (Accepted None) 5 in
  let wrong :=
    download.post_download "abcdefghijkl" (Accepted (Some (js "wrong"))) 5 in
  let right :=
    download.post_download "abcdefghijkl" (Accepted (Some (js "secret123"))) 5
  in
  none protected_world = (JsonFailure 401 "Password required", protected_world)
  /\ wrong protected_world
     = (JsonFailure 401 "Invalid password", protected_world)
  /\ fst (right protected_world)
     = FileBody [104; 105] "notes.txt" "text/plain" 2
  /\ download_count_of "abcdefghijkl" (db (snd (right protected_world)))
     = Some 1.
Proof. vm_compute. repeat split. Qed.

Example scenario_D :
  let deleted := DatabaseService.deleteFile "abcdefghijkl" (db uploaded_world) in
  let sweep := DatabaseService.cleanupExpiredFiles 90000000 deleted in
  fst sweep = 0
  /\ DatabaseService.getFile "abcdefghijkl" (snd sweep) = None.
Proof. vm_compute. split; reflexivity. Qed.

(** ** The theorems at concrete inputs *)

(** The password of scenario C and a wrong one. *)
Lemma password_round_trip_witness :
  verifyPassword (js "secret123") (hashPassword (js "secret123")) = true
  /\ verifyPassword (js "wrong") (hashPassword (js "secret123")) = false.
Proof.
  split.
  - apply (proj1 password_round_trip).
  - apply (proj1 (proj2 password_round_trip)). vm_compute. discriminate.
Defined.

(** The uploaded record, deleted, then counted and swept. *)
Lemma soft_delete_hides_and_sweep_is_idempotent_witness :
  DatabaseService.getFile "abcdefghijkl"
    (run_ops [IncrementDownloadCount "abcdefghijkl"; CleanupExpiredFiles 5]
       (DatabaseService.deleteFile "abcdefghijkl" (db uploaded_world)))
  = None.
Proof.
  apply (proj1 (proj2 soft_delete_hides_and_sweep_is_idempotent)).
  vm_compute. reflexivity.
Defined.



(** An empty file. *)
Lemma empty_upload_rejected_witness :
  exists message,
    upload.post_upload example_env
      (Ok (UploadForm.mk (Some (File.mk "empty.txt" "text/plain" []))
             (Numeral 24) Missing None))
      "203.0.113.9" "https://share.example" name_bytes id_bytes 0 0 empty_world
    = (JsonFailure 400 message, empty_world).
Proof.
  apply (proj1 (empty_upload_rejected example_env
                  (UploadForm.mk (Some (File.mk "empty.txt" "text/plain" []))
                     (Numeral 24) Missing None)
                  "203.0.113.9" "https://share.example" name_bytes id_bytes
                  0 0 empty_world)
           (File.mk "empty.txt" "text/plain" []));
    reflexivity.
Defined.

(** * Further properties of the code *)

(** ** utils/crypto.ts *)

Lemma pick_char_alphanumeric (b : Z) : alphanumeric (pick_char b) = true.
Proof.
  unfold pick_char.
  assert (H : (Z.to_nat (b mod 62) < 62)%nat)
    by (pose proof (Z.mod_pos_bound b 62); lia).
  generalize dependent (Z.to_nat (b mod 62)). intros n H.
  do 62 (destruct n as [|n]; [reflexivity |]). lia.
Qed.

(** X1: [generateId(n)] is a string of exactly [n] characters, each a
    letter or a digit, whatever the random bytes. *)
Theorem generateId_alphabet (n : nat) (randomArray : nat -> Z) :
  String.length (generateId n randomArray) = n
  /\ all_chars alphanumeric (generateId n randomArray) = true.
Proof.
  split; [apply generateId_length |].
  unfold all_chars, generateId. rewrite list_ascii_of_string_of_list_ascii.
  apply forallb_forall. intros c Hc.
  apply List.in_map_iff in Hc as (i & <- & _). apply pick_char_alphanumeric.
Qed.

(** X2: the characters of an id are not equally likely.  Of the 256
    values of a random byte, five give each of the letters A to H and four
    give each other character of the alphabet, because 256 is not a
    multiple of 62. *)
Theorem generateId_modulo_bias (c : ascii) :
  In c (list_ascii_of_string chars) ->
  byte_values_for c
  = if existsb (Ascii.eqb c) (list_ascii_of_string "ABCDEFGH")
    then 5%nat else 4%nat.
Proof.
  intros Hc.
  assert (Hall : forallb
            (fun c => Nat.eqb (byte_values_for c)
                        (if existsb (Ascii.eqb c)
                              (list_ascii_of_string "ABCDEFGH")
                         then 5%nat else 4%nat))
            (list_ascii_of_string chars) = true)
    by (vm_compute; reflexivity).
  rewrite forallb_forall in Hall. apply Nat.eqb_eq, Hall, Hc.
Qed.

Lemma generateId_modulo_bias_witness :
  byte_values_for "A" = 5%nat /\ byte_values_for "9" = 4%nat.
Proof.
  split.
  - apply (generateId_modulo_bias "A"). vm_compute. tauto.
  - apply (generateId_modulo_bias "9"). vm_compute. tauto.
Defined.

Lemma chars_map_string (f : ascii -> ascii) (s : string) :
  list_ascii_of_string (map_string f s) = List.map f (list_ascii_of_string s).
Proof. unfold map_string. apply list_ascii_of_string_of_list_ascii. Qed.

Lemma substring_length (m : nat) (s : string) :
  (String.length (String.substring 0 m s) <= m)%nat.
Proof.
  revert s. induction m as [|m IH]; intros [|c s]; simpl; try lia.
  specialize (IH s). lia.
Qed.

Lemma substring_all (m : nat) (s : string) :
  (String.length s <= m)%nat -> String.substring 0 m s = s.
Proof.
  revert s. induction m as [|m IH]; intros [|c s]; simpl; intros H;
    try reflexivity; try lia.
  rewrite IH by lia. reflexivity.
Qed.

Lemma substring_chars (p : ascii -> bool) (m : nat) (s : string) :
  all_chars p s = true -> all_chars p (String.substring 0 m s) = true.
Proof.
  unfold all_chars. revert s.
  induction m as [|m IH]; intros [|c s]; simpl; intros H; try reflexivity.
  apply andb_prop in H as [Hc Hs]. now rewrite Hc, IH.
Qed.

Lemma collapse_spaces_safe (in_run : bool) (s : string) :
  all_chars (fun c => negb (unsafe_char c)) s = true ->
  all_chars safe_char (collapse_spaces in_run s) = true.
Proof.
  unfold all_chars, safe_char. revert in_run.
  induction s as [|c s IH]; intros in_run H; simpl in *; [reflexivity |].
  apply andb_prop in H as [Hc Hs].
  destruct (space_char c) eqn:Hsp.
  - destruct in_run; simpl; auto.
  - simpl. rewrite Hc, Hsp. simpl. auto.
Qed.

Lemma collapse_spaces_none (in_run : bool) (s : string) :
  all_chars (fun c => negb (space_char c)) s = true ->
  collapse_spaces in_run s = s.
Proof.
  unfold all_chars. revert in_run.
  induction s as [|c s IH]; intros in_run H; simpl in *; [reflexivity |].
  apply andb_prop in H as [Hc Hs]. apply negb_true_iff in Hc.
  rewrite Hc, IH by exact Hs. reflexivity.
Qed.

(** A name of safe characters and at most 255 of them is left as it
    is. *)
Lemma sanitizeFilename_fixpoint (s : string) :
  all_chars safe_char s = true -> (String.length s <= 255)%nat ->
  sanitizeFilename s = s.
Proof.
  intros Hsafe Hlen. unfold sanitizeFilename.
  assert (Hmap : map_string (fun c => if unsafe_char c then "_"%char else c) s
                 = s).
  { unfold map_string. rewrite <- (string_of_list_ascii_of_string s) at 2.
    f_equal. unfold all_chars in Hsafe.
    induction (list_ascii_of_string s) as [|c l IH]; simpl in *; [reflexivity |].
    apply andb_prop in Hsafe as [Hc Hl]. unfold safe_char in Hc.
    apply andb_prop in Hc as [Hc _]. apply negb_true_iff in Hc.
    now rewrite Hc, IH. }
  rewrite Hmap, collapse_spaces_none, substring_all; [reflexivity | exact Hlen |].
  unfold all_chars in *. rewrite forallb_forall in *. intros c Hc.
  specialize (Hsafe c Hc). unfold safe_char in Hsafe.
  now apply andb_prop in Hsafe as [_ ?].
Qed.

Lemma sanitizeFilename_chars (filename : string) :
  (String.length (sanitizeFilename filename) <= 255)%nat
  /\ all_chars safe_char (sanitizeFilename filename) = true.
Proof.
  split; [apply substring_length |].
  unfold sanitizeFilename. apply substring_chars, collapse_spaces_safe.
  unfold all_chars. rewrite chars_map_string. apply forallb_forall.
  intros c Hc. apply List.in_map_iff in Hc as (c0 & <- & _).
  destruct (unsafe_char c0) eqn:E; [reflexivity | now rewrite E].
Qed.

(** X3: a sanitized name has at most 255 characters, none of them one
    of the nine unsafe characters or a white space, and sanitizing it
    again changes nothing. *)
Theorem sanitizeFilename_safe (filename : string) :
  (String.length (sanitizeFilename filename) <= 255)%nat
  /\ all_chars safe_char (sanitizeFilename filename) = true
  /\ sanitizeFilename (sanitizeFilename filename) = sanitizeFilename filename.
Proof.
  destruct (sanitizeFilename_chars filename) as [Hlen Hsafe].
  split; [exact Hlen |]. split; [exact Hsafe |].
  apply sanitizeFilename_fixpoint; assumption.
Qed.

Lemma round_length (st : list Z * list Z) (k : Z) :
  List.length (fst (SHA256.round st k)) = List.length (fst st).
Proof.
  destruct st as [[|a [|b [|c [|d [|e [|f [|g [|h [|i l]]]]]]]]] w];
    reflexivity.
Qed.

Lemma rounds_length (ks : list Z) (st : list Z * list Z) :
  List.length (fst (List.fold_left SHA256.round ks st)) = List.length (fst st).
Proof.
  revert st. induction ks as [|k ks IH]; intros st; simpl; [reflexivity |].
  now rewrite IH, round_length.
Qed.

Lemma compress_length (hash block : list Z) :
  List.length (SHA256.compress hash block) = List.length hash.
Proof.
  unfold SHA256.compress.
  rewrite List.length_map, List.length_combine, rounds_length. simpl. lia.
Qed.

Lemma digest_length (msg : list Z) : List.length (SHA256.digest msg) = 32%nat.
Proof.
  unfold SHA256.digest.
  set (bs := SHA256.blocks _ _). clearbody bs.
  assert (H : forall h, List.length (List.fold_left SHA256.compress bs h)
                        = List.length h).
  { induction bs as [|b bs IH]; intros h; simpl; [reflexivity |].
    now rewrite IH, compress_length. }
  specialize (H SHA256.initial_state).
  destruct (List.fold_left SHA256.compress bs SHA256.initial_state)
    as [|a [|b [|c [|d [|e [|f [|g [|h [|i l]]]]]]]]]; try discriminate.
  reflexivity.
Qed.

Lemma hex_digit_char (x : Z) : 0 <= x < 16 -> hex_char (hex_digit x) = true.
Proof.
  intros Hx. unfold hex_digit.
  assert (Hn : (Z.to_nat x < 16)%nat) by lia.
  generalize dependent (Z.to_nat x). intros n Hn.
  do 16 (destruct n as [|n]; [reflexivity |]). lia.
Qed.

Lemma chars_append (s t : string) :
  list_ascii_of_string (s +:+ t)
  = list_ascii_of_string s ++ list_ascii_of_string t.
Proof. induction s as [|c s IH]; simpl; [reflexivity | now rewrite IH]. Qed.

Lemma all_chars_append (p : ascii -> bool) (s t : string) :
  all_chars p (s +:+ t) = all_chars p s && all_chars p t.
Proof. unfold all_chars. now rewrite chars_append, forallb_app. Qed.

Lemma hex_shape (bs : list Z) :
  Forall is_byte bs ->
  String.length (hex bs) = (2 * List.length bs)%nat
  /\ all_chars hex_char (hex bs) = true.
Proof.
  induction 1 as [|b bs Hb _ [IHlen IHall]]; [split; reflexivity |].
  change (hex (b :: bs)) with (hex_byte b +:+ hex bs).
  rewrite length_append, all_chars_append, IHlen, IHall.
  unfold is_byte in Hb. unfold hex_byte, all_chars.
  cbn [String.length list_ascii_of_string forallb List.length].
  rewrite !hex_digit_char.
  - split; [lia | reflexivity].
  - apply Z.mod_pos_bound. lia.
  - split; [apply Z.div_pos | apply Z.div_lt_upper_bound]; lia.
Qed.

(** X4: the hash of any password is a text of exactly 64 characters, each
    a digit or a letter from a to f; so a stored hash is never empty and
    the handlers always see the record as protected. *)
Theorem hashPassword_shape (password : jsstring) :
  String.length (hashPassword password) = 64%nat
  /\ all_chars hex_char (hashPassword password) = true
  /\ truthy_string (Some (hashPassword password)) = true.
Proof.
  unfold hashPassword.
  destruct (hex_shape (SHA256.digest (encode password)) (digest_bytes _))
    as [Hlen Hall].
  rewrite digest_length in Hlen. split; [exact Hlen |]. split; [exact Hall |].
  unfold truthy_string.
  destruct (hex (SHA256.digest (encode password))); [discriminate | reflexivity].
Qed.

Lemma split_pieces (p : ascii -> bool) (s : string) :
  all_chars p s = true ->
  Forall (fun piece => all_chars p piece = true
                       /\ no_dot piece = true
                       /\ (String.length piece <= String.length s)%nat)
         (split "." s).
Proof.
  unfold all_chars, no_dot.
  induction s as [|a s IH]; intros H; simpl in *.
  - constructor; [auto | constructor].
  - apply andb_prop in H as [Ha Hs]. specialize (IH Hs).
    destruct (Ascii.eqb a ".") eqn:Ea.
    + constructor; [simpl; auto with arith |].
      eapply List.Forall_impl; [| exact IH]. intros piece (? & ? & ?).
      simpl. auto.
    + destruct (split "." s) as [|piece pieces]; [constructor; [| constructor] |].
      * simpl. rewrite Ha, Ea. simpl. auto with arith.
      * inversion IH as [|? ? (Hp & Hd & Hl) Hrest]; subst.
        constructor.
        -- simpl. rewrite Ha, Ea, Hp, Hd. simpl. auto with arith.
        -- eapply List.Forall_impl; [| exact Hrest]. intros q (? & ? & ?).
           simpl. auto.
Qed.

Lemma Forall_last {A} (P : A -> Prop) (l : list A) (d : A) :
  Forall P l -> P d -> P (List.last l d).
Proof.
  induction 1 as [|a l Ha Hl IH]; intros Hd; [exact Hd |].
  destruct l; [exact Ha | exact (IH Hd)].
Qed.

Lemma pick_char_safe (b : Z) : safe_char (pick_char b) = true.
Proof.
  unfold pick_char.
  assert (H : (Z.to_nat (b mod 62) < 62)%nat)
    by (pose proof (Z.mod_pos_bound b 62); lia).
  generalize dependent (Z.to_nat (b mod 62)). intros n H.
  do 62 (destruct n as [|n]; [reflexivity |]). lia.
Qed.

Lemma generateId_safe (n : nat) (randomArray : nat -> Z) :
  all_chars safe_char (generateId n randomArray) = true.
Proof.
  unfold all_chars, generateId. rewrite list_ascii_of_string_of_list_ascii.
  apply forallb_forall. intros c Hc.
  apply List.in_map_iff in Hc as (i & <- & _). apply pick_char_safe.
Qed.

(** X5: the storage key that the upload handler derives from a file
    name is the 16-character id alone, or the id, one dot and the last
    dot-free piece of the sanitized name.  It therefore holds no slash,
    backslash, white space or other unsafe character, at most one dot,
    and at most 272 characters. *)
Theorem storage_key_shape (name : string) (randomArray : nat -> Z) :
  let k := generateSecureFilename (sanitizeFilename name) randomArray in
  let id := generateId 16 randomArray in
  (k = id
   \/ exists extension,
        k = id +:+ "." +:+ extension
        /\ extension <> ""
        /\ no_dot extension = true
        /\ (String.length extension <= 255)%nat)
  /\ all_chars safe_char k = true
  /\ (String.length k <= 272)%nat.
Proof.
  intros k id. subst k. unfold generateSecureFilename. fold id.
  destruct (sanitizeFilename_chars name) as [Hlen Hsafe].
  pose proof (Forall_last _ _ ""
                (split_pieces safe_char (sanitizeFilename name) Hsafe)) as Hext.
  cbv beta in Hext. fold (pop (split "." (sanitizeFilename name))) in Hext.
  destruct Hext as (Hes & Hed & Hel); [repeat split; auto with arith |].
  set (extension := pop (split "." (sanitizeFilename name))) in *.
  assert (Hid : String.length id = 16%nat) by apply generateId_length.
  unfold truthy_string.
  destruct (String.eqb_spec extension "") as [Hempty | Hfull]; cbn [negb].
  - split; [left; reflexivity |]. split; [apply generateId_safe | lia].
  - split; [right; exists extension; repeat split; auto; lia |].
    split.
    + rewrite !all_chars_append, Hes. unfold id.
      rewrite generateId_safe. reflexivity.
    + rewrite !length_append, Hid. simpl. lia.
Qed.

(** ** services/storage.ts *)

Lemma find_put_other (o : R2Object) (objs : list R2Object) (k : string) :
  k <> key o ->
  List.find (fun x => String.eqb (key x) k) (StorageService.put o objs)
  = List.find (fun x => String.eqb (key x) k) objs.
Proof.
  intros Hk.
  assert (Ho : String.eqb (key o) k = false) by (apply String.eqb_neq; auto).
  induction objs as [|x objs IH]; simpl; [now rewrite Ho |].
  destruct (String.compare (key o) (key x)) eqn:E; simpl.
  - apply String.compare_eq_iff in E. rewrite <- E, Ho. reflexivity.
  - rewrite Ho. reflexivity.
  - rewrite IH. reflexivity.
Qed.

Lemma with_objects_same (b : R2Bucket) :
  StorageService.with_objects b (objects b) = b.
Proof. now destruct b. Qed.

Lemma find_filter_key (k k' : string) (objs : list R2Object) :
  List.find (fun x => String.eqb (key x) k')
    (List.filter (fun o => negb (String.eqb (key o) k)) objs)
  = if String.eqb k' k then None
    else List.find (fun x => String.eqb (key x) k') objs.
Proof.
  induction objs as [|x objs IH]; simpl; [now destruct (String.eqb k' k) |].
  destruct (String.eqb_spec (key x) k) as [Hx|Hx]; simpl.
  - rewrite IH. destruct (String.eqb_spec k' k) as [Hk|Hk]; [reflexivity |].
    destruct (String.eqb_spec (key x) k'); [congruence | reflexivity].
  - destruct (String.eqb_spec (key x) k') as [Hx'|Hx'].
    + destruct (String.eqb_spec k' k); [congruence | reflexivity].
    + exact IH.
Qed.

Lemma filter_absent_key (k : string) (objs : list R2Object) :
  List.find (fun x => String.eqb (key x) k) objs = None ->
  List.filter (fun o => negb (String.eqb (key o) k)) objs = objs.
Proof.
  induction objs as [|x objs IH]; simpl; [reflexivity |].
  destruct (String.eqb (key x) k); [discriminate |]. simpl.
  intros H. now rewrite IH.
Qed.

(** X6: on an answering bucket, what [uploadFile] stores under a key
    is what [downloadFile] returns for that key, with the metadata given;
    [fileExists] says so; and every other key reads as before.  A second
    upload under the same key replaces the first. *)
Theorem blob_round_trip (k : string) (data : list Z)
    (metadata : option (list (string * string))) (b : R2Bucket)
    (Hup : available b = true) :
  let b' := snd (StorageService.uploadFile k data metadata b) in
  StorageService.downloadFile k b'
  = Ok (Some {| key := k; body := data;
                customMetadata := default [] metadata |})
  /\ StorageService.fileExists k b' = Ok true
  /\ (forall k', k' <> k ->
        StorageService.downloadFile k' b' = StorageService.downloadFile k' b)
  /\ (forall data',
        StorageService.downloadFile k
          (snd (StorageService.uploadFile k data' None b'))
        = Ok (Some {| key := k; body := data'; customMetadata := [] |})).
Proof.
  unfold StorageService.uploadFile, StorageService.downloadFile,
    StorageService.fileExists, StorageService.head. rewrite Hup.
  cbn [snd StorageService.with_objects available objects]. rewrite Hup.
  set (o := {| key := k; body := data; customMetadata := default [] metadata |}).
  pose proof (find_put o (objects b)) as Hfind. cbn [key o] in Hfind.
  rewrite Hfind. repeat split.
  - intros k' Hk'. f_equal. apply (find_put_other o). exact Hk'.
  - intros data'. cbn [snd StorageService.with_objects available objects].
    rewrite Hup. f_equal.
    exact (find_put {| key := k; body := data'; customMetadata := [] |} _).
Qed.

Lemma blob_round_trip_witness :
  StorageService.downloadFile "a.txt"
    (snd (StorageService.uploadFile "a.txt" [1; 2] None (bucket uploaded_world)))
  = Ok (Some {| key := "a.txt"; body := [1; 2]; customMetadata := [] |}).
Proof.
  apply (blob_round_trip "a.txt" [1; 2] None (bucket uploaded_world)).
  reflexivity.
Defined.

(** X7: on an answering bucket, after [deleteFile] the key reads as
    [null] and [fileExists] is false, every other key reads as before,
    deleting again changes nothing, and deleting a key that is not stored
    leaves the bucket as it is. *)
Theorem blob_delete (k : string) (b : R2Bucket) (Hup : available b = true) :
  let b' := snd (StorageService.deleteFile k b) in
  StorageService.downloadFile k b' = Ok None
  /\ StorageService.fileExists k b' = Ok false
  /\ (forall k', k' <> k ->
        StorageService.downloadFile k' b' = StorageService.downloadFile k' b)
  /\ StorageService.deleteFile k b' = (Ok tt, b')
  /\ (StorageService.downloadFile k b = Ok None ->
      StorageService.deleteFile k b = (Ok tt, b)).
Proof.
  unfold StorageService.deleteFile, StorageService.downloadFile,
    StorageService.fileExists, StorageService.head. rewrite Hup.
  cbn [snd StorageService.with_objects available objects]. rewrite Hup.
  rewrite find_filter_key, String.eqb_refl. repeat split.
  - intros k' Hk'. rewrite find_filter_key.
    destruct (String.eqb_spec k' k); [contradiction | reflexivity].
  - f_equal. unfold StorageService.with_objects. cbn [objects available].
    f_equal. apply filter_absent_key. rewrite find_filter_key.
    now rewrite String.eqb_refl.
  - intros Habsent. injection Habsent as Habsent.
    rewrite (filter_absent_key _ _ Habsent), with_objects_same. reflexivity.
Qed.

Lemma blob_delete_witness :
  StorageService.downloadFile "ABCDEFGHIJKLMNOP.txt"
    (snd (StorageService.deleteFile "ABCDEFGHIJKLMNOP.txt"
            (bucket uploaded_world)))
  = Ok None.
Proof.
  apply (blob_delete "ABCDEFGHIJKLMNOP.txt" (bucket uploaded_world)).
  reflexivity.
Defined.

Lemma filter_split_length {A} (p : A -> bool) (l : list A) :
  (List.length (List.filter (fun x => negb (p x)) l)
   = List.length l - List.length (List.filter p l))%nat
  /\ (List.length (List.filter p l) <= List.length l)%nat.
Proof.
  induction l as [|a l [IH1 IH2]]; simpl; [auto |].
  destruct (p a); simpl; lia.
Qed.

Lemma filter_twice {A} (p : A -> bool) (l : list A) :
  List.filter p (List.filter p l) = List.filter p l.
Proof.
  induction l as [|a l IH]; simpl; [reflexivity |].
  destruct (p a) eqn:E; simpl; [rewrite E |]; now rewrite ?IH.
Qed.

Lemma cleanupOrphanedFiles_one_page (validFileIds : list string)
    (b : R2Bucket) :
  available b = true -> (List.length (objects b) <= 1000)%nat ->
  StorageService.cleanupOrphanedFiles validFileIds b
  = (Ok (Z.of_nat (List.length (objects b)
                   - List.length (with_valid_stem validFileIds (objects b)))),
     StorageService.with_objects b (with_valid_stem validFileIds (objects b))).
Proof.
  intros Hup Hpage.
  rewrite cleanupOrphanedFiles_answering by exact Hup.
  rewrite List.firstn_all2 by exact Hpage. unfold with_valid_stem.
  f_equal.
  - f_equal. f_equal. unfold swept.
    apply (filter_split_length
             (fun o => includes validFileIds (stem (key o)))).
  - f_equal. apply List.filter_ext_in. intros o Ho.
    destruct (includes validFileIds (stem (key o))) eqn:Hv.
    + apply negb_true_iff.
      destruct (existsb _ (objects b)) eqn:Hex; [| reflexivity].
      apply List.existsb_exists in Hex as (l & _ & Hl).
      apply andb_prop in Hl as [Hl Hk]. apply String.eqb_eq in Hk.
      unfold swept in Hl. rewrite <- Hk, Hv in Hl. discriminate.
    + apply negb_false_iff, List.existsb_exists. exists o.
      split; [exact Ho |]. unfold swept.
      now rewrite Hv, String.eqb_refl.
Qed.

(** X8: on an answering bucket of at most 1000 objects,
    [cleanupOrphanedFiles] keeps exactly the objects whose key, up to its
    first dot, is one of the valid ids, returns the number of objects it
    removed, and run again with the same ids removes nothing. *)
Theorem orphan_sweep_exact (validFileIds : list string) (b : R2Bucket)
    (Hup : available b = true)
    (Hpage : (List.length (objects b) <= 1000)%nat) :
  let kept := with_valid_stem validFileIds (objects b) in
  StorageService.cleanupOrphanedFiles validFileIds b
  = (Ok (Z.of_nat (List.length (objects b) - List.length kept)),
     StorageService.with_objects b kept)
  /\ StorageService.cleanupOrphanedFiles validFileIds
       (StorageService.with_objects b kept)
     = (Ok 0, StorageService.with_objects b kept).
Proof.
  intros kept. split; [exact (cleanupOrphanedFiles_one_page _ b Hup Hpage) |].
  assert (Hkept : (List.length kept <= 1000)%nat).
  { pose proof (filter_split_length
                  (fun o => includes validFileIds (stem (key o))) (objects b))
      as [_ Hle]. unfold kept, with_valid_stem. lia. }
  rewrite cleanupOrphanedFiles_one_page;
    cbn [StorageService.with_objects objects available];
    [| exact Hup | exact Hkept].
  unfold kept, with_valid_stem. rewrite filter_twice, Nat.sub_diag.
  reflexivity.
Qed.

Lemma orphan_sweep_exact_witness :
  StorageService.cleanupOrphanedFiles ["ABCDEFGHIJKLMNOP"]
    (bucket world_with_orphan)
  = (Ok 1, bucket uploaded_world).
Proof.
  rewrite (proj1 (orphan_sweep_exact ["ABCDEFGHIJKLMNOP"]
                    (bucket world_with_orphan) eq_refl ltac:(vm_compute; lia))).
  vm_compute. reflexivity.
Defined.

(** X9: [cleanupOrphanedFiles] reads one page of the listing.  It never
    removes more than 1000 objects in a run, and an object whose key is
    not on the first page of 1000 stays in the bucket whatever the valid
    ids are. *)
Theorem orphan_sweep_first_page_only (validFileIds : list string)
    (b : R2Bucket) (Hup : available b = true) :
  (exists deletedCount,
     fst (StorageService.cleanupOrphanedFiles validFileIds b) = Ok deletedCount
     /\ 0 <= deletedCount <= 1000)
  /\ (forall o,
        In o (objects b) ->
        ~ In (key o) (List.map key (List.firstn 1000 (objects b))) ->
        In o (objects (snd (StorageService.cleanupOrphanedFiles
                              validFileIds b)))).
Proof.
  split.
  - rewrite cleanupOrphanedFiles_answering by exact Hup. eexists.
    split; [reflexivity |].
    pose proof (filter_split_length (swept validFileIds)
                  (List.firstn 1000 (objects b))) as [_ Hle].
    pose proof (List.firstn_le_length 1000 (objects b)). lia.
  - intros o Hin Hfar. apply sweep_keeps_valid_stem; [exact Hup | exact Hin |].
    intros l Hl Hk. exfalso. apply Hfar. rewrite <- Hk.
    now apply List.in_map.
Qed.

Lemma orphan_sweep_first_page_only_witness :
  exists deletedCount,
    fst (StorageService.cleanupOrphanedFiles [] (bucket world_with_orphan))
    = Ok deletedCount
    /\ 0 <= deletedCount <= 1000.
Proof.
  refine (proj1 (orphan_sweep_first_page_only [] (bucket world_with_orphan) _)).
  vm_compute. reflexivity.
Defined.

Lemma total_size_nonneg (objs : list R2Object) : 0 <= total_size objs.
Proof.
  unfold total_size, StorageService.size.
  induction objs as [|o l IH]; simpl; lia.
Qed.

Lemma stats_loop (listed : list R2Object) (n s : Z) :
  List.fold_left
    (fun totals object =>
       (fst totals + 1, snd totals + StorageService.size object))
    listed (n, s)
  = (n + Z.of_nat (List.length listed), s + total_size listed).
Proof.
  unfold total_size. revert n s.
  induction listed as [|o l IH]; intros n s; simpl.
  - now rewrite !Z.add_0_r.
  - rewrite IH. f_equal; lia.
Qed.

(** X10: the statistics cover one page of the listing: on an answering
    bucket [getStorageStats] reports the number of objects, but never
    more than 1000, and the total size of the objects counted, which is
    not negative. *)
Theorem storage_stats_first_page (b : R2Bucket) (Hup : available b = true) :
  StorageService.getStorageStats b
  = Ok (Z.of_nat (Nat.min 1000 (List.length (objects b))),
        total_size (List.firstn 1000 (objects b)))
  /\ 0 <= total_size (List.firstn 1000 (objects b)).
Proof.
  split; [| apply total_size_nonneg].
  unfold StorageService.getStorageStats. rewrite listFiles_page, Hup.
  rewrite stats_loop, List.length_firstn. reflexivity.
Qed.

Lemma storage_stats_first_page_witness :
  StorageService.getStorageStats (bucket world_with_orphan) = Ok (2, 5).
Proof.
  rewrite (proj1 (storage_stats_first_page (bucket world_with_orphan) eq_refl)).
  vm_compute. reflexivity.
Defined.

(** ** services/database.ts *)

Lemma existsb_file_ids (id : string) (d : D1Database) :
  existsb (DatabaseService.file_row_matches id) (files d) = false ->
  ~ In id (file_ids d).
Proof.
  unfold file_ids, DatabaseService.file_row_matches.
  induction (files d) as [|f l IH]; simpl; [tauto |].
  intros H. apply orb_false_elim in H as [Hf Hl].
  apply String.eqb_neq in Hf. intros [Heq | Hin]; [congruence | exact (IH Hl Hin)].
Qed.

Lemma existsb_text_ids (id : string) (d : D1Database) :
  existsb (DatabaseService.text_row_matches id) (text_shares d) = false ->
  ~ In id (text_ids d).
Proof.
  unfold text_ids, DatabaseService.text_row_matches.
  induction (text_shares d) as [|s l IH]; simpl; [tauto |].
  intros H. apply orb_false_elim in H as [Hs Hl].
  apply String.eqb_neq in Hs. intros [Heq | Hin]; [congruence | exact (IH Hl Hin)].
Qed.

Lemma getFile_other_appended (id id' : string) (d : D1Database)
    (row : FileRecord.t) :
  FileRecord.id row = id -> id' <> id ->
  DatabaseService.getFile id'
    (DatabaseService.update_files d (files d ++ [row]))
  = DatabaseService.getFile id' d.
Proof.
  intros Hrow Hne. unfold DatabaseService.getFile. simpl.
  induction (files d) as [|f l IH]; simpl.
  - unfold DatabaseService.file_row_matches. rewrite Hrow.
    destruct (String.eqb_spec id id'); [congruence | reflexivity].
  - destruct (_ && _); [reflexivity | exact IH].
Qed.

(** X11: [createFile] draws a 12-character id.  When no row has it, the
    row is inserted with no downloads and not deleted, with a limit of 0,
    an empty password hash and an empty address stored as NULL; it is
    found under its id at once, and every other id reads as before.  When
    a row already has the id, the call throws and the database is as it
    was: no record is overwritten. *)
Theorem createFile_stores (input : CreateFileInput.t) (randomArray : nat -> Z)
    (now : Z) (d : D1Database) :
  let id := generateId 12 randomArray in
  let d' := snd (DatabaseService.createFile input randomArray now d) in
  (existsb (DatabaseService.file_row_matches id) (files d) = true ->
   DatabaseService.createFile input randomArray now d = (Throw, d))
  /\ (existsb (DatabaseService.file_row_matches id) (files d) = false ->
      files d' = files d ++ [inserted_file input id now]
      /\ text_shares d' = text_shares d
      /\ DatabaseService.getFile id d' = Some (inserted_file input id now)
      /\ (forall id', id' <> id ->
            DatabaseService.getFile id' d' = DatabaseService.getFile id' d)
      /\ exists returned,
           fst (DatabaseService.createFile input randomArray now d)
           = Ok returned
           /\ FileRecord.id returned = id
           /\ FileRecord.download_count returned = 0).
Proof.
  intros id d'. subst d'. unfold DatabaseService.createFile. fold id.
  split; intros Hid; rewrite Hid; [reflexivity |].
  cbn [snd fst]. split; [reflexivity |]. split; [reflexivity |].
  split; [apply getFile_appended; [exact Hid | reflexivity | reflexivity] |].
  split; [intros id' Hne; now apply (getFile_other_appended id) |].
  eexists. split; [reflexivity |]. split; reflexivity.
Qed.

Lemma createFile_stores_witness :
  DatabaseService.createFile
    (CreateFileInput.mk "k.txt" "n.txt" "text/plain" 1 None 10 None None)
    id_bytes 0 (db uploaded_world)
  = (Throw, db uploaded_world).
Proof.
  apply (createFile_stores
           (CreateFileInput.mk "k.txt" "n.txt" "text/plain" 1 None 10 None None)
           id_bytes 0 (db uploaded_world)).
  vm_compute. reflexivity.
Defined.

Lemma map_id_update {A B} (key_of : A -> B) (g : A -> A) (l : list A) :
  (forall a, key_of (g a) = key_of a) ->
  List.map key_of (List.map g l) = List.map key_of l.
Proof.
  intros H. rewrite List.map_map. apply List.map_ext. exact H.
Qed.

Lemma NoDup_snoc {A} (l : list A) (a : A) :
  NoDup l -> ~ In a l -> NoDup (l ++ [a]).
Proof.
  intros Hl Ha. apply NoDup_ListNoDup. apply NoDup_ListNoDup in Hl.
  induction l as [|x l IH]; simpl.
  - constructor; [simpl; tauto | constructor].
  - inversion Hl as [|? ? Hx Hl']; subst. constructor.
    + rewrite List.in_app_iff. simpl. intros [H|[H|[]]]; [contradiction |].
      subst. apply Ha. now left.
    + apply IH; [exact Hl' |]. intros H. apply Ha. now right.
Qed.

Lemma ids_step (d : D1Database) (op : db_op) :
  NoDup (file_ids d) /\ NoDup (text_ids d) ->
  NoDup (file_ids (run_op d op)) /\ NoDup (text_ids (run_op d op)).
Proof.
  intros [Hf Ht]. unfold file_ids, text_ids in *.
  destruct op; simpl;
    try (rewrite map_id_update;
         [split; assumption
         | intros r;
           repeat match goal with
                  | |- context [if ?b then _ else _] => destruct b
                  end; reflexivity]).
  - unfold DatabaseService.createFile.
    destruct (existsb _ (files d)) eqn:E; simpl; [split; assumption |].
    split; [| assumption]. rewrite List.map_app. simpl.
    apply NoDup_snoc; [assumption |]. exact (existsb_file_ids _ _ E).
  - unfold DatabaseService.createTextShare.
    destruct (existsb _ (text_shares d)) eqn:E; simpl; [split; assumption |].
    split; [assumption |]. rewrite List.map_app. simpl.
    apply NoDup_snoc; [assumption |]. exact (existsb_text_ids _ _ E).
Qed.

(** X12: the ids stay primary keys.  If no two rows of a table share an
    id, no sequence of writes of [DatabaseService] (creations, counter
    increments, soft deletions, sweeps) makes two rows share one. *)
Theorem primary_keys_stay_unique (ops : list db_op) (d : D1Database)
    (Hfiles : NoDup (file_ids d)) (Htexts : NoDup (text_ids d)) :
  NoDup (file_ids (run_ops ops d)) /\ NoDup (text_ids (run_ops ops d)).
Proof.
  revert d Hfiles Htexts. induction ops as [|op ops IH]; intros d Hf Ht.
  - split; assumption.
  - destruct (ids_step d op (conj Hf Ht)) as [Hf1 Ht1].
    exact (IH (run_op d op) Hf1 Ht1).
Qed.

Lemma primary_keys_stay_unique_witness :
  NoDup (file_ids
           (run_ops [CreateFile
                       (CreateFileInput.mk "k.txt" "n.txt" "text/plain" 1 None
                          10 None None) id_bytes 0;
                     CreateFile
                       (CreateFileInput.mk "k.txt" "n.txt" "text/plain" 1 None
                          10 None None) name_bytes 0]
              (db uploaded_world))).
Proof.
  apply primary_keys_stay_unique.
  - vm_compute. repeat constructor. intros H. inversion H.
  - vm_compute. constructor.
Defined.

Lemma file_evolves_refl (f : FileRecord.t) : file_evolves f f.
Proof. unfold file_evolves. repeat split; auto; lia. Qed.

Lemma file_evolves_trans (f g h : FileRecord.t) :
  file_evolves f g -> file_evolves g h -> file_evolves f h.
Proof.
  unfold file_evolves. intros H1 H2.
  decompose [and] H1. decompose [and] H2.
  repeat split; try congruence; try lia. auto.
Qed.

Lemma text_evolves_refl (s : TextShareRecord.t) : text_evolves s s.
Proof. unfold text_evolves. repeat split; auto; lia. Qed.

Lemma text_evolves_trans (s t u : TextShareRecord.t) :
  text_evolves s t -> text_evolves t u -> text_evolves s u.
Proof.
  unfold text_evolves. intros H1 H2.
  decompose [and] H1. decompose [and] H2.
  repeat split; try congruence; try lia. auto.
Qed.

Lemma Forall2_refl_list {A} (R : A -> A -> Prop) (l : list A) :
  (forall a, R a a) -> Forall2 R l l.
Proof. intros H. induction l; constructor; auto. Qed.

Lemma Forall2_map_self {A} (R : A -> A -> Prop) (g : A -> A) (l : list A) :
  (forall a, R a (g a)) -> Forall2 R l (List.map g l).
Proof. intros H. induction l; simpl; constructor; auto. Qed.

Lemma files_extend_trans (l1 l2 l3 : list FileRecord.t) :
  files_extend l1 l2 -> files_extend l2 l3 -> files_extend l1 l3.
Proof.
  intros (m1 & a1 & -> & H1) (m2 & a2 & -> & H2).
  apply Forall2_app_inv_l in H2 as (k1 & k2 & Hk1 & Hk2 & ->).
  exists k1, (k2 ++ a2). split; [now rewrite List.app_assoc |].
  clear - H1 Hk1. revert k1 Hk1.
  induction H1 as [|f g l1 m1 Hfg _ IH]; intros k1 Hk1.
  - inversion Hk1. constructor.
  - inversion Hk1 as [|? h ? k1' Hgh Hrest]; subst.
    constructor; [exact (file_evolves_trans _ _ _ Hfg Hgh) | exact (IH _ Hrest)].
Qed.

Lemma texts_extend_trans (l1 l2 l3 : list TextShareRecord.t) :
  texts_extend l1 l2 -> texts_extend l2 l3 -> texts_extend l1 l3.
Proof.
  intros (m1 & a1 & -> & H1) (m2 & a2 & -> & H2).
  apply Forall2_app_inv_l in H2 as (k1 & k2 & Hk1 & Hk2 & ->).
  exists k1, (k2 ++ a2). split; [now rewrite List.app_assoc |].
  clear - H1 Hk1. revert k1 Hk1.
  induction H1 as [|f g l1 m1 Hfg _ IH]; intros k1 Hk1.
  - inversion Hk1. constructor.
  - inversion Hk1 as [|? h ? k1' Hgh Hrest]; subst.
    constructor; [exact (text_evolves_trans _ _ _ Hfg Hgh) | exact (IH _ Hrest)].
Qed.

Lemma files_extend_update (l : list FileRecord.t)
    (g : FileRecord.t -> FileRecord.t) :
  (forall f, file_evolves f (g f)) -> files_extend l (List.map g l).
Proof.
  intros H. exists (List.map g l), []. split; [now rewrite List.app_nil_r |].
  now apply Forall2_map_self.
Qed.

Lemma texts_extend_update (l : list TextShareRecord.t)
    (g : TextShareRecord.t -> TextShareRecord.t) :
  (forall s, text_evolves s (g s)) -> texts_extend l (List.map g l).
Proof.
  intros H. exists (List.map g l), []. split; [now rewrite List.app_nil_r |].
  now apply Forall2_map_self.
Qed.

Lemma files_extend_refl (l : list FileRecord.t) : files_extend l l.
Proof.
  exists l, []. split; [now rewrite List.app_nil_r |].
  apply Forall2_refl_list, file_evolves_refl.
Qed.

Lemma texts_extend_refl (l : list TextShareRecord.t) : texts_extend l l.
Proof.
  exists l, []. split; [now rewrite List.app_nil_r |].
  apply Forall2_refl_list, text_evolves_refl.
Qed.

Lemma rows_step (d : D1Database) (op : db_op) :
  files_extend (files d) (files (run_op d op))
  /\ texts_extend (text_shares d) (text_shares (run_op d op)).
Proof.
  destruct op; simpl;
    try (split; [apply files_extend_refl | apply texts_extend_refl]);
    try (split; [| apply texts_extend_refl];
         apply files_extend_update; intros f;
         destruct (_ : bool); [| apply file_evolves_refl];
         unfold file_evolves; simpl; repeat split; auto; lia);
    try (split; [apply files_extend_refl |];
         apply texts_extend_update; intros s;
         destruct (_ : bool); [| apply text_evolves_refl];
         unfold text_evolves; simpl; repeat split; auto; lia).
  - unfold DatabaseService.createFile.
    destruct (existsb _ (files d)); simpl;
      [split; [apply files_extend_refl | apply texts_extend_refl] |].
    split; [| apply texts_extend_refl].
    eexists (files d), _. split; [reflexivity |].
    apply Forall2_refl_list, file_evolves_refl.
  - unfold DatabaseService.createTextShare.
    destruct (existsb _ (text_shares d)); simpl;
      [split; [apply files_extend_refl | apply texts_extend_refl] |].
    split; [apply files_extend_refl |].
    eexists (text_shares d), _. split; [reflexivity |].
    apply Forall2_refl_list, text_evolves_refl.
Qed.

Lemma rows_run (ops : list db_op) (d : D1Database) :
  files_extend (files d) (files (run_ops ops d))
  /\ texts_extend (text_shares d) (text_shares (run_ops ops d)).
Proof.
  revert d. induction ops as [|op ops IH]; intros d.
  - split; [apply files_extend_refl | apply texts_extend_refl].
  - destruct (rows_step d op) as [Hf Ht].
    destruct (IH (run_op d op)) as [Hf' Ht'].
    split; [exact (files_extend_trans _ _ _ Hf Hf')
           | exact (texts_extend_trans _ _ _ Ht Ht')].
Qed.

(** X13: no write of [DatabaseService] removes a row or rewrites it.
    After any sequence of writes the rows that were there are still
    there, in order, each with the same id, names, type, size, address,
    creation and expiry instants, limit and password hash, a counter that
    has not gone down and a deletion flag that has not been cleared; the
    only other rows are the ones inserted since. *)
Theorem rows_only_extend (ops : list db_op) (d : D1Database) :
  files_extend (files d) (files (run_ops ops d))
  /\ texts_extend (text_shares d) (text_shares (run_ops ops d)).
Proof.
  revert d. induction ops as [|op ops IH]; intros d.
  - split; [apply files_extend_refl | apply texts_extend_refl].
  - destruct (rows_step d op) as [Hf Ht].
    destruct (IH (run_op d op)) as [Hf' Ht'].
    split; [exact (files_extend_trans _ _ _ Hf Hf')
           | exact (texts_extend_trans _ _ _ Ht Ht')].
Qed.

Lemma sweep_files_found (now : Z) (l : list FileRecord.t) (id : string)
    (f : FileRecord.t) :
  List.find (fun f => DatabaseService.file_row_matches id f
                      && negb (FileRecord.is_deleted f))
    (List.map (fun f => if DatabaseService.file_expired_live now f
                        then FileRecord.with_is_deleted true f else f) l)
  = Some f ->
  now <= FileRecord.expires_at f /\ In f l.
Proof.
  induction l as [|a l IH]; simpl; [discriminate |].
  destruct (DatabaseService.file_expired_live now a) eqn:E.
  - simpl. rewrite andb_false_r. intros H. destruct (IH H). auto.
  - destruct (DatabaseService.file_row_matches id a
              && negb (FileRecord.is_deleted a)) eqn:Hp.
    + intros [= <-]. split; [| auto].
      apply andb_prop in Hp as [_ Hlive].
      unfold DatabaseService.file_expired_live in E.
      rewrite Hlive, andb_true_r in E. lia.
    + intros H. destruct (IH H). auto.
Qed.

Lemma sweep_files_keeps (now : Z) (l : list FileRecord.t) (id : string)
    (f : FileRecord.t) :
  List.find (fun f => DatabaseService.file_row_matches id f
                      && negb (FileRecord.is_deleted f)) l = Some f ->
  now <= FileRecord.expires_at f ->
  List.find (fun f => DatabaseService.file_row_matches id f
                      && negb (FileRecord.is_deleted f))
    (List.map (fun f => if DatabaseService.file_expired_live now f
                        then FileRecord.with_is_deleted true f else f) l)
  = Some f.
Proof.
  intros Hfind Hnow. induction l as [|a l IH]; simpl in *; [discriminate |].
  destruct (DatabaseService.file_row_matches id a
            && negb (FileRecord.is_deleted a)) eqn:Hp.
  - injection Hfind as ->.
    assert (E : DatabaseService.file_expired_live now f = false).
    { unfold DatabaseService.file_expired_live.
      replace (FileRecord.expires_at f <? now) with false by lia.
      reflexivity. }
    rewrite E, Hp. reflexivity.
  - destruct (DatabaseService.file_expired_live now a); simpl.
    + rewrite andb_false_r. exact (IH Hfind).
    + rewrite Hp. exact (IH Hfind).
Qed.

Lemma sweep_files_count (now : Z) (l : list FileRecord.t) :
  List.length (List.filter (fun f => negb (FileRecord.is_deleted f)) l)
  = (List.length (List.filter (DatabaseService.file_expired_live now) l)
     + List.length
         (List.filter (fun f => negb (FileRecord.is_deleted f))
            (List.map (fun f => if DatabaseService.file_expired_live now f
                                then FileRecord.with_is_deleted true f else f)
               l)))%nat.
Proof.
  induction l as [|a l IH]; simpl; [reflexivity |].
  destruct (DatabaseService.file_expired_live now a) eqn:E;
    unfold DatabaseService.file_expired_live in E;
    destruct (FileRecord.is_deleted a) eqn:Hdel;
    destruct (FileRecord.expires_at a <? now);
    simpl in E; try discriminate; simpl; rewrite ?Hdel; simpl; lia.
Qed.

Lemma sweep_files_later (now later : Z) (l : list FileRecord.t) :
  now <= later ->
  List.map (fun f => if DatabaseService.file_expired_live later f
                     then FileRecord.with_is_deleted true f else f)
    (List.map (fun f => if DatabaseService.file_expired_live now f
                        then FileRecord.with_is_deleted true f else f) l)
  = List.map (fun f => if DatabaseService.file_expired_live later f
                       then FileRecord.with_is_deleted true f else f) l
  /\ (List.length (List.filter (DatabaseService.file_expired_live now) l)
      + List.length
          (List.filter (DatabaseService.file_expired_live later)
             (List.map (fun f => if DatabaseService.file_expired_live now f
                                 then FileRecord.with_is_deleted true f else f)
                l)))%nat
     = List.length (List.filter (DatabaseService.file_expired_live later) l).
Proof.
  intros Hle. induction l as [|a l [IH1 IH2]]; simpl; [auto |].
  rewrite IH1.
  assert (Hdeleted : DatabaseService.file_expired_live later
                       (FileRecord.with_is_deleted true a) = false)
    by (unfold DatabaseService.file_expired_live; simpl;
        apply andb_false_r).
  destruct (DatabaseService.file_expired_live now a) eqn:E1;
    destruct (DatabaseService.file_expired_live later a) eqn:E2;
    rewrite ?Hdeleted, ?E2; simpl; try (split; [reflexivity | lia]).
  exfalso. unfold DatabaseService.file_expired_live in E1, E2.
  apply andb_prop in E1 as [Hexp Hlive]. rewrite Hlive, andb_true_r in E2.
  lia.
Qed.

Lemma sweep_texts_found (now : Z) (l : list TextShareRecord.t) (id : string)
    (s : TextShareRecord.t) :
  List.find (fun s => DatabaseService.text_row_matches id s
                      && negb (TextShareRecord.is_deleted s))
    (List.map (fun s => if DatabaseService.text_expired_live now s
                        then TextShareRecord.with_is_deleted true s else s) l)
  = Some s ->
  now <= TextShareRecord.expires_at s /\ In s l.
Proof.
  induction l as [|a l IH]; simpl; [discriminate |].
  destruct (DatabaseService.text_expired_live now a) eqn:E.
  - simpl. rewrite andb_false_r. intros H. destruct (IH H). auto.
  - destruct (DatabaseService.text_row_matches id a
              && negb (TextShareRecord.is_deleted a)) eqn:Hp.
    + intros [= <-]. split; [| auto].
      apply andb_prop in Hp as [_ Hlive].
      unfold DatabaseService.text_expired_live in E.
      rewrite Hlive, andb_true_r in E. lia.
    + intros H. destruct (IH H). auto.
Qed.

Lemma sweep_texts_keeps (now : Z) (l : list TextShareRecord.t) (id : string)
    (s : TextShareRecord.t) :
  List.find (fun s => DatabaseService.text_row_matches id s
                      && negb (TextShareRecord.is_deleted s)) l = Some s ->
  now <= TextShareRecord.expires_at s ->
  List.find (fun s => DatabaseService.text_row_matches id s
                      && negb (TextShareRecord.is_deleted s))
    (List.map (fun s => if DatabaseService.text_expired_live now s
                        then TextShareRecord.with_is_deleted true s else s) l)
  = Some s.
Proof.
  intros Hfind Hnow. induction l as [|a l IH]; simpl in *; [discriminate |].
  destruct (DatabaseService.text_row_matches id a
            && negb (TextShareRecord.is_deleted a)) eqn:Hp.
  - injection Hfind as ->.
    assert (E : DatabaseService.text_expired_live now s = false).
    { unfold DatabaseService.text_expired_live.
      replace (TextShareRecord.expires_at s <? now) with false by lia.
      reflexivity. }
    rewrite E, Hp. reflexivity.
  - destruct (DatabaseService.text_expired_live now a); simpl.
    + rewrite andb_false_r. exact (IH Hfind).
    + rewrite Hp. exact (IH Hfind).
Qed.

Lemma sweep_texts_count (now : Z) (l : list TextShareRecord.t) :
  List.length (List.filter (fun s => negb (TextShareRecord.is_deleted s)) l)
  = (List.length (List.filter (DatabaseService.text_expired_live now) l)
     + List.length
         (List.filter (fun s => negb (TextShareRecord.is_deleted s))
            (List.map (fun s => if DatabaseService.text_expired_live now s
                                then TextShareRecord.with_is_deleted true s else s)
               l)))%nat.
Proof.
  induction l as [|a l IH]; simpl; [reflexivity |].
  destruct (DatabaseService.text_expired_live now a) eqn:E;
    unfold DatabaseService.text_expired_live in E;
    destruct (TextShareRecord.is_deleted a) eqn:Hdel;
    destruct (TextShareRecord.expires_at a <? now);
    simpl in E; try discriminate; simpl; rewrite ?Hdel; simpl; lia.
Qed.

Lemma sweep_texts_later (now later : Z) (l : list TextShareRecord.t) :
  now <= later ->
  List.map (fun s => if DatabaseService.text_expired_live later s
                     then TextShareRecord.with_is_deleted true s else s)
    (List.map (fun s => if DatabaseService.text_expired_live now s
                        then TextShareRecord.with_is_deleted true s else s) l)
  = List.map (fun s => if DatabaseService.text_expired_live later s
                       then TextShareRecord.with_is_deleted true s else s) l
  /\ (List.length (List.filter (DatabaseService.text_expired_live now) l)
      + List.length
          (List.filter (DatabaseService.text_expired_live later)
             (List.map (fun s => if DatabaseService.text_expired_live now s
                                 then TextShareRecord.with_is_deleted true s else s)
                l)))%nat
     = List.length (List.filter (DatabaseService.text_expired_live later) l).
Proof.
  intros Hle. induction l as [|a l [IH1 IH2]]; simpl; [auto |].
  rewrite IH1.
  assert (Hdeleted : DatabaseService.text_expired_live later
                       (TextShareRecord.with_is_deleted true a) = false)
    by (unfold DatabaseService.text_expired_live; simpl;
        apply andb_false_r).
  destruct (DatabaseService.text_expired_live now a) eqn:E1;
    destruct (DatabaseService.text_expired_live later a) eqn:E2;
    rewrite ?Hdeleted, ?E2; simpl; try (split; [reflexivity | lia]).
  exfalso. unfold DatabaseService.text_expired_live in E1, E2.
  apply andb_prop in E1 as [Hexp Hlive]. rewrite Hlive, andb_true_r in E2.
  lia.
Qed.

(** X14: what the two expiry sweeps do.  After a sweep at [now] no record
    that readers still find expires before [now]; a record that readers
    found and that does not expire before [now] is found as it was; the
    other table is untouched; the number returned is the number of
    records that stopped being live; and a later sweep makes up exactly
    for the difference: sweeping at [now] and then at [later] leaves the
    database that one sweep at [later] leaves, with the two counts adding
    up to its count. *)
Theorem expiry_sweeps_exact (now : Z) (d : D1Database) :
  (let changes := fst (DatabaseService.cleanupExpiredFiles now d) in
   let d' := snd (DatabaseService.cleanupExpiredFiles now d) in
   text_shares d' = text_shares d
   /\ (forall id f, DatabaseService.getFile id d' = Some f ->
         now <= FileRecord.expires_at f /\ In f (files d))
   /\ (forall id f, DatabaseService.getFile id d = Some f ->
         now <= FileRecord.expires_at f ->
         DatabaseService.getFile id d' = Some f)
   /\ changes = Z.of_nat (List.length (live_files d))
                - Z.of_nat (List.length (live_files d'))
   /\ (forall later, now <= later ->
         snd (DatabaseService.cleanupExpiredFiles later d')
         = snd (DatabaseService.cleanupExpiredFiles later d)
         /\ changes + fst (DatabaseService.cleanupExpiredFiles later d')
            = fst (DatabaseService.cleanupExpiredFiles later d)))
  /\ (let changes := fst (DatabaseService.cleanupExpiredTextShares now d) in
      let d' := snd (DatabaseService.cleanupExpiredTextShares now d) in
      files d' = files d
      /\ (forall id s, DatabaseService.getTextShare id d' = Some s ->
            now <= TextShareRecord.expires_at s /\ In s (text_shares d))
      /\ (forall id s, DatabaseService.getTextShare id d = Some s ->
            now <= TextShareRecord.expires_at s ->
            DatabaseService.getTextShare id d' = Some s)
      /\ changes = Z.of_nat (List.length (live_text_shares d))
                   - Z.of_nat (List.length (live_text_shares d'))
      /\ (forall later, now <= later ->
            snd (DatabaseService.cleanupExpiredTextShares later d')
            = snd (DatabaseService.cleanupExpiredTextShares later d)
            /\ changes + fst (DatabaseService.cleanupExpiredTextShares later d')
               = fst (DatabaseService.cleanupExpiredTextShares later d))).
Proof.
  split; cbn zeta.
  - split; [reflexivity |]. split; [| split; [| split]].
    + intros id f. apply sweep_files_found.
    + intros id f. apply sweep_files_keeps.
    + unfold live_files, DatabaseService.cleanupExpiredFiles.
      cbn [fst snd files DatabaseService.update_files].
      rewrite (sweep_files_count now (files d)). lia.
    + intros later Hle.
      destruct (sweep_files_later now later (files d) Hle) as [Hmap Hcount].
      unfold DatabaseService.cleanupExpiredFiles.
      cbn [fst snd files text_shares DatabaseService.update_files].
      split; [unfold DatabaseService.update_files; cbn [files text_shares];
              now rewrite Hmap | lia].
  - split; [reflexivity |]. split; [| split; [| split]].
    + intros id s. apply sweep_texts_found.
    + intros id s. apply sweep_texts_keeps.
    + unfold live_text_shares, DatabaseService.cleanupExpiredTextShares.
      cbn [fst snd text_shares DatabaseService.update_text_shares].
      rewrite (sweep_texts_count now (text_shares d)). lia.
    + intros later Hle.
      destruct (sweep_texts_later now later (text_shares d) Hle)
        as [Hmap Hcount].
      unfold DatabaseService.cleanupExpiredTextShares.
      cbn [fst snd files text_shares DatabaseService.update_text_shares].
      split; [unfold DatabaseService.update_text_shares;
              cbn [files text_shares]; now rewrite Hmap | lia].
Qed.

Lemma expiry_sweeps_exact_witness :
  DatabaseService.getFile "abcdefghijkl"
    (snd (DatabaseService.cleanupExpiredFiles 1000 (db uploaded_world)))
  = Some uploaded_record
  /\ fst (DatabaseService.cleanupExpiredFiles 1000 (db uploaded_world))
     + fst (DatabaseService.cleanupExpiredFiles 90000000
              (snd (DatabaseService.cleanupExpiredFiles 1000
                      (db uploaded_world))))
     = fst (DatabaseService.cleanupExpiredFiles 90000000 (db uploaded_world)).
Proof.
  destruct (expiry_sweeps_exact 1000 (db uploaded_world))
    as [(_ & _ & Hkeep & _ & Hlater) _].
  split.
  - apply Hkeep; [reflexivity | vm_compute; discriminate].
  - apply (Hlater 90000000). lia.
Defined.

(** ** index.ts: the scheduled job *)

Lemma scheduled_db (cron : string) (now now' : Z) (w : World) :
  db (scheduled cron now now' w)
  = snd (DatabaseService.cleanupExpiredTextShares now'
           (snd (DatabaseService.cleanupExpiredFiles now (db w)))).
Proof.
  unfold scheduled. cbn [DatabaseService.cleanupExpiredFiles
                         DatabaseService.cleanupExpiredTextShares snd].
  destruct (String.eqb cron "0 2 * * *"); [| reflexivity].
  destruct (StorageService.cleanupOrphanedFiles _ _). reflexivity.
Qed.

Lemma scheduled_bucket (cron : string) (now now' : Z) (w : World) :
  bucket (scheduled cron now now' w)
  = if String.eqb cron "0 2 * * *"
    then snd (StorageService.cleanupOrphanedFiles
                (select_valid_file_ids (db (scheduled cron now now' w)))
                (bucket w))
    else bucket w.
Proof.
  rewrite scheduled_db. unfold scheduled.
  cbn [DatabaseService.cleanupExpiredFiles
       DatabaseService.cleanupExpiredTextShares snd].
  destruct (String.eqb cron "0 2 * * *"); [| reflexivity].
  destruct (StorageService.cleanupOrphanedFiles _ _). reflexivity.
Qed.

Lemma world_eq (w w' : World) : db w = db w' -> bucket w = bucket w' -> w = w'.
Proof. destruct w, w'; simpl; congruence. Qed.

Lemma unique_row (l : list FileRecord.t) (f f' : FileRecord.t) :
  NoDup (List.map FileRecord.id l) -> In f l -> In f' l ->
  FileRecord.id f = FileRecord.id f' -> f = f'.
Proof.
  intros Hnd. apply NoDup_ListNoDup in Hnd.
  induction l as [|a l IH]; simpl; [contradiction |].
  inversion Hnd as [|? ? Hnotin Hnd']; subst.
  intros [->|Hf] [->|Hf'] Hid; auto.
  - exfalso. apply Hnotin. rewrite Hid. now apply List.in_map.
  - exfalso. apply Hnotin. rewrite <- Hid. now apply List.in_map.
Qed.

Lemma getFile_in (id : string) (d : D1Database) (f : FileRecord.t) :
  DatabaseService.getFile id d = Some f -> In f (files d).
Proof. intros H. now apply List.find_some in H. Qed.

Lemma unique_text_row (l : list TextShareRecord.t) (s s' : TextShareRecord.t) :
  NoDup (List.map TextShareRecord.id l) -> In s l -> In s' l ->
  TextShareRecord.id s = TextShareRecord.id s' -> s = s'.
Proof.
  intros Hnd. apply NoDup_ListNoDup in Hnd.
  induction l as [|a l IH]; simpl; [contradiction |].
  inversion Hnd as [|? ? Hnotin Hnd']; subst.
  intros [->|Hs] [->|Hs'] Hid; auto.
  - exfalso. apply Hnotin. rewrite Hid. now apply List.in_map.
  - exfalso. apply Hnotin. rewrite <- Hid. now apply List.in_map.
Qed.

Lemma getTextShare_in (id : string) (d : D1Database) (s : TextShareRecord.t) :
  DatabaseService.getTextShare id d = Some s -> In s (text_shares d).
Proof. intros H. now apply List.find_some in H. Qed.

Lemma sweep_hides_expired (now : Z) (d : D1Database) (id : string)
    (f : FileRecord.t) :
  NoDup (file_ids d) ->
  DatabaseService.getFile id d = Some f ->
  FileRecord.expires_at f < now ->
  DatabaseService.getFile id (snd (DatabaseService.cleanupExpiredFiles now d))
  = None.
Proof.
  intros Hnd Hget Hexp.
  destruct (DatabaseService.getFile id
              (snd (DatabaseService.cleanupExpiredFiles now d)))
    as [f'|] eqn:Hget'; [| reflexivity].
  exfalso.
  destruct (getFile_found _ _ _ Hget) as [Hid _].
  destruct (getFile_found _ _ _ Hget') as [Hid' _].
  destruct (sweep_files_found now (files d) id f' Hget') as [Hnow Hin'].
  assert (f = f') as <-.
  { apply (unique_row (files d));
      [exact Hnd | exact (getFile_in _ _ _ Hget) | exact Hin' | congruence]. }
  lia.
Qed.

Lemma sweep_hides_expired_text (now : Z) (d : D1Database) (id : string)
    (s : TextShareRecord.t) :
  NoDup (text_ids d) ->
  DatabaseService.getTextShare id d = Some s ->
  TextShareRecord.expires_at s < now ->
  DatabaseService.getTextShare id
    (snd (DatabaseService.cleanupExpiredTextShares now d))
  = None.
Proof.
  intros Hnd Hget Hexp.
  destruct (DatabaseService.getTextShare id
              (snd (DatabaseService.cleanupExpiredTextShares now d)))
    as [s'|] eqn:Hget'; [| reflexivity].
  exfalso.
  destruct (getTextShare_found _ _ _ Hget) as [Hid _].
  destruct (getTextShare_found _ _ _ Hget') as [Hid' _].
  destruct (sweep_texts_found now (text_shares d) id s' Hget') as [Hnow Hin'].
  assert (s = s') as <-.
  { apply (unique_text_row (text_shares d));
      [exact Hnd | exact (getTextShare_in _ _ _ Hget) | exact Hin'
      | congruence]. }
  lia.
Qed.

Lemma scheduled_again (cron : string) (now now' : Z) (w : World) :
  (List.length (objects (bucket w)) <= 1000)%nat ->
  scheduled cron now now' (scheduled cron now now' w)
  = scheduled cron now now' w.
Proof.
  intros Hpage.
  assert (Hdb : db (scheduled cron now now' (scheduled cron now now' w))
                = db (scheduled cron now now' w)).
  { rewrite !scheduled_db.
    unfold DatabaseService.cleanupExpiredFiles,
      DatabaseService.cleanupExpiredTextShares,
      DatabaseService.update_files, DatabaseService.update_text_shares.
    cbn [snd files text_shares].
    destruct (sweep_files_again now (files (db w))) as [_ ->].
    destruct (sweep_texts_again now' (text_shares (db w))) as [_ ->].
    reflexivity. }
  apply world_eq; [exact Hdb |].
  rewrite (scheduled_bucket cron now now' (scheduled cron now now' w)), Hdb.
  rewrite (scheduled_bucket cron now now' w).
  destruct (String.eqb cron "0 2 * * *"); [| reflexivity].
  set (ids := select_valid_file_ids (db (scheduled cron now now' w))).
  destruct (available (bucket w)) eqn:Hup.
  - rewrite (cleanupOrphanedFiles_one_page ids (bucket w) Hup Hpage).
    cbn [snd].
    pose proof (filter_split_length
                  (fun o => includes ids (stem (key o))) (objects (bucket w)))
      as [_ Hle].
    rewrite cleanupOrphanedFiles_one_page;
      cbn [StorageService.with_objects objects available];
      [| exact Hup | unfold with_valid_stem; lia].
    cbn [snd]. unfold with_valid_stem. now rewrite filter_twice.
  - assert (Hdown : StorageService.cleanupOrphanedFiles ids (bucket w)
                    = (Throw, bucket w)).
    { unfold StorageService.cleanupOrphanedFiles.
      now rewrite listFiles_page, Hup. }
    rewrite Hdown. cbn [snd]. now rewrite Hdown.
Qed.

Lemma scheduled_catches_up (cron cron2 : string) (now now' later later' : Z)
    (w : World) :
  now <= later -> now' <= later' ->
  db (scheduled cron2 later later' (scheduled cron now now' w))
  = db (scheduled cron2 later later' w).
Proof.
  intros Hle Hle'. rewrite !scheduled_db.
  unfold DatabaseService.cleanupExpiredFiles,
    DatabaseService.cleanupExpiredTextShares,
    DatabaseService.update_files, DatabaseService.update_text_shares.
  cbn [snd files text_shares].
  destruct (sweep_files_later now later (files (db w)) Hle) as [-> _].
  destruct (sweep_texts_later now' later' (text_shares (db w)) Hle')
    as [-> _].
  reflexivity.
Qed.

(** X15: the scheduled job.  Unless the cron is the daily one the bucket
    is not touched.  A record that has not expired, a file or a text
    share, is found as before.  With unique ids, a file or a text share
    that had expired before the job ran is answered 410 until the job
    runs and 404, as one that never was, once it has run.  A run makes up
    for the runs before it: the database after two runs is the database
    after the later one alone.  And on a bucket of at most 1000 objects
    a second run at the same instants changes nothing.  The files are
    swept at the instant [now] and the text shares at [now']. *)
Theorem scheduled_job_effects (cron : string) (now now' : Z) (w : World) :
  let w' := scheduled cron now now' w in
  (cron <> "0 2 * * *" -> bucket w' = bucket w)
  /\ (forall fileId file,
        DatabaseService.getFile fileId (db w) = Some file ->
        now <= FileRecord.expires_at file ->
        DatabaseService.getFile fileId (db w') = Some file)
  /\ (forall textShareId textShare,
        DatabaseService.getTextShare textShareId (db w) = Some textShare ->
        now' <= TextShareRecord.expires_at textShare ->
        DatabaseService.getTextShare textShareId (db w') = Some textShare)
  /\ (forall fileId file reqBody password t,
        NoDup (file_ids (db w)) ->
        DatabaseService.getFile fileId (db w) = Some file ->
        FileRecord.expires_at file < now -> now <= t ->
        parse_redeem_body reqBody = Some password ->
        download.post_download fileId reqBody t w
        = (errorResponse FILE_EXPIRED "File has expired" 410, w)
        /\ download.post_download fileId reqBody t w'
           = (errorResponse FILE_NOT_FOUND "File not found" 404, w'))
  /\ (forall textShareId textShare reqBody password t,
        NoDup (text_ids (db w)) ->
        DatabaseService.getTextShare textShareId (db w) = Some textShare ->
        TextShareRecord.expires_at textShare < now' -> now' <= t ->
        parse_redeem_body reqBody = Some password ->
        text.post_view textShareId reqBody t w
        = (errorResponse FILE_EXPIRED "Text share has expired" 410, w)
        /\ text.post_view textShareId reqBody t w'
           = (errorResponse FILE_NOT_FOUND "Text share not found" 404, w'))
  /\ (forall cron2 later later',
        now <= later -> now' <= later' ->
        db (scheduled cron2 later later' w') = db (scheduled cron2 later later' w))
  /\ ((List.length (objects (bucket w)) <= 1000)%nat ->
      scheduled cron now now' w' = w').
Proof.
  intros w'. split; [| split; [| split; [| split; [| split; [| split]]]]].
  - intros Hcron. unfold w'. rewrite scheduled_bucket.
    destruct (String.eqb_spec cron "0 2 * * *"); [contradiction | reflexivity].
  - intros fileId file Hget Hnow. unfold w'. rewrite scheduled_db.
    exact (sweep_files_keeps now (files (db w)) fileId file Hget Hnow).
  - intros textShareId textShare Hget Hnow. unfold w'. rewrite scheduled_db.
    exact (sweep_texts_keeps now' (text_shares (db w)) textShareId textShare
             Hget Hnow).
  - intros fileId file reqBody password t Hnd Hget Hexp Ht Hbody. split.
    + apply (post_download_expired fileId reqBody password t w file);
        [exact Hbody | exact Hget | lia].
    + unfold download.post_download. rewrite Hbody.
      replace (DatabaseService.getFile fileId (db w')) with
        (@None FileRecord.t); [reflexivity |].
      symmetry. unfold w'. rewrite scheduled_db.
      exact (sweep_hides_expired now (db w) fileId file Hnd Hget Hexp).
  - intros textShareId textShare reqBody password t Hnd Hget Hexp Ht Hbody.
    split.
    + rewrite (post_view_first_match textShareId reqBody password t w
                 textShare Hbody Hget).
      unfold Policy.text_checks. cbn [Policy.first_match].
      replace (isExpired (TextShareRecord.expires_at textShare) t) with true
        by (unfold isExpired; lia).
      reflexivity.
    + unfold text.post_view. rewrite Hbody.
      replace (DatabaseService.getTextShare textShareId (db w')) with
        (@None TextShareRecord.t); [reflexivity |].
      symmetry. unfold w'. rewrite scheduled_db.
      exact (sweep_hides_expired_text now'
               (snd (DatabaseService.cleanupExpiredFiles now (db w)))
               textShareId textShare Hnd Hget Hexp).
  - intros cron2 later later'. apply scheduled_catches_up.
  - apply scheduled_again.
Qed.

Lemma scheduled_job_effects_witness :
  download.post_download "abcdefghijkl" BadJson 90000000
    (scheduled "0 * * * *" 90000000 90000000 uploaded_world)
  = (errorResponse FILE_NOT_FOUND "File not found" 404,
     scheduled "0 * * * *" 90000000 90000000 uploaded_world).
Proof.
  destruct (scheduled_job_effects "0 * * * *" 90000000 90000000
              uploaded_world) as (_ & _ & _ & Hgone & _).
  refine (proj2 (Hgone "abcdefghijkl" uploaded_record BadJson None 90000000
                   _ _ _ _ _)).
  - vm_compute. repeat constructor. intros H. inversion H.
  - vm_compute. reflexivity.
  - vm_compute. reflexivity.
  - lia.
  - reflexivity.
Defined.

(** ** handlers/download.ts and handlers/text.ts: the direct links *)

Lemma download_denial_not_file (reason : Policy.Reason) :
  is_file (Policy.download_denial reason) = false.
Proof. now destruct reason. Qed.

Lemma download_redirect_not_file (env : Env) (fileId : string)
    (reason : Policy.Reason) :
  is_file (download_redirect env fileId reason) = false.
Proof. now destruct reason. Qed.

(** X16: the direct links decide as the POST routes do.  With the same
    password at the same instant, GET /download/:id leaves the world that
    POST /download/:id leaves and serves the file exactly when POST does;
    the answers are the same, except that where POST denies (410, 403,
    401) the link redirects with status 302 to the page of the front end
    for the same reason.  GET /view/:id likewise leaves the world that
    POST /view/:id leaves, redirects where POST denies, and where POST
    answers the JSON of the text share it answers its content as plain
    text. *)
Theorem direct_links_agree_with_post (env : Env) (id : string)
    (password : option jsstring) (now : Z) (w : World) :
  (let get := download.get_download env id password now w in
   let post := download.post_download id (Accepted password) now w in
   snd get = snd post
   /\ is_file (fst get) = is_file (fst post)
   /\ (fst get = fst post
       \/ exists reason,
            fst post = Policy.download_denial reason
            /\ fst get = download_redirect env id reason
            /\ status_of (fst get) = 302
            /\ snd get = w))
  /\ (let get := text.get_view env id password now w in
      let post := text.post_view id (Accepted password) now w in
      snd get = snd post
      /\ is_text (fst get) = is_text_share (fst post)
      /\ (fst get = fst post
          \/ (exists reason,
                fst post = Policy.view_denial reason
                /\ fst get = view_redirect env id reason
                /\ status_of (fst get) = 302
                /\ snd get = w)
          \/ (exists info,
                fst post = JsonSuccess 200 (TextShareInfoData info)
                /\ fst get
                   = TextBody (TextShareInfoResponse.content info)
                       "text/plain"))).
Proof.
  split; cbn zeta.
  - destruct (DatabaseService.getFile id (db w)) as [file|] eqn:Hget.
    + rewrite (get_download_first_match env id password now w file Hget).
      rewrite (post_download_first_match id (Accepted password) password now
                 w file eq_refl Hget).
      destruct (Policy.first_match _) as [|reason].
      * split; [reflexivity |]. split; [reflexivity |]. now left.
      * cbn [fst snd]. split; [reflexivity |].
        rewrite download_denial_not_file, download_redirect_not_file.
        split; [reflexivity |]. right. exists reason.
        repeat split; now destruct reason.
    + unfold download.get_download, download.post_download.
      cbn [parse_redeem_body]. rewrite Hget.
      split; [reflexivity |]. split; [reflexivity |]. now left.
  - destruct (DatabaseService.getTextShare id (db w)) as [textShare|] eqn:Hget.
    + rewrite (get_view_first_match env id password now w textShare Hget).
      rewrite (post_view_first_match id (Accepted password) password now
                 w textShare eq_refl Hget).
      destruct (Policy.first_match _) as [|reason].
      * unfold text.count_and_show. cbn [fst snd].
        split; [reflexivity |]. split; [reflexivity |].
        right. right. eexists. split; reflexivity.
      * cbn [fst snd]. split; [reflexivity |].
        split; [now destruct reason |]. right. left. exists reason.
        repeat split; now destruct reason.
    + unfold text.get_view, text.post_view.
      cbn [parse_redeem_body]. rewrite Hget.
      split; [reflexivity |]. split; [reflexivity |]. now left.
Qed.

(** ** handlers/upload.ts: what an upload leaves behind *)

Lemma hashPassword_truthy (password : jsstring) :
  truthy_string (Some (hashPassword password)) = true.
Proof.
  destruct (hex_shape (SHA256.digest (encode password)) (digest_bytes _))
    as [Hlen _].
  rewrite digest_length in Hlen. unfold truthy_string, hashPassword.
  destruct (hex (SHA256.digest (encode password))); [discriminate | reflexivity].
Qed.

(** The handler on a form with a file, by cases on the validations, on
    the id and on the bucket. *)
Lemma post_upload_cases (env : Env) (form : UploadForm.t) (file : File.t)
    (client_ip origin : string) (nameRandom idRandom : nat -> Z)
    (now now' : Z) (w : World) :
  UploadForm.file form = Some file ->
  upload_accepted env form file = true ->
  let id := generateId 12 idRandom in
  let record := inserted_file (upload_input form file client_ip nameRandom now)
                  id now' in
  let d := DatabaseService.update_files (db w) (files (db w) ++ [record]) in
  upload.post_upload env (Ok form) client_ip origin nameRandom idRandom
                     now now' w
  = if existsb (DatabaseService.file_row_matches id) (files (db w)) then
      (errorResponse INTERNAL_ERROR "Failed to upload file" 500, w)
    else if available (bucket w) then
      (successResponse
         (UploadData
            (UploadResponse.mk id (sanitizeFilename (File.name file))
               (File.size file)
               (calculateExpiryDate (upload.expiryHours form) now)
               (origin +:+ "/api/download/" +:+ id)
               (truthy_jsstring (upload.password form)))) 201,
       {| db := d;
          bucket := StorageService.with_objects (bucket w)
                      (StorageService.put
                         (upload_object file client_ip nameRandom idRandom)
                         (objects (bucket w))) |})
    else
      (errorResponse INTERNAL_ERROR "Failed to upload file" 500,
       {| db := d; bucket := bucket w |}).
Proof.
  intros Hfile Hok. unfold upload_accepted in Hok.
  apply andb_prop in Hok as [Hok Hhours]. apply andb_prop in Hok as [Hok Htype].
  apply andb_prop in Hok as [Hschema Hsize].
  unfold upload.post_upload. rewrite Hfile, Hschema, Hsize, Htype, Hhours.
  cbn [negb]. unfold DatabaseService.createFile.
  destruct (existsb _ (files (db w))) eqn:Hnew.
  - destruct w; reflexivity.
  - unfold StorageService.uploadFile. cbn [with_db bucket db].
    destruct (available (bucket w)) eqn:Hup; reflexivity.
Qed.

Lemma post_upload_success (env : Env) (form : UploadForm.t)
    (client_ip origin : string) (nameRandom idRandom : nat -> Z)
    (now now' : Z) (w w' : World) (data : Payload) :
  upload.post_upload env (Ok form) client_ip origin nameRandom idRandom
                     now now' w
  = (JsonSuccess 201 data, w') ->
  exists file,
    UploadForm.file form = Some file
    /\ upload_accepted env form file = true
    /\ existsb (DatabaseService.file_row_matches (generateId 12 idRandom))
               (files (db w)) = false
    /\ available (bucket w) = true.
Proof.
  unfold upload.post_upload, upload_accepted. cbn zeta.
  destruct (UploadForm.file form) as [file|]; [| discriminate].
  destruct (uploadFileSchema _ _ _); [| discriminate].
  destruct (isValidFileSize _ _) eqn:Hsize; [| discriminate].
  destruct (isAllowedFileType _) eqn:Htype; [| discriminate].
  destruct (isValidExpiryHours _ _); [| discriminate].
  cbn [negb]. unfold DatabaseService.createFile.
  destruct (existsb _ (files (db w))) eqn:Hnew; [discriminate |].
  unfold StorageService.uploadFile. cbn [with_db bucket db].
  destruct (available (bucket w)) eqn:Hup; [| discriminate].
  intros _. exists file. rewrite Hsize, Htype. repeat split.
Qed.

Lemma upload_password_truthy (form : UploadForm.t) (p : jsstring) :
  upload.password form = Some p -> truthy_jsstring (Some p) = true.
Proof.
  unfold upload.password. destruct (UploadForm.password form) as [q|];
    [| discriminate].
  destruct (truthy_jsstring (Some q)) eqn:E; simpl; [| discriminate].
  destruct (not_blank q); [| discriminate]. now intros [= <-].
Qed.

Lemma upload_checks_pass (form : UploadForm.t) (file : File.t)
    (client_ip : string) (nameRandom : nat -> Z) (now now' t : Z)
    (id : string) :
  uploadFileSchema (upload.expiryHours form) (upload.maxDownloads form)
                   (upload.password form) = true ->
  t <= calculateExpiryDate (upload.expiryHours form) now ->
  Policy.first_match
    (Policy.file_checks
       (inserted_file (upload_input form file client_ip nameRandom now) id now')
       t (upload.password form))
  = Policy.ALLOW.
Proof.
  intros Hschema Ht. unfold Policy.file_checks, inserted_file, upload_input.
  cbn [FileRecord.expires_at FileRecord.max_downloads
       FileRecord.download_count FileRecord.password_hash
       CreateFileInput.expires_at CreateFileInput.max_downloads
       CreateFileInput.password].
  assert (Hexp : isExpired (calculateExpiryDate (upload.expiryHours form) now) t
                 = false) by (unfold isExpired; lia).
  assert (Hlimit :
            truthy_number
              (number_or_null
                 match upload.maxDownloads form with
                 | Some (Num n) => Some n
                 | _ => None
                 end)
            && (default 0
                  (number_or_null
                     match upload.maxDownloads form with
                     | Some (Num n) => Some n
                     | _ => None
                     end) <=? 0) = false).
  { unfold uploadFileSchema in Hschema.
    apply andb_prop in Hschema as [Hschema _].
    apply andb_prop in Hschema as [_ Hmax].
    destruct (upload.maxDownloads form) as [[|n]|]; try reflexivity.
    cbn [optional] in Hmax. unfold number_or_null, truthy_number.
    destruct (Z.eqb_spec n 0); [reflexivity |]. cbn [negb default].
    simpl. lia. }
  rewrite Hexp, Hlimit. cbn [Policy.first_match].
  destruct (upload.password form) as [p|] eqn:Hp; [| reflexivity].
  unfold string_or_null. rewrite hashPassword_truthy.
  rewrite (upload_password_truthy form p Hp). cbn [andb negb default].
  unfold verifyPassword. rewrite String.eqb_refl.
  rewrite !hashPassword_truthy. reflexivity.
Qed.

Lemma collapse_spaces_keeps (p : ascii -> bool) (in_run : bool) (s : string) :
  p "_"%char = true -> all_chars p s = true ->
  all_chars p (collapse_spaces in_run s) = true.
Proof.
  intros Hp. unfold all_chars. revert in_run.
  induction s as [|c s IH]; intros in_run H; simpl in *; [reflexivity |].
  apply andb_prop in H as [Hc Hs]. destruct (space_char c).
  - destruct in_run; simpl; [exact (IH _ Hs) |].
    rewrite Hp. exact (IH _ Hs).
  - simpl. rewrite Hc. exact (IH _ Hs).
Qed.

(** [sanitizeFilename] brings in no character but the underscore. *)
Lemma sanitizeFilename_keeps (p : ascii -> bool) (filename : string) :
  p "_"%char = true -> all_chars p filename = true ->
  all_chars p (sanitizeFilename filename) = true.
Proof.
  intros Hp H. unfold sanitizeFilename.
  apply substring_chars, collapse_spaces_keeps; [exact Hp |].
  unfold all_chars in *. rewrite chars_map_string.
  apply forallb_forall. intros c Hc.
  apply List.in_map_iff in Hc as (c0 & <- & Hc0).
  destruct (unsafe_char c0); [exact Hp |].
  exact (proj1 (forallb_forall _ _) H c0 Hc0).
Qed.

Lemma safe_char_in_header (c : ascii) :
  safe_char c = true -> Ascii.eqb c "000" = false ->
  forbidden_in_header c = false.
Proof.
  unfold safe_char, space_char, forbidden_in_header. simpl.
  intros Hsafe ->. apply andb_prop in Hsafe as [_ Hspace].
  destruct (Ascii.eqb c "010"); [now rewrite !orb_true_r in Hspace |].
  destruct (Ascii.eqb c "013"); [now rewrite !orb_true_r in Hspace |].
  reflexivity.
Qed.

Lemma string_append_assoc (a b c : string) :
  (a +:+ b) +:+ c = a +:+ (b +:+ c).
Proof.
  induction a as [|x a IH]; [reflexivity |].
  change ((String x a +:+ b) +:+ c) with (String x ((a +:+ b) +:+ c)).
  change (String x a +:+ (b +:+ c)) with (String x (a +:+ (b +:+ c))).
  now rewrite IH.
Qed.

Lemma strip_end_last (s : string) (c : ascii) :
  http_whitespace c = false ->
  strip_end (s +:+ String c "") = s +:+ String c "".
Proof.
  intros Hc. induction s as [|a s IH].
  - simpl. now rewrite Hc.
  - change (String a s +:+ String c "") with (String a (s +:+ String c "")).
    cbn [strip_end]. rewrite IH. now destruct s.
Qed.

(** The Content-Disposition of a name is a header value exactly when the
    name holds no NUL, line feed or carriage return. *)
Lemma content_disposition_valid (filename : string) :
  valid_header_value (content_disposition filename)
  = all_chars (fun c => negb (forbidden_in_header c)) filename.
Proof.
  unfold valid_header_value, content_disposition.
  change (strip_start ("attachment; filename="
                       +:+ String "034" (filename +:+ String "034" "")))
    with ("attachment; filename="
          +:+ (String "034" filename +:+ String "034" "")).
  rewrite <- string_append_assoc, strip_end_last by reflexivity.
  rewrite !chars_append, !forallb_app. cbn [list_ascii_of_string forallb].
  unfold all_chars. cbn. now rewrite andb_true_r.
Qed.

Lemma allowed_type_valid (mimeType : string) :
  isAllowedFileType mimeType = true -> valid_header_value mimeType = true.
Proof.
  unfold isAllowedFileType, includes. intros H.
  apply List.existsb_exists in H as (t & Hin & Heq).
  apply String.eqb_eq in Heq. subst t.
  assert (Hall : forallb valid_header_value allowedTypes = true)
    by (vm_compute; reflexivity).
  exact (proj1 (forallb_forall _ _) Hall mimeType Hin).
Qed.

(** What an upload stores can be served, unless the name of the file
    holds a NUL. *)
Lemma uploaded_servable (env : Env) (form : UploadForm.t) (file : File.t)
    (client_ip : string) (nameRandom : nat -> Z) (now now' : Z) (id : string) :
  upload_accepted env form file = true ->
  without "000" (File.name file) = true ->
  servable (inserted_file (upload_input form file client_ip nameRandom now)
              id now') = true.
Proof.
  intros Hok Hname. unfold servable, inserted_file, upload_input.
  cbn [FileRecord.mime_type FileRecord.original_filename
       CreateFileInput.mime_type CreateFileInput.original_filename].
  unfold upload_accepted in Hok.
  apply andb_prop in Hok as [Hok _]. apply andb_prop in Hok as [_ Htype].
  rewrite (allowed_type_valid _ Htype), content_disposition_valid.
  cbn [andb]. unfold all_chars. apply forallb_forall. intros c Hc.
  destruct (sanitizeFilename_chars (File.name file)) as [_ Hsafe].
  pose proof (sanitizeFilename_keeps (fun a => negb (Ascii.eqb a "000"))
                (File.name file) eq_refl Hname) as Hnul.
  unfold all_chars in Hsafe, Hnul.
  rewrite (safe_char_in_header c); [reflexivity | |].
  - exact (proj1 (forallb_forall _ _) Hsafe c Hc).
  - apply negb_true_iff. exact (proj1 (forallb_forall _ _) Hnul c Hc).
Qed.

Lemma uploaded_blob (file : File.t) (client_ip : string)
    (nameRandom idRandom : nat -> Z) (b : R2Bucket) :
  available b = true ->
  StorageService.downloadFile
    (generateSecureFilename (sanitizeFilename (File.name file)) nameRandom)
    (StorageService.with_objects b
       (StorageService.put (upload_object file client_ip nameRandom idRandom)
          (objects b)))
  = Ok (Some (upload_object file client_ip nameRandom idRandom)).
Proof.
  intros Hup. unfold StorageService.downloadFile.
  cbn [StorageService.with_objects available objects]. rewrite Hup. f_equal.
  exact (find_put (upload_object file client_ip nameRandom idRandom) _).
Qed.

(** X17: an upload that answered 201, of a file whose name holds no NUL,
    can be downloaded.  The answer names the id, the sanitized name, the
    size and the expiry; until the expiry a POST or a GET of the download
    route with that id and the password of the form answers the bytes of
    the file under its sanitized name, with its type and size, and the
    counter of the record goes from 0 to 1. *)
Theorem upload_round_trip (env : Env) (form : UploadForm.t)
    (client_ip origin : string) (nameRandom idRandom : nat -> Z)
    (now now' t : Z) (w w' : World) (data : Payload)
    (Hupload : upload.post_upload env (Ok form) client_ip origin nameRandom
                 idRandom now now' w
               = (JsonSuccess 201 data, w'))
    (Hname : forall file, UploadForm.file form = Some file ->
               without "000" (File.name file) = true)
    (Ht : t <= calculateExpiryDate (upload.expiryHours form) now) :
  let id := generateId 12 idRandom in
  exists file,
    UploadForm.file form = Some file
    /\ data
       = UploadData
           (UploadResponse.mk id (sanitizeFilename (File.name file))
              (File.size file)
              (calculateExpiryDate (upload.expiryHours form) now)
              (origin +:+ "/api/download/" +:+ id)
              (truthy_jsstring (upload.password form)))
    /\ download.post_download id (Accepted (upload.password form)) t w'
       = (FileBody (File.bytes file) (sanitizeFilename (File.name file))
            (File.type file) (File.size file),
          with_db w' (DatabaseService.incrementDownloadCount id (db w')))
    /\ download.get_download env id (upload.password form) t w'
       = (FileBody (File.bytes file) (sanitizeFilename (File.name file))
            (File.type file) (File.size file),
          with_db w' (DatabaseService.incrementDownloadCount id (db w')))
    /\ download_count_of id (db w') = Some 0
    /\ download_count_of id
         (DatabaseService.incrementDownloadCount id (db w')) = Some 1.
Proof.
  intros id.
  destruct (post_upload_success _ _ _ _ _ _ _ _ _ _ _ Hupload)
    as (file & Hfile & Hok & Hfresh & Hup).
  rewrite (post_upload_cases env form file client_ip origin nameRandom
             idRandom now now' w Hfile Hok) in Hupload.
  fold id in Hfresh, Hupload. rewrite Hfresh, Hup in Hupload.
  injection Hupload as <- <-.
  set (record := inserted_file
                   (upload_input form file client_ip nameRandom now) id now').
  set (w' := {| db := _; bucket := _ |}).
  assert (Hget : DatabaseService.getFile id (db w') = Some record)
    by (apply getFile_appended; [exact Hfresh | reflexivity | reflexivity]).
  assert (Hallow : Policy.first_match
                     (Policy.file_checks record t (upload.password form))
                   = Policy.ALLOW).
  { apply upload_checks_pass; [| exact Ht].
    unfold upload_accepted in Hok.
    apply andb_prop in Hok as [Hok _]. apply andb_prop in Hok as [Hok _].
    apply andb_prop in Hok as [Hok _]. exact Hok. }
  assert (Hserve : download.fetch_and_count id record w'
                   = (FileBody (File.bytes file)
                        (sanitizeFilename (File.name file))
                        (File.type file) (File.size file),
                      with_db w'
                        (DatabaseService.incrementDownloadCount id (db w')))).
  { unfold download.fetch_and_count.
    replace (StorageService.downloadFile (FileRecord.filename record)
               (bucket w'))
      with (Ok (Some (upload_object file client_ip nameRandom idRandom)))
      by (symmetry; apply uploaded_blob; exact Hup).
    cbn zeta. rewrite fileResponse_servable.
    unfold record at 1.
    rewrite (uploaded_servable env form file client_ip nameRandom now now' id
               Hok (Hname file Hfile)).
    reflexivity. }
  assert (Hcount : download_count_of id (db w') = Some 0)
    by (unfold download_count_of; now rewrite Hget).
  exists file. split; [exact Hfile |]. split; [reflexivity |].
  split; [| split; [| split]].
  - rewrite (post_download_first_match id (Accepted (upload.password form))
               (upload.password form) t w' record eq_refl Hget), Hallow.
    exact Hserve.
  - rewrite (get_download_first_match env id (upload.password form) t w' record
               Hget), Hallow. exact Hserve.
  - exact Hcount.
  - rewrite download_count_increment, Hcount, String.eqb_refl. reflexivity.
Qed.

Lemma upload_round_trip_witness :
  fst (download.post_download (generateId 12 id_bytes) (Accepted None) 1000
         uploaded_world)
  = FileBody (File.bytes example_file)
      (sanitizeFilename (File.name example_file)) (File.type example_file)
      (File.size example_file).
Proof.
  destruct (upload_round_trip example_env
              example_form
              "203.0.113.9" "https://share.example" name_bytes id_bytes
              0 0 1000 empty_world uploaded_world
              (UploadData
                 (UploadResponse.mk "abcdefghijkl" "notes.txt" 2 86400000
                    "https://share.example/api/download/abcdefghijkl" false)))
    as (file & Hfile & _ & Hpost & _).
  - vm_compute. reflexivity.
  - intros file [= <-]. reflexivity.
  - vm_compute. discriminate.
  - injection Hfile as <-.
    change (upload.password example_form) with (@None jsstring) in Hpost.
    rewrite Hpost. reflexivity.
Defined.

(** X18: an upload is not atomic.  When the form passes every
    validation and the id is fresh but the bucket does not answer, the
    handler answers 500 and writes no blob, yet the record that it had
    inserted stays: the info route answers 200 for its id with the name
    and the size of the file, and once the bucket answers again without
    that key a download with the right password answers 404, the file not
    being found in storage. *)
Theorem failed_upload_leaves_record (env : Env) (form : UploadForm.t)
    (file : File.t) (client_ip origin : string)
    (nameRandom idRandom : nat -> Z) (now now' : Z) (w : World)
    (Hfile : UploadForm.file form = Some file)
    (Hok : upload_accepted env form file = true)
    (Hfresh : existsb (DatabaseService.file_row_matches
                         (generateId 12 idRandom)) (files (db w)) = false)
    (Hdown : available (bucket w) = false) :
  let id := generateId 12 idRandom in
  let k := generateSecureFilename (sanitizeFilename (File.name file))
             nameRandom in
  let r := fst (upload.post_upload env (Ok form) client_ip origin nameRandom
                  idRandom now now' w) in
  let w' := snd (upload.post_upload env (Ok form) client_ip origin nameRandom
                   idRandom now now' w) in
  r = errorResponse INTERNAL_ERROR "Failed to upload file" 500
  /\ bucket w' = bucket w
  /\ files (db w')
     = files (db w)
       ++ [inserted_file (upload_input form file client_ip nameRandom now)
             id now']
  /\ (forall t t', exists info,
        download.get_info id t t' w'
        = (successResponse (FileInfoData info) 200, w')
        /\ FileInfoResponse.id info = id
        /\ FileInfoResponse.original_filename info
           = sanitizeFilename (File.name file)
        /\ FileInfoResponse.size info = File.size file)
  /\ (forall t b,
        t <= calculateExpiryDate (upload.expiryHours form) now ->
        StorageService.downloadFile k b = Ok None ->
        download.post_download id (Accepted (upload.password form)) t
          (with_bucket w' b)
        = (errorResponse FILE_NOT_FOUND "File not found in storage" 404,
           with_bucket w' b)).
Proof.
  intros id k r w'. subst r w'.
  rewrite (post_upload_cases env form file client_ip origin nameRandom
             idRandom now now' w Hfile Hok).
  fold id. fold id in Hfresh. rewrite Hfresh, Hdown. cbn [fst snd db bucket].
  set (record := inserted_file
                   (upload_input form file client_ip nameRandom now) id now').
  set (d := DatabaseService.update_files (db w) (files (db w) ++ [record])).
  assert (Hget : DatabaseService.getFile id d = Some record)
    by (apply getFile_appended; [exact Hfresh | reflexivity | reflexivity]).
  split; [reflexivity |]. split; [reflexivity |]. split; [reflexivity |].
  split.
  - intros t t'. unfold download.get_info. cbn [db]. rewrite Hget.
    eexists. split; [reflexivity |]. repeat split.
  - intros t b Ht Hblob.
    assert (Hallow : Policy.first_match
                       (Policy.file_checks record t (upload.password form))
                     = Policy.ALLOW).
    { apply upload_checks_pass; [| exact Ht].
      unfold upload_accepted in Hok.
      apply andb_prop in Hok as [Hok _]. apply andb_prop in Hok as [Hok _].
      apply andb_prop in Hok as [Hok _]. exact Hok. }
    rewrite (post_download_first_match id (Accepted (upload.password form))
               (upload.password form) t
               (with_bucket {| db := d; bucket := bucket w |} b) record
               eq_refl Hget), Hallow.
    unfold download.fetch_and_count. cbn [with_bucket bucket].
    change (FileRecord.filename record) with k. now rewrite Hblob.
Qed.

Lemma failed_upload_leaves_record_witness :
  fst (upload.post_upload example_env (Ok example_form) "203.0.113.9"
         "https://share.example" name_bytes id_bytes 0 0 offline_world)
  = errorResponse INTERNAL_ERROR "Failed to upload file" 500.
Proof.
  refine (proj1 (failed_upload_leaves_record example_env example_form
                   example_file "203.0.113.9" "https://share.example"
                   name_bytes id_bytes 0 0 offline_world _ _ _ _)).
  - reflexivity.
  - vm_compute. reflexivity.
  - vm_compute. reflexivity.
  - reflexivity.
Defined.

(** ** handlers/text.ts: what a creation leaves behind *)

Lemma post_create_cases (env : Env) (b : CreateTextShareRequest.t)
    (client_ip origin : string) (randomArray : nat -> Z) (now now' : Z)
    (w : World) :
  create_accepted env b = true ->
  let id := generateId 12 randomArray in
  text.post_create env (Ok b) client_ip origin randomArray now now' w
  = if existsb (DatabaseService.text_row_matches id) (text_shares (db w)) then
      (errorResponse INTERNAL_ERROR "Failed to create text share" 500, w)
    else
      (successResponse
         (TextShareCreateData
            (TextShareCreateResponse.mk id (CreateTextShareRequest.title b)
               (calculateExpiryDate
                  (default 24 (CreateTextShareRequest.expiry_hours b)) now)
               (origin +:+ "/api/text/view/" +:+ id)
               (truthy_jsstring (CreateTextShareRequest.password b)))) 201,
       with_db w
         (DatabaseService.update_text_shares (db w)
            (text_shares (db w)
             ++ [inserted_text (create_input b client_ip now) id now']))).
Proof.
  intros Hok. unfold create_accepted in Hok.
  apply andb_prop in Hok as [Hschema Hhours].
  unfold text.post_create. rewrite Hschema, Hhours. cbn [negb].
  unfold DatabaseService.createTextShare. cbn zeta.
  destruct (existsb _ (text_shares (db w))).
  - destruct w; reflexivity.
  - reflexivity.
Qed.

Lemma post_create_success (env : Env) (b : CreateTextShareRequest.t)
    (client_ip origin : string) (randomArray : nat -> Z) (now now' : Z)
    (w w' : World) (data : Payload) :
  text.post_create env (Ok b) client_ip origin randomArray now now' w
  = (JsonSuccess 201 data, w') ->
  create_accepted env b = true
  /\ existsb (DatabaseService.text_row_matches (generateId 12 randomArray))
             (text_shares (db w)) = false.
Proof.
  unfold text.post_create, create_accepted.
  destruct (createTextShareSchema b); [| discriminate].
  destruct (isValidExpiryHours _ _); [| discriminate].
  cbn [negb]. unfold DatabaseService.createTextShare. cbn zeta.
  destruct (existsb _ (text_shares (db w))); [discriminate |].
  intros _. split; reflexivity.
Qed.

Lemma getTextShare_appended (id : string) (d : D1Database)
    (row : TextShareRecord.t) :
  existsb (DatabaseService.text_row_matches id) (text_shares d) = false ->
  TextShareRecord.id row = id -> TextShareRecord.is_deleted row = false ->
  DatabaseService.getTextShare id
    (DatabaseService.update_text_shares d (text_shares d ++ [row])) = Some row.
Proof.
  intros Hnew Hid Hlive. unfold DatabaseService.getTextShare. simpl.
  induction (text_shares d) as [|s l IH]; simpl in *.
  - unfold DatabaseService.text_row_matches. rewrite Hid, String.eqb_refl, Hlive.
    reflexivity.
  - apply orb_false_elim in Hnew as [Hs Hl]. rewrite Hs. simpl. exact (IH Hl).
Qed.

Lemma create_checks_pass (b : CreateTextShareRequest.t) (client_ip : string)
    (now now' t : Z) (id : string) :
  createTextShareSchema b = true ->
  t <= calculateExpiryDate
         (default 24 (CreateTextShareRequest.expiry_hours b)) now ->
  Policy.first_match
    (Policy.text_checks (inserted_text (create_input b client_ip now) id now')
       t (CreateTextShareRequest.password b))
  = Policy.ALLOW.
Proof.
  intros Hschema Ht. unfold Policy.text_checks, inserted_text, create_input.
  cbn [TextShareRecord.expires_at TextShareRecord.max_views
       TextShareRecord.view_count TextShareRecord.password_hash
       CreateTextShareInput.expires_at CreateTextShareInput.max_views
       CreateTextShareInput.password].
  assert (Hexp : isExpired
                   (calculateExpiryDate
                      (default 24 (CreateTextShareRequest.expiry_hours b)) now)
                   t = false) by (unfold isExpired; lia).
  assert (Hlimit :
            truthy_number (number_or_null (CreateTextShareRequest.max_views b))
            && (default 0 (number_or_null (CreateTextShareRequest.max_views b))
                  <=? 0) = false).
  { unfold createTextShareSchema in Hschema.
    apply andb_prop in Hschema as [Hschema _].
    apply andb_prop in Hschema as [_ Hmax].
    destruct (CreateTextShareRequest.max_views b) as [n|]; [| reflexivity].
    cbn [optional] in Hmax. unfold number_or_null, truthy_number.
    destruct (Z.eqb_spec n 0); [reflexivity |]. cbn [negb default].
    simpl. lia. }
  rewrite Hexp, Hlimit. cbn [Policy.first_match].
  destruct (truthy_jsstring (CreateTextShareRequest.password b)) eqn:Hp.
  - unfold string_or_null. rewrite hashPassword_truthy. cbn [andb negb default].
    unfold verifyPassword. rewrite String.eqb_refl.
    rewrite !hashPassword_truthy. reflexivity.
  - reflexivity.
Qed.

(** X19: a text share whose creation answered 201 can be viewed.  The
    answer names the id and the expiry; until the expiry POST /view/:id
    with that id and the password of the request answers the content with
    a view count of 1, the language of the request or [text] when it gave
    none or an empty one, and no expiry flag; GET /view/:id answers the
    content as plain text; either leaves a counter of 1. *)
Theorem text_round_trip (env : Env) (b : CreateTextShareRequest.t)
    (client_ip origin : string) (randomArray : nat -> Z) (now now' t : Z)
    (w w' : World) (data : Payload)
    (Hcreate : text.post_create env (Ok b) client_ip origin randomArray
                 now now' w
               = (JsonSuccess 201 data, w'))
    (Ht : t <= calculateExpiryDate
                 (default 24 (CreateTextShareRequest.expiry_hours b)) now) :
  let id := generateId 12 randomArray in
  let counted :=
    with_db w' (DatabaseService.incrementViewCount id (db w')) in
  data
  = TextShareCreateData
      (TextShareCreateResponse.mk id (CreateTextShareRequest.title b)
         (calculateExpiryDate
            (default 24 (CreateTextShareRequest.expiry_hours b)) now)
         (origin +:+ "/api/text/view/" +:+ id)
         (truthy_jsstring (CreateTextShareRequest.password b)))
  /\ (exists info,
        text.post_view id (Accepted (CreateTextShareRequest.password b)) t w'
        = (JsonSuccess 200 (TextShareInfoData info), counted)
        /\ TextShareInfoResponse.id info = id
        /\ TextShareInfoResponse.content info = CreateTextShareRequest.content b
        /\ TextShareInfoResponse.language info
           = match CreateTextShareRequest.language b with
             | Some l => if String.eqb l "" then "text" else l
             | None => "text"
             end
        /\ TextShareInfoResponse.view_count info = 1
        /\ TextShareInfoResponse.is_expired info = false
        /\ TextShareInfoResponse.has_password info
           = truthy_jsstring (CreateTextShareRequest.password b))
  /\ text.get_view env id (CreateTextShareRequest.password b) t w'
     = (TextBody (CreateTextShareRequest.content b) "text/plain", counted)
  /\ view_count_of id (db w') = Some 0
  /\ view_count_of id (db counted) = Some 1.
Proof.
  intros id counted. subst counted.
  destruct (post_create_success _ _ _ _ _ _ _ _ _ _ Hcreate) as [Hok Hfresh].
  rewrite (post_create_cases env b client_ip origin randomArray now now' w Hok)
    in Hcreate.
  fold id in Hfresh, Hcreate. rewrite Hfresh in Hcreate.
  injection Hcreate as <- <-.
  set (record := inserted_text (create_input b client_ip now) id now').
  set (w' := with_db w _).
  assert (Hget : DatabaseService.getTextShare id (db w') = Some record)
    by (apply getTextShare_appended; [exact Hfresh | reflexivity | reflexivity]).
  assert (Hallow : Policy.first_match
                     (Policy.text_checks record t
                        (CreateTextShareRequest.password b))
                   = Policy.ALLOW).
  { apply create_checks_pass; [| exact Ht].
    unfold create_accepted in Hok. now apply andb_prop in Hok as [Hok _]. }
  assert (Hcount : view_count_of id (db w') = Some 0)
    by (unfold view_count_of; now rewrite Hget).
  split; [reflexivity |]. split; [| split; [| split]].
  - rewrite (post_view_first_match id
               (Accepted (CreateTextShareRequest.password b))
               (CreateTextShareRequest.password b) t w' record eq_refl Hget),
      Hallow.
    unfold text.count_and_show. eexists. split; [reflexivity |].
    cbn [TextShareInfoResponse.id TextShareInfoResponse.content
         TextShareInfoResponse.language TextShareInfoResponse.view_count
         TextShareInfoResponse.is_expired TextShareInfoResponse.has_password].
    split; [reflexivity |]. split; [reflexivity |].
    split; [| split; [reflexivity | split; [reflexivity |]]].
    + unfold record, inserted_text, create_input.
      cbn [TextShareRecord.language CreateTextShareInput.language].
      unfold truthy_string.
      destruct (CreateTextShareRequest.language b) as [l|]; cbn [default];
        [| reflexivity].
      unfold Datatypes.id. now destruct (String.eqb l "").
    + unfold record, inserted_text, create_input.
      cbn [TextShareRecord.password_hash CreateTextShareInput.password].
      destruct (truthy_jsstring (CreateTextShareRequest.password b));
        [| reflexivity].
      unfold string_or_null. now rewrite !hashPassword_truthy.
  - rewrite (get_view_first_match env id (CreateTextShareRequest.password b) t
               w' record Hget), Hallow. reflexivity.
  - exact Hcount.
  - cbn [with_db db]. rewrite view_count_increment, Hcount, String.eqb_refl.
    reflexivity.
Qed.

Lemma text_round_trip_witness :
  text.get_view example_env (generateId 12 id_bytes)
    (CreateTextShareRequest.password example_text) 1000 text_world
  = (TextBody (CreateTextShareRequest.content example_text) "text/plain",
     with_db text_world
       (DatabaseService.incrementViewCount (generateId 12 id_bytes)
          (db text_world))).
Proof.
  refine (proj1 (proj2 (proj2
            (text_round_trip example_env example_text "203.0.113.9"
               "https://share.example" id_bytes 0 0 1000 empty_world
               text_world
               (TextShareCreateData
                  (TextShareCreateResponse.mk "abcdefghijkl" (Some "plan")
                     86400000
                     "https://share.example/api/text/view/abcdefghijkl" true))
               _ _)))).
  - vm_compute. reflexivity.
  - vm_compute. discriminate.
Defined.

Lemma post_create_rejected (env : Env) (b : CreateTextShareRequest.t)
    (client_ip origin : string) (randomArray : nat -> Z) (now now' : Z)
    (w : World) :
  create_accepted env b = false ->
  exists message,
    text.post_create env (Ok b) client_ip origin randomArray now now' w
    = (JsonFailure 400 message, w).
Proof.
  unfold create_accepted, text.post_create.
  destruct (createTextShareSchema b); cbn [negb andb];
    [| intros _; eexists; reflexivity].
  intros ->. eexists. reflexivity.
Qed.

Lemma create_accepted_bounds (env : Env) (b : CreateTextShareRequest.t) :
  create_accepted env b = true ->
  let hours := default 24 (CreateTextShareRequest.expiry_hours b) in
  1 <= hours <= 168 /\ hours <= MAX_EXPIRY_HOURS env
  /\ 1 <= str_len (CreateTextShareRequest.content b) <= 1000000
  /\ (forall m, CreateTextShareRequest.max_views b = Some m -> 1 <= m).
Proof.
  unfold create_accepted, createTextShareSchema, isValidExpiryHours.
  intros H. cbn zeta. repeat (apply andb_prop in H as [H ?]).
  destruct (CreateTextShareRequest.expiry_hours b) as [h|];
    destruct (CreateTextShareRequest.max_views b) as [m|];
    simpl in *; unfold str_len in *; repeat split; try lia;
    try (intros m' [= <-]; lia); try discriminate.
Qed.

(** X20: the outcomes of POST /api/text/create.  The handler answers 201,
    400 or 500; it never touches the bucket or the files; unless it
    answers 201 it leaves the world as it was; and when it answers 201 it
    has appended exactly one row, under a fresh 12-character id, not
    deleted, with no views, a content of 1 to 1000000 characters, a view
    limit that is absent or at least 1, and an expiry between 1 hour and
    168 hours after the request, and no later than the configured
    maximum. *)
Theorem text_create_outcomes (env : Env)
    (reqBody : Result CreateTextShareRequest.t) (client_ip origin : string)
    (randomArray : nat -> Z) (now now' : Z) (w : World) :
  let r := fst (text.post_create env reqBody client_ip origin randomArray
                  now now' w) in
  let w' := snd (text.post_create env reqBody client_ip origin randomArray
                   now now' w) in
  bucket w' = bucket w
  /\ files (db w') = files (db w)
  /\ (status_of r = 201 \/ status_of r = 400 \/ status_of r = 500)
  /\ (status_of r <> 201 -> w' = w)
  /\ (status_of r = 201 ->
      exists record,
        text_shares (db w') = text_shares (db w) ++ [record]
        /\ ~ In (TextShareRecord.id record) (text_ids (db w))
        /\ String.length (TextShareRecord.id record) = 12%nat
        /\ TextShareRecord.is_deleted record = false
        /\ TextShareRecord.view_count record = 0
        /\ 1 <= str_len (TextShareRecord.content record) <= 1000000
        /\ (forall m, TextShareRecord.max_views record = Some m -> 1 <= m)
        /\ now + 3600000 <= TextShareRecord.expires_at record
           <= now + 604800000
        /\ TextShareRecord.expires_at record
           <= now + MAX_EXPIRY_HOURS env * 3600000).
Proof.
  intros r w'. subst r w'.
  destruct reqBody as [b|].
  2:{ cbn [text.post_create fst snd status_of errorResponse].
      repeat split; auto; intros; discriminate. }
  destruct (create_accepted env b) eqn:Hok.
  2:{ destruct (post_create_rejected env b client_ip origin randomArray
                  now now' w Hok) as [message ->].
      cbn [fst snd status_of]. repeat split; auto; intros; discriminate. }
  rewrite (post_create_cases env b client_ip origin randomArray now now' w Hok).
  destruct (existsb _ (text_shares (db w))) eqn:Hfresh.
  { cbn [fst snd status_of errorResponse].
    repeat split; auto; intros; discriminate. }
  cbn [fst snd status_of successResponse with_db db bucket
       DatabaseService.update_text_shares files text_shares].
  split; [reflexivity |]. split; [reflexivity |]. split; [now left |].
  split; [intros H; now contradiction H |]. intros _.
  destruct (create_accepted_bounds env b Hok) as (Hh & Hmax & Hlen & Hviews).
  eexists. split; [reflexivity |].
  unfold inserted_text, create_input, calculateExpiryDate.
  cbn [TextShareRecord.id TextShareRecord.is_deleted
       TextShareRecord.view_count TextShareRecord.content
       TextShareRecord.max_views TextShareRecord.expires_at
       CreateTextShareInput.content CreateTextShareInput.max_views
       CreateTextShareInput.expires_at].
  split; [exact (existsb_text_ids _ _ Hfresh) |].
  split; [apply generateId_length |].
  split; [reflexivity |]. split; [reflexivity |]. split; [exact Hlen |].
  split; [| cbn zeta in *; lia].
  intros m. unfold number_or_null.
  destruct (truthy_number _); [apply Hviews | discriminate].
Qed.

Lemma text_create_outcomes_witness :
  snd (text.post_create example_env (Ok example_text) "203.0.113.9"
         "https://share.example" id_bytes 0 0 text_world)
  = text_world.
Proof.
  refine (proj1 (proj2 (proj2 (proj2
            (text_create_outcomes example_env (Ok example_text) "203.0.113.9"
               "https://share.example" id_bytes 0 0 text_world)))) _).
  vm_compute. discriminate.
Defined.

(** ** handlers/upload.ts: the outcomes of an upload *)

Lemma post_upload_rejected (env : Env) (form : UploadForm.t) (file : File.t)
    (client_ip origin : string) (nameRandom idRandom : nat -> Z)
    (now now' : Z) (w : World) :
  UploadForm.file form = Some file ->
  upload_accepted env form file = false ->
  exists message,
    upload.post_upload env (Ok form) client_ip origin nameRandom idRandom
                       now now' w
    = (JsonFailure 400 message, w).
Proof.
  intros Hfile. unfold upload_accepted, upload.post_upload. rewrite Hfile.
  cbn zeta.
  destruct (uploadFileSchema _ _ _); cbn [negb andb];
    [| intros _; eexists; reflexivity].
  destruct (isValidFileSize _ _); cbn [negb andb];
    [| intros _; eexists; reflexivity].
  destruct (isAllowedFileType _); cbn [negb andb];
    [| intros _; eexists; reflexivity].
  intros ->. eexists. reflexivity.
Qed.

Lemma upload_accepted_bounds (env : Env) (form : UploadForm.t)
    (file : File.t) :
  upload_accepted env form file = true ->
  1 <= upload.expiryHours form <= 168
  /\ upload.expiryHours form <= MAX_EXPIRY_HOURS env
  /\ 0 < File.size file <= MAX_FILE_SIZE env
  /\ isAllowedFileType (File.type file) = true
  /\ (forall m,
        match upload.maxDownloads form with
        | Some (Num n) => Some n
        | _ => None
        end = Some m -> 1 <= m).
Proof.
  unfold upload_accepted, uploadFileSchema, isValidExpiryHours,
    isValidFileSize.
  intros H. repeat (apply andb_prop in H as [H ?]).
  repeat split; try lia; try assumption.
  intros m. destruct (upload.maxDownloads form) as [[|n]|];
    try discriminate.
  intros [= <-]. cbn [optional] in *. lia.
Qed.

(** X21: the outcomes of POST /api/upload.  The handler answers 201, 400
    or 500 and never touches the text shares; when it answers 400 the
    world is as it was; unless it answers 201 the bucket is as it was, so
    that no blob is stored without an answer that names its record; and
    when it answers 201 it has appended exactly one row and stored one
    object under the file name of that row: the row has a fresh
    12-character id, is not deleted, has no downloads, the size of the
    stored bytes, which is positive and at most the configured maximum,
    an allowed type, a sanitized name of at most 255 characters, a
    download limit that is absent or at least 1, and
    an expiry between 1 hour and 168 hours after the request and no
    later than the configured maximum. *)
Theorem upload_outcomes (env : Env) (formData : Result UploadForm.t)
    (client_ip origin : string) (nameRandom idRandom : nat -> Z)
    (now now' : Z) (w : World) :
  let r := fst (upload.post_upload env formData client_ip origin nameRandom
                  idRandom now now' w) in
  let w' := snd (upload.post_upload env formData client_ip origin nameRandom
                   idRandom now now' w) in
  text_shares (db w') = text_shares (db w)
  /\ (status_of r = 201 \/ status_of r = 400 \/ status_of r = 500)
  /\ (status_of r = 400 -> w' = w)
  /\ (status_of r <> 201 -> bucket w' = bucket w)
  /\ (status_of r = 201 ->
      exists record object,
        files (db w') = files (db w) ++ [record]
        /\ objects (bucket w')
           = StorageService.put object (objects (bucket w))
        /\ key object = FileRecord.filename record
        /\ StorageService.size object = FileRecord.size record
        /\ ~ In (FileRecord.id record) (file_ids (db w))
        /\ String.length (FileRecord.id record) = 12%nat
        /\ FileRecord.is_deleted record = false
        /\ FileRecord.download_count record = 0
        /\ 0 < FileRecord.size record <= MAX_FILE_SIZE env
        /\ isAllowedFileType (FileRecord.mime_type record) = true
        /\ (String.length (FileRecord.original_filename record) <= 255)%nat
        /\ all_chars safe_char (FileRecord.original_filename record) = true
        /\ (forall m, FileRecord.max_downloads record = Some m -> 1 <= m)
        /\ now + 3600000 <= FileRecord.expires_at record <= now + 604800000
        /\ FileRecord.expires_at record
           <= now + MAX_EXPIRY_HOURS env * 3600000).
Proof.
  intros r w'. subst r w'.
  destruct formData as [form|].
  2:{ cbn [upload.post_upload fst snd status_of errorResponse].
      repeat split; auto; intros; discriminate. }
  destruct (UploadForm.file form) as [file|] eqn:Hfile.
  2:{ unfold upload.post_upload. rewrite Hfile.
      cbn [fst snd status_of errorResponse].
      repeat split; auto; intros; discriminate. }
  destruct (upload_accepted env form file) eqn:Hok.
  2:{ destruct (post_upload_rejected env form file client_ip origin nameRandom
                  idRandom now now' w Hfile Hok) as [message ->].
      cbn [fst snd status_of]. repeat split; auto; intros; discriminate. }
  rewrite (post_upload_cases env form file client_ip origin nameRandom
             idRandom now now' w Hfile Hok).
  destruct (existsb _ (files (db w))) eqn:Hfresh.
  { cbn [fst snd status_of errorResponse].
    repeat split; auto; intros; discriminate. }
  destruct (available (bucket w)) eqn:Hup.
  2:{ cbn [fst snd status_of errorResponse db bucket
           DatabaseService.update_files text_shares].
      repeat split; auto; intros; discriminate. }
  cbn [fst snd status_of successResponse db bucket
       DatabaseService.update_files files text_shares
       StorageService.with_objects objects].
  split; [reflexivity |]. split; [now left |].
  split; [intros; discriminate |].
  split; [intros H; now contradiction H |]. intros _.
  destruct (upload_accepted_bounds env form file Hok)
    as (Hh & Hmax & Hsize & Htype & Hlimit).
  eexists _, _. split; [reflexivity |]. split; [reflexivity |].
  unfold inserted_file, upload_input, upload_object, calculateExpiryDate.
  cbn [key body FileRecord.id FileRecord.filename FileRecord.size
       FileRecord.is_deleted FileRecord.download_count FileRecord.mime_type
       FileRecord.max_downloads FileRecord.expires_at
       FileRecord.original_filename CreateFileInput.original_filename
       CreateFileInput.filename CreateFileInput.size
       CreateFileInput.mime_type CreateFileInput.max_downloads
       CreateFileInput.expires_at].
  split; [reflexivity |]. split; [reflexivity |].
  split; [exact (existsb_file_ids _ _ Hfresh) |].
  split; [apply generateId_length |].
  split; [reflexivity |]. split; [reflexivity |]. split; [exact Hsize |].
  split; [exact Htype |].
  destruct (sanitizeFilename_chars (File.name file)) as [Hlen Hsafe].
  split; [exact Hlen |]. split; [exact Hsafe |]. split; [| lia].
  intros m. unfold number_or_null.
  destruct (truthy_number _); [apply Hlimit | discriminate].
Qed.

Lemma upload_outcomes_witness :
  bucket (snd (upload.post_upload example_env (Ok example_form) "203.0.113.9"
                 "https://share.example" name_bytes id_bytes 0 0
                 offline_world))
  = bucket offline_world.
Proof.
  refine (proj1 (proj2 (proj2 (proj2
            (upload_outcomes example_env (Ok example_form) "203.0.113.9"
               "https://share.example" name_bytes id_bytes 0 0
               offline_world)))) _).
  vm_compute. discriminate.
Defined.

(** ** handlers/download.ts: the limit across the routes *)

Lemma serve_download_as_post (env : Env) (fileId : string)
    (request : DownloadRequest) (now : Z) (w : World) :
  snd (serve_download env fileId request now w)
  = snd (download.post_download fileId (as_post request) now w)
  /\ is_file (fst (serve_download env fileId request now w))
     = is_file (fst (download.post_download fileId (as_post request) now w)).
Proof.
  destruct request as [reqBody|password]; cbn [serve_download as_post];
    [split; reflexivity |].
  destruct (DatabaseService.getFile fileId (db w)) as [file|] eqn:Hget.
  - rewrite (get_download_first_match env fileId password now w file Hget).
    rewrite (post_download_first_match fileId (Accepted password) password now
               w file eq_refl Hget).
    destruct (Policy.first_match _) as [|reason]; [split; reflexivity |].
    cbn [fst snd]. split; [reflexivity |]. now destruct reason.
  - unfold download.get_download, download.post_download.
    cbn [parse_redeem_body]. rewrite Hget. split; reflexivity.
Qed.

Lemma run_requests_as_posts (env : Env) (fileId : string)
    (requests : list (DownloadRequest * Z)) :
  forall w : World,
    snd (run_requests env fileId requests w)
    = snd (run_downloads fileId (as_posts requests) w)
    /\ Forall2 (fun r r' => is_file r = is_file r')
         (fst (run_requests env fileId requests w))
         (fst (run_downloads fileId (as_posts requests) w)).
Proof.
  induction requests as [|[request now] rest IH]; intros w; simpl.
  - split; [reflexivity | constructor].
  - destruct (serve_download_as_post env fileId request now w) as [Hw Hr].
    destruct (serve_download env fileId request now w) as [r w1].
    destruct (download.post_download fileId (as_post request) now w)
      as [r' w1'].
    cbn [fst snd] in Hw, Hr. subst w1'.
    destruct (IH w1) as [Hw2 Hrs].
    destruct (run_requests env fileId rest w1) as [rs w2].
    destruct (run_downloads fileId (as_posts rest) w1) as [rs' w2'].
    cbn [fst snd] in *. split; [exact Hw2 | constructor; assumption].
Qed.

(** X22: the download limit holds across the two routes.  For a file
    found with no downloads yet, a limit of at least one, its blob in the
    bucket and a name and a type that are header values, so that its
    response can be built, take any sequence of requests, each a POST or
    a direct link, of which [limit] would pass (served before the expiry,
    with a body that the schema accepts and a password that the file
    accepts).
    Each request is served exactly when it would pass; after the sequence
    the counter is [limit]; and any further request before the expiry, by
    either route and whatever its password, is refused and leaves the
    world as it is. *)
Theorem download_limit_across_routes (env : Env) (fileId : string)
    (file : FileRecord.t) (object : R2Object) (limit : Z)
    (requests : list (DownloadRequest * Z)) (w : World)
    (Hget : DatabaseService.getFile fileId (db w) = Some file)
    (Hfresh : FileRecord.download_count file = 0)
    (Hlimit : FileRecord.max_downloads file = Some limit)
    (Hpositive : 1 <= limit)
    (Hblob : StorageService.downloadFile (FileRecord.filename file) (bucket w)
             = Ok (Some object))
    (Hservable : servable file = true)
    (Hpassing : passing file (as_posts requests) = limit) :
  let rs := fst (run_requests env fileId requests w) in
  let w' := snd (run_requests env fileId requests w) in
  Forall2 (fun request r =>
             is_file r
             = would_pass file (as_post (fst request), snd request))
          requests rs
  /\ download_count_of fileId (db w') = Some limit
  /\ (forall (request : DownloadRequest) (now : Z),
        parse_redeem_body (as_post request) <> None ->
        now <= FileRecord.expires_at file ->
        is_file (fst (serve_download env fileId request now w')) = false
        /\ snd (serve_download env fileId request now w') = w').
Proof.
  assert (Hstart : at_count fileId file (bucket w) 0 w).
  { split; [| reflexivity]. rewrite Hget. f_equal.
    destruct file; simpl in *; subst; reflexivity. }
  assert (Hle : 0 + passing file (as_posts requests) <= limit) by lia.
  destruct (run_below_limit fileId file object limit (bucket w)
              Hlimit Hpositive Hblob Hservable (as_posts requests) 0 w
              Hstart Hle)
    as [Hrs Hend].
  rewrite Z.add_0_l, Hpassing in Hend.
  destruct (run_requests_as_posts env fileId requests w) as [Hw Hfiles].
  cbv zeta. rewrite Hw. split; [| split].
  - clear - Hrs Hfiles. unfold as_posts in *.
    revert Hrs Hfiles.
    generalize (fst (run_requests env fileId requests w)) as rs.
    generalize (fst (run_downloads fileId
                       (List.map (fun request =>
                                    (as_post (fst request), snd request))
                          requests) w)) as rs'.
    induction requests as [|request rest IH]; intros rs' rs Hrs Hfiles.
    + inversion Hrs; subst. inversion Hfiles; subst. constructor.
    + simpl in Hrs. inversion Hrs as [|? r' ? rest' Hr' Hrest']; subst.
      inversion Hfiles as [|r ? rest0 ? Hr Hrest0]; subst.
      constructor; [congruence | exact (IH _ _ Hrest' Hrest0)].
  - unfold download_count_of. destruct Hend as [-> _]. reflexivity.
  - intros request now Hbody Hlive.
    destruct (parse_redeem_body (as_post request)) as [password|] eqn:Hparse;
      [| contradiction].
    destruct (serve_download_as_post env fileId request now
                (snd (run_downloads fileId (as_posts requests) w)))
      as [-> ->].
    rewrite (denied_at_limit fileId file limit (bucket w) Hlimit Hpositive _
               (as_post request) password now Hend Hparse Hlive).
    split; reflexivity.
Qed.

Lemma download_limit_across_routes_witness :
  let requests := [(ByLink None, 10); (ByPost Rejected, 11);
                   (ByPost (Accepted None), 12)] in
  download_count_of "abcdefghijkl"
    (db (snd (run_requests example_env "abcdefghijkl" requests
                uploaded_world)))
  = Some 2.
Proof.
  intros requests.
  refine (proj1 (proj2
            (download_limit_across_routes example_env "abcdefghijkl"
               uploaded_record uploaded_object 2 requests uploaded_world
               _ _ _ _ _ _ _))).
  - vm_compute. reflexivity.
  - reflexivity.
  - reflexivity.
  - lia.
  - vm_compute. reflexivity.
  - vm_compute. reflexivity.
  - vm_compute. reflexivity.
Defined.

(** ** handlers/download.ts and handlers/text.ts: the info routes *)

Lemma fetch_and_count_status (fileId : string) (file : FileRecord.t)
    (w : World) :
  let r := fst (download.fetch_and_count fileId file w) in
  is_file r = true
  \/ r = errorResponse FILE_NOT_FOUND "File not found in storage" 404
  \/ r = errorResponse INTERNAL_ERROR "Failed to download file" 500.
Proof.
  unfold download.fetch_and_count.
  destruct (StorageService.downloadFile _ _) as [[object|]|]; cbn zeta;
    [| cbn; auto | cbn; auto].
  rewrite fileResponse_servable. destruct (servable file); cbn; auto.
Qed.

Lemma file_flags (fileId : string) (file : FileRecord.t)
    (password : option jsstring) (now now' : Z) (w : World) :
  DatabaseService.getFile fileId (db w) = Some file ->
  exists info,
    download.get_info fileId now now' w
    = (successResponse (FileInfoData info) 200, w)
    /\ (FileInfoResponse.is_expired info = true
        <-> download.post_download fileId (Accepted password) now' w
            = (errorResponse FILE_EXPIRED "File has expired" 410, w))
    /\ (FileInfoResponse.is_download_limit_reached info = true
        <-> download.post_download fileId (Accepted password) now w
            = (errorResponse DOWNLOAD_LIMIT_REACHED "Download limit reached"
                 403, w))
    /\ (FileInfoResponse.has_password info = false ->
        forall t, status_of (fst (download.post_download fileId
                                    (Accepted password) t w)) <> 401).
Proof.
  intros Hget. unfold download.get_info. rewrite Hget.
  eexists. split; [reflexivity |].
  cbn [FileInfoResponse.is_expired FileInfoResponse.is_download_limit_reached
       FileInfoResponse.has_password].
  assert (Hserve : forall r,
            is_file r = false -> status_of r <> 404 -> status_of r <> 500 ->
            fst (download.fetch_and_count fileId file w) <> r).
  { intros r Hr H404 H500 Heq. subst r.
    destruct (fetch_and_count_status fileId file w) as [H|[H|H]];
      cbn zeta in H;
      [congruence | rewrite H in H404; now apply H404
       | rewrite H in H500; now apply H500]. }
  split; [| split].
  - rewrite (post_download_first_match fileId (Accepted password) password
               now' w file eq_refl Hget).
    unfold Policy.file_checks. cbn [Policy.first_match].
    destruct (isExpired (FileRecord.expires_at file) now');
      [split; reflexivity |].
    split; [discriminate |]. intros H. exfalso.
    destruct (truthy_number _ && _); [discriminate |].
    destruct (truthy_string _ && negb (truthy_jsstring _)); [discriminate |].
    destruct (truthy_string _ && negb (verifyPassword _ _)); [discriminate |].
    apply (Hserve (errorResponse FILE_EXPIRED "File has expired" 410));
      [reflexivity | discriminate | discriminate |].
    now rewrite H.
  - rewrite (post_download_first_match fileId (Accepted password) password
               now w file eq_refl Hget).
    unfold Policy.file_checks, DatabaseService.isFileAccessible.
    cbn [Policy.first_match].
    destruct (isExpired (FileRecord.expires_at file) now);
      [split; discriminate |].
    destruct (truthy_number _ && _); [split; reflexivity |].
    split; [discriminate |]. intros H. exfalso.
    destruct (truthy_string _ && negb (truthy_jsstring _)); [discriminate |].
    destruct (truthy_string _ && negb (verifyPassword _ _)); [discriminate |].
    apply (Hserve (errorResponse DOWNLOAD_LIMIT_REACHED
                         "Download limit reached" 403));
      [reflexivity | discriminate | discriminate |].
    now rewrite H.
  - intros Hopen t.
    rewrite (post_download_first_match fileId (Accepted password) password
               t w file eq_refl Hget).
    unfold Policy.file_checks. cbn [Policy.first_match]. rewrite Hopen.
    cbn [andb].
    destruct (isExpired _ _); [discriminate |].
    destruct (truthy_number _ && _); [discriminate |].
    destruct (fetch_and_count_status fileId file w) as [H|[H|H]];
      cbn zeta in H.
    + destruct (fst (download.fetch_and_count fileId file w));
        try discriminate.
    + rewrite H. discriminate.
    + rewrite H. discriminate.
Qed.

Lemma text_flags (textShareId : string) (textShare : TextShareRecord.t)
    (password : option jsstring) (now now' : Z) (w : World) :
  DatabaseService.getTextShare textShareId (db w) = Some textShare ->
  exists info,
    text.get_info textShareId now now' w
    = (successResponse (TextShareInfoData info) 200, w)
    /\ (TextShareInfoResponse.is_expired info = true
        <-> text.post_view textShareId (Accepted password) now' w
            = (errorResponse FILE_EXPIRED "Text share has expired" 410, w))
    /\ (TextShareInfoResponse.is_view_limit_reached info = true
        <-> text.post_view textShareId (Accepted password) now w
            = (errorResponse VIEW_LIMIT_REACHED "View limit reached" 403, w))
    /\ (TextShareInfoResponse.has_password info = false ->
        forall t, status_of (fst (text.post_view textShareId
                                    (Accepted password) t w)) <> 401).
Proof.
  intros Hget. unfold text.get_info. rewrite Hget.
  eexists. split; [reflexivity |].
  cbn [TextShareInfoResponse.is_expired
       TextShareInfoResponse.is_view_limit_reached
       TextShareInfoResponse.has_password].
  split; [| split].
  - rewrite (post_view_first_match textShareId (Accepted password) password
               now' w textShare eq_refl Hget).
    unfold Policy.text_checks, text.count_and_show. cbn [Policy.first_match].
    destruct (isExpired (TextShareRecord.expires_at textShare) now');
      [split; reflexivity |].
    split; [discriminate |].
    destruct (truthy_number _ && _); [discriminate |].
    destruct (truthy_string _ && negb (truthy_jsstring _)); [discriminate |].
    destruct (truthy_string _ && negb (verifyPassword _ _)); discriminate.
  - rewrite (post_view_first_match textShareId (Accepted password) password
               now w textShare eq_refl Hget).
    unfold Policy.text_checks, DatabaseService.isTextShareAccessible,
      text.count_and_show.
    cbn [Policy.first_match].
    destruct (isExpired (TextShareRecord.expires_at textShare) now);
      [split; discriminate |].
    destruct (truthy_number _ && _); [split; reflexivity |].
    split; [discriminate |].
    destruct (truthy_string _ && negb (truthy_jsstring _)); [discriminate |].
    destruct (truthy_string _ && negb (verifyPassword _ _)); discriminate.
  - intros Hopen t.
    rewrite (post_view_first_match textShareId (Accepted password) password
               t w textShare eq_refl Hget).
    unfold Policy.text_checks, text.count_and_show.
    cbn [Policy.first_match]. rewrite Hopen. cbn [andb].
    destruct (isExpired _ _); [discriminate |].
    destruct (truthy_number _ && _); discriminate.
Qed.

(** X23: the flags of the info routes foretell the denials.  For a
    record that is found, the info route answers 200 and leaves the world
    as it is; it reports the record as expired exactly when a POST of the
    download or view route at that instant is answered 410, and as having
    reached its limit exactly when such a POST is answered 403; and when it
    reports no password, no POST is answered 401, whatever password or
    instant it has. *)
Theorem info_flags_foretell_denials :
  (forall (fileId : string) (file : FileRecord.t)
          (password : option jsstring) (now now' : Z) (w : World),
     DatabaseService.getFile fileId (db w) = Some file ->
     exists info,
       download.get_info fileId now now' w
       = (successResponse (FileInfoData info) 200, w)
       /\ (FileInfoResponse.is_expired info = true
           <-> download.post_download fileId (Accepted password) now' w
               = (errorResponse FILE_EXPIRED "File has expired" 410, w))
       /\ (FileInfoResponse.is_download_limit_reached info = true
           <-> download.post_download fileId (Accepted password) now w
               = (errorResponse DOWNLOAD_LIMIT_REACHED
                    "Download limit reached" 403, w))
       /\ (FileInfoResponse.has_password info = false ->
           forall t, status_of (fst (download.post_download fileId
                                       (Accepted password) t w)) <> 401))
  /\ (forall (textShareId : string) (textShare : TextShareRecord.t)
             (password : option jsstring) (now now' : Z) (w : World),
        DatabaseService.getTextShare textShareId (db w) = Some textShare ->
        exists info,
          text.get_info textShareId now now' w
          = (successResponse (TextShareInfoData info) 200, w)
          /\ (TextShareInfoResponse.is_expired info = true
              <-> text.post_view textShareId (Accepted password) now' w
                  = (errorResponse FILE_EXPIRED "Text share has expired" 410,
                     w))
          /\ (TextShareInfoResponse.is_view_limit_reached info = true
              <-> text.post_view textShareId (Accepted password) now w
                  = (errorResponse VIEW_LIMIT_REACHED "View limit reached"
                       403, w))
          /\ (TextShareInfoResponse.has_password info = false ->
              forall t, status_of (fst (text.post_view textShareId
                                          (Accepted password) t w)) <> 401)).
Proof.
  split.
  - intros fileId file password now now' w. apply file_flags.
  - intros textShareId textShare password now now' w. apply text_flags.
Qed.

Lemma info_flags_foretell_denials_witness :
  exists info,
    download.get_info "abcdefghijkl" 90000000 90000000 uploaded_world
    = (successResponse (FileInfoData info) 200, uploaded_world)
    /\ FileInfoResponse.is_expired info = true.
Proof.
  destruct (proj1 info_flags_foretell_denials "abcdefghijkl" uploaded_record
              None 90000000 90000000 uploaded_world)
    as (info & Hinfo & Hexpired & _).
  - vm_compute. reflexivity.
  - exists info. split; [exact Hinfo |]. apply Hexpired.
    vm_compute. reflexivity.
Defined.

(** ** Denials over time *)

Lemma file_ids_run (ops : list db_op) (d : D1Database) :
  NoDup (file_ids d) -> NoDup (file_ids (run_ops ops d)).
Proof.
  revert d. induction ops as [|op ops IH]; intros d Hd; [exact Hd |].
  apply (IH (run_op d op)). clear IH. unfold file_ids in *.
  destruct op; simpl; try exact Hd;
    try (rewrite map_id_update;
         [exact Hd
         | intros r;
           repeat match goal with
                  | |- context [if ?b then _ else _] => destruct b
                  end; reflexivity]).
  - unfold DatabaseService.createFile.
    destruct (existsb _ (files d)) eqn:E; simpl; [exact Hd |].
    rewrite List.map_app. simpl.
    apply NoDup_snoc; [exact Hd |]. exact (existsb_file_ids _ _ E).
  - unfold DatabaseService.createTextShare.
    destruct (existsb _ (text_shares d)); exact Hd.
Qed.

Lemma Forall2_In_l {A B} (R : A -> B -> Prop) (l : list A) (l' : list B)
    (a : A) :
  Forall2 R l l' -> In a l -> exists b, In b l' /\ R a b.
Proof.
  induction 1 as [|x y l l' Hxy _ IH]; simpl; [contradiction |].
  intros [<-|Hin]; [exists y; auto |].
  destruct (IH Hin) as (b & Hb & Hab). exists b. auto.
Qed.

Lemma getFile_evolves (ops : list db_op) (d : D1Database) (id : string)
    (f f' : FileRecord.t) :
  NoDup (file_ids d) ->
  DatabaseService.getFile id d = Some f ->
  DatabaseService.getFile id (run_ops ops d) = Some f' ->
  file_evolves f f'.
Proof.
  intros Hnd Hget Hget'.
  destruct (rows_run ops d) as [(later & added & Hafter & Hrows) _].
  destruct (Forall2_In_l _ _ _ f Hrows (getFile_in _ _ _ Hget))
    as (f1 & Hin1 & Hevolves).
  destruct (getFile_found _ _ _ Hget) as [Hid _].
  destruct (getFile_found _ _ _ Hget') as [Hid' _].
  assert (f1 = f') as <-; [| exact Hevolves].
  apply (unique_row (files (run_ops ops d)));
    [exact (file_ids_run ops d Hnd)
    | rewrite Hafter; apply List.in_or_app; now left
    | exact (getFile_in _ _ _ Hget')
    | destruct Hevolves as [Hid1 _]; congruence].
Qed.

Lemma inaccessible_later (f f' : FileRecord.t) (now later : Z)
    (password : option jsstring) :
  file_evolves f f' ->
  DatabaseService.isFileAccessible f now <> DatabaseService.accessible ->
  now <= later ->
  exists reason,
    Policy.first_match (Policy.file_checks f' later password)
    = Policy.DENY reason.
Proof.
  intros (_ & _ & _ & _ & _ & _ & _ & Hexp & Hmax & _ & Hcount & _) Hno Hle.
  unfold DatabaseService.isFileAccessible in Hno.
  unfold Policy.file_checks. cbn [Policy.first_match].
  rewrite Hexp, Hmax. unfold isExpired in *.
  destruct (later >? FileRecord.expires_at f) eqn:Hlater; [eauto |].
  destruct (now >? FileRecord.expires_at f) eqn:Hnow; [lia |].
  destruct (truthy_number (FileRecord.max_downloads f)); cbn [andb] in *;
    [| now contradiction Hno].
  destruct (default 0 (FileRecord.max_downloads f)
              <=? FileRecord.download_count f) eqn:Hreached;
    [| now contradiction Hno].
  replace (default 0 (FileRecord.max_downloads f)
             <=? FileRecord.download_count f') with true by lia.
  eauto.
Qed.

Lemma text_ids_run (ops : list db_op) (d : D1Database) :
  NoDup (text_ids d) -> NoDup (text_ids (run_ops ops d)).
Proof.
  revert d. induction ops as [|op ops IH]; intros d Hd; [exact Hd |].
  apply (IH (run_op d op)). clear IH. unfold text_ids in *.
  destruct op; simpl; try exact Hd;
    try (rewrite map_id_update;
         [exact Hd
         | intros r;
           repeat match goal with
                  | |- context [if ?b then _ else _] => destruct b
                  end; reflexivity]).
  - unfold DatabaseService.createFile.
    destruct (existsb _ (files d)); exact Hd.
  - unfold DatabaseService.createTextShare.
    destruct (existsb _ (text_shares d)) eqn:E; simpl; [exact Hd |].
    rewrite List.map_app. simpl.
    apply NoDup_snoc; [exact Hd |]. exact (existsb_text_ids _ _ E).
Qed.

Lemma getTextShare_evolves (ops : list db_op) (d : D1Database) (id : string)
    (s s' : TextShareRecord.t) :
  NoDup (text_ids d) ->
  DatabaseService.getTextShare id d = Some s ->
  DatabaseService.getTextShare id (run_ops ops d) = Some s' ->
  text_evolves s s'.
Proof.
  intros Hnd Hget Hget'.
  destruct (rows_run ops d) as [_ (later & added & Hafter & Hrows)].
  destruct (Forall2_In_l _ _ _ s Hrows (getTextShare_in _ _ _ Hget))
    as (s1 & Hin1 & Hevolves).
  destruct (getTextShare_found _ _ _ Hget) as [Hid _].
  destruct (getTextShare_found _ _ _ Hget') as [Hid' _].
  assert (s1 = s') as <-; [| exact Hevolves].
  apply (unique_text_row (text_shares (run_ops ops d)));
    [exact (text_ids_run ops d Hnd)
    | rewrite Hafter; apply List.in_or_app; now left
    | exact (getTextShare_in _ _ _ Hget')
    | destruct Hevolves as [Hid1 _]; congruence].
Qed.

Lemma text_inaccessible_later (s s' : TextShareRecord.t) (now later : Z)
    (password : option jsstring) :
  text_evolves s s' ->
  DatabaseService.isTextShareAccessible s now <> DatabaseService.accessible ->
  now <= later ->
  exists reason,
    Policy.first_match (Policy.text_checks s' later password)
    = Policy.DENY reason.
Proof.
  intros (_ & _ & _ & _ & _ & _ & Hexp & Hmax & _ & Hcount & _) Hno Hle.
  unfold DatabaseService.isTextShareAccessible in Hno.
  unfold Policy.text_checks. cbn [Policy.first_match].
  rewrite Hexp, Hmax. unfold isExpired in *.
  destruct (later >? TextShareRecord.expires_at s) eqn:Hlater; [eauto |].
  destruct (now >? TextShareRecord.expires_at s) eqn:Hnow; [lia |].
  destruct (truthy_number (TextShareRecord.max_views s)); cbn [andb] in *;
    [| now contradiction Hno].
  destruct (default 0 (TextShareRecord.max_views s)
              <=? TextShareRecord.view_count s) eqn:Hreached;
    [| now contradiction Hno].
  replace (default 0 (TextShareRecord.max_views s)
             <=? TextShareRecord.view_count s') with true by lia.
  eauto.
Qed.

Lemma view_denial_not_shown (reason : Policy.Reason) :
  is_text_share (Policy.view_denial reason) = false.
Proof. now destruct reason. Qed.

Lemma view_redirect_not_text (env : Env) (textShareId : string)
    (reason : Policy.Reason) :
  is_text (view_redirect env textShareId reason) = false.
Proof. now destruct reason. Qed.

(** X24: a denial for expiry or for the limit is final.  With unique ids,
    once a record that is found is expired or has reached its limit, then
    at any later instant, after any writes to the database and whatever
    the bucket holds, no request for its id is served, by POST or by the
    direct link and whatever its password, and the request leaves the
    world as it is. *)
Theorem expiry_and_limit_denials_are_final :
  (forall (env : Env) (ops : list db_op) (d : D1Database) (b : R2Bucket)
          (fileId : string) (file : FileRecord.t) (now later : Z)
          (request : DownloadRequest),
     NoDup (file_ids d) ->
     DatabaseService.getFile fileId d = Some file ->
     DatabaseService.isFileAccessible file now <> DatabaseService.accessible ->
     now <= later ->
     let w' := {| db := run_ops ops d; bucket := b |} in
     is_file (fst (serve_download env fileId request later w')) = false
     /\ snd (serve_download env fileId request later w') = w')
  /\ (forall (env : Env) (ops : list db_op) (d : D1Database) (b : R2Bucket)
             (textShareId : string) (textShare : TextShareRecord.t)
             (now later : Z) (reqBody : RedeemBody)
             (password : option jsstring),
        NoDup (text_ids d) ->
        DatabaseService.getTextShare textShareId d = Some textShare ->
        DatabaseService.isTextShareAccessible textShare now
        <> DatabaseService.accessible ->
        now <= later ->
        let w' := {| db := run_ops ops d; bucket := b |} in
        is_text_share (fst (text.post_view textShareId reqBody later w'))
        = false
        /\ snd (text.post_view textShareId reqBody later w') = w'
        /\ is_text (fst (text.get_view env textShareId password later w'))
           = false
        /\ snd (text.get_view env textShareId password later w') = w').
Proof.
  split.
  - intros env ops d b fileId file now later request Hnd Hget Hno Hle w'.
    destruct (serve_download_as_post env fileId request later w') as [-> ->].
    destruct (parse_redeem_body (as_post request)) as [password|] eqn:Hbody.
    2:{ unfold download.post_download. rewrite Hbody. split; reflexivity. }
    destruct (DatabaseService.getFile fileId (db w')) as [file'|] eqn:Hget'.
    2:{ unfold download.post_download. rewrite Hbody, Hget'.
        split; reflexivity. }
    destruct (inaccessible_later file file' now later password
                (getFile_evolves ops d fileId file file' Hnd Hget Hget')
                Hno Hle) as [reason Hdeny].
    rewrite (post_download_first_match fileId (as_post request) password
               later w' file' Hbody Hget'), Hdeny.
    split; [apply download_denial_not_file | reflexivity].
  - intros env ops d b textShareId textShare now later reqBody password
      Hnd Hget Hno Hle w'.
    destruct (DatabaseService.getTextShare textShareId (db w'))
      as [textShare'|] eqn:Hget'.
    + pose proof (getTextShare_evolves ops d textShareId textShare textShare'
                    Hnd Hget Hget') as Hevolves.
      assert (Hpost :
                is_text_share (fst (text.post_view textShareId reqBody later w'))
                = false
                /\ snd (text.post_view textShareId reqBody later w') = w').
      { destruct (parse_redeem_body reqBody) as [password'|] eqn:Hbody.
        2:{ unfold text.post_view. rewrite Hbody. split; reflexivity. }
        destruct (text_inaccessible_later textShare textShare' now later
                    password' Hevolves Hno Hle) as [reason Hdeny].
        rewrite (post_view_first_match textShareId reqBody password' later w'
                   textShare' Hbody Hget'), Hdeny.
        split; [apply view_denial_not_shown | reflexivity]. }
      destruct Hpost as [Hshown Hworld].
      split; [exact Hshown |]. split; [exact Hworld |]. split.
      * destruct (text_inaccessible_later textShare textShare' now later
                    password Hevolves Hno Hle) as [reason Hdeny].
        rewrite (get_view_first_match env textShareId password later w'
                   textShare' Hget'), Hdeny.
        apply view_redirect_not_text.
      * destruct (text_inaccessible_later textShare textShare' now later
                    password Hevolves Hno Hle) as [reason Hdeny].
        rewrite (get_view_first_match env textShareId password later w'
                   textShare' Hget'), Hdeny.
        reflexivity.
    + unfold text.post_view, text.get_view. rewrite Hget'.
      destruct (parse_redeem_body reqBody); repeat split; reflexivity.
Qed.

Lemma expiry_and_limit_denials_are_final_witness :
  is_file
    (fst (serve_download example_env "abcdefghijkl" (ByLink None) 90000001
            {| db := run_ops [IncrementDownloadCount "abcdefghijkl"]
                       (db uploaded_world);
               bucket := bucket uploaded_world |}))
  = false.
Proof.
  refine (proj1 (proj1 expiry_and_limit_denials_are_final example_env
                   [IncrementDownloadCount "abcdefghijkl"]
                   (db uploaded_world) (bucket uploaded_world)
                   "abcdefghijkl" uploaded_record 90000000 90000001
                   (ByLink None) _ _ _ _)).
  - vm_compute. repeat constructor. intros H. inversion H.
  - vm_compute. reflexivity.
  - vm_compute. discriminate.
  - lia.
Defined.

(** ** utils/validation.ts: the address of the client *)

Lemma first_piece_without (c : ascii) (s : string) :
  without c (first_piece (split c s)) = true.
Proof.
  unfold without, first_piece.
  induction s as [|a s IH]; simpl; [reflexivity |].
  destruct (Ascii.eqb a c) eqn:Ea; [reflexivity |].
  destruct (split c s) as [|piece pieces]; simpl in *.
  - now rewrite Ea.
  - now rewrite Ea, IH.
Qed.

Lemma trim_start_without (c : ascii) (s : string) :
  without c s = true -> without c (trim_start s) = true.
Proof.
  unfold without. induction s as [|a s IH]; simpl; [auto |].
  intros H. destruct (space_char a); [| exact H].
  apply andb_prop in H as [_ H]. exact (IH H).
Qed.

Lemma trim_end_without (c : ascii) (s : string) :
  without c s = true -> without c (trim_end s) = true.
Proof.
  unfold without. induction s as [|a s IH]; simpl; [auto |].
  intros H. apply andb_prop in H as [Ha Hs]. specialize (IH Hs).
  destruct (trim_end s) as [|b kept].
  - destruct (space_char a); simpl; [reflexivity | now rewrite Ha].
  - simpl in *. now rewrite Ha, IH.
Qed.

Lemma trim_end_again (s : string) : trim_end (trim_end s) = trim_end s.
Proof.
  induction s as [|a s IH]; simpl; [reflexivity |].
  destruct (trim_end s) as [|b kept] eqn:E.
  - destruct (space_char a) eqn:Ea; simpl; [reflexivity | now rewrite Ea].
  - change (trim_end (String a (String b kept))
            = String a (String b kept)).
    cbn [trim_end]. cbn [trim_end] in IH. now rewrite IH.
Qed.

Lemma trim_end_head (a : ascii) (s : string) :
  space_char a = false -> exists kept, trim_end (String a s) = String a kept.
Proof.
  intros Ha. simpl. destruct (trim_end s); rewrite ?Ha; eauto.
Qed.

Lemma trim_again (s : string) : trim (trim s) = trim s.
Proof.
  unfold trim.
  assert (Hstart : trim_start (trim_end (trim_start s))
                   = trim_end (trim_start s)).
  { induction s as [|a s IH]; simpl; [reflexivity |].
    destruct (space_char a) eqn:Ea; [exact IH |].
    destruct (trim_end_head a s Ea) as [kept ->]. simpl. now rewrite Ea. }
  rewrite Hstart. apply trim_end_again.
Qed.

Lemma first_address_shape (get : string -> option string)
    (headers : list string) :
  without "," (first_address get headers) = true
  /\ trim (first_address get headers) = first_address get headers.
Proof.
  induction headers as [|header rest IH]; simpl.
  - split; reflexivity.
  - destruct (truthy_string (get header)); [| exact IH]. split.
    + apply trim_end_without, trim_start_without, first_piece_without.
    + apply trim_again.
Qed.

(** X25: the address that [getClientIP] reads from a request holds no
    comma and no white space at either end.  It is the first item of
    CF-Connecting-IP when that header is present and not empty, whatever
    the other headers say; and it is the text [unknown] when none of the
    four headers is present with a value that is not empty. *)
Theorem getClientIP_shape (request : string -> option string) :
  without "," (getClientIP request) = true
  /\ trim (getClientIP request) = getClientIP request
  /\ (forall v, request "CF-Connecting-IP" = Some v -> v <> "" ->
        getClientIP request = trim (first_piece (split "," v)))
  /\ ((forall header,
         In header [ "CF-Connecting-IP"; "X-Forwarded-For"; "X-Real-IP";
                     "X-Client-IP" ] ->
         truthy_string (request header) = false) ->
      getClientIP request = "unknown").
Proof.
  unfold getClientIP.
  destruct (first_address_shape request
              [ "CF-Connecting-IP"; "X-Forwarded-For"; "X-Real-IP";
                "X-Client-IP" ]) as [Hcomma Htrim].
  split; [exact Hcomma |]. split; [exact Htrim |]. split.
  - intros v Hv Hne. cbn [first_address]. rewrite Hv.
    cbn [truthy_string default].
    destruct (String.eqb_spec v ""); [contradiction | reflexivity].
  - intros Hnone. cbn [first_address].
    rewrite !Hnone by (simpl; tauto). reflexivity.
Qed.

Lemma getClientIP_shape_witness :
  getClientIP (fun header =>
                 if String.eqb header "CF-Connecting-IP"
                 then Some " 203.0.113.9 , 10.0.0.1" else None)
  = "203.0.113.9".
Proof.
  rewrite (proj1 (proj2 (proj2 (getClientIP_shape _)))
             " 203.0.113.9 , 10.0.0.1" eq_refl ltac:(discriminate)).
  reflexivity.
Defined.
